(** * The binary feature codec of indexer/feature.cpp

    A shallow embedding of [FeatureBuilder1], [FeatureBuilder2],
    [FeatureBase] and [FeatureType] together with the properties the
    specification states about them.  Integers are [Z] with the wrap-around
    of the C++ type written out, byte buffers are lists of [Z] in [0, 256),
    code that can abort or run off its buffer lives in the [result] monad. *)

From Stdlib Require Import ZArith List Bool Lia String.
From stdpp Require Import base list sorting.
Import ListNotations.
Local Open Scope Z_scope.

(** ** Outcomes of a call *)

Inductive error : Type :=
| AssertFailed (expr : string)   (* an ASSERT of a DEBUG build tripped *)
| CheckFailed (expr : string)    (* a CHECK tripped (all builds) *)
| OutOfRange.                    (* read or index past the end: undefined in C++ *)

Inductive result (A : Type) : Type :=
| Ok (a : A)
| Fail (e : error).
Arguments Ok {A} a.
Arguments Fail {A} e.

Global Instance result_ret : MRet result := @Ok.
Global Instance result_bind : MBind result := fun A B k c =>
  match c with
  | Ok a => k a
  | Fail e => Fail e
  end.

(** The build flavour: [ASSERT] is compiled in only when [DEBUG] is defined
    (the self-check at the end of [FeatureBuilder1::Serialize] sits under the
    same [#ifdef]); [CHECK] is always compiled in. *)
Class BuildMode := DEBUG : bool.

Definition ASSERT {BM : BuildMode} (c : bool) (expr : string) : result unit :=
  if DEBUG && negb c then Fail (AssertFailed expr) else Ok tt.

Definition CHECK (c : bool) (expr : string) : result unit :=
  if c then Ok tt else Fail (CheckFailed expr).

(** The outcome of a decoder or reader that feature.cpp only calls. *)
Definition decoded {A} (o : option A) : result A :=
  match o with
  | Some a => Ok a
  | None => Fail OutOfRange
  end.

(** ** Fixed-width integers *)

Definition u8 (v : Z) : Z := v mod 2 ^ 8.
Definition u32 (v : Z) : Z := v mod 2 ^ 32.
Definition u64 (v : Z) : Z := v mod 2 ^ 64.
Definition i32 (v : Z) : Z := (v + 2 ^ 31) mod 2 ^ 32 - 2 ^ 31.

Definition kInvalidOffset : Z := u32 (-1).

(** ** Variable-length integers (coding/varint.hpp) *)

(** Modelled from the spec: [var_uint] of section 6.3, "standard
    LEB128-style 7-bits-per-byte, MSB-continuation, unsigned"; the header
    that defines [WriteVarUint] and [ReadVarUint] is not among the sources.
    Ten groups of seven bits cover every 64-bit value. *)
Fixpoint WriteVarUint_loop (n : nat) (v : Z) : list Z :=
  match n with
  | O => []
  | S n' => if v <? 128 then [v]
            else Z.lor (Z.land v 127) 128 :: WriteVarUint_loop n' (Z.shiftr v 7)
  end.

Definition WriteVarUint (v : Z) : list Z := WriteVarUint_loop 10 v.

Fixpoint ReadVarUint_loop (src : list Z) (shift acc : Z) : result (Z * list Z) :=
  match src with
  | [] => Fail OutOfRange
  | b :: rest =>
      let acc' := acc + Z.shiftl (Z.land b 127) shift in
      if b <? 128 then Ok (acc', rest)
      else ReadVarUint_loop rest (shift + 7) acc'
  end.

(** [ReadVarUint<uint32_t>] and [ReadVarUint<uint64_t>]: the value read,
    cut to the width asked for, and the source after it. *)
Definition ReadVarUint32 (src : list Z) : result (Z * list Z) :=
  '(v, rest) ← ReadVarUint_loop src 0 0; Ok (u32 v, rest).
Definition ReadVarUint64 (src : list Z) : result (Z * list Z) :=
  '(v, rest) ← ReadVarUint_loop src 0 0; Ok (u64 v, rest).

(** Modelled from the spec: [var_int] of section 6.3, "zig-zag transform
    followed by var_uint". *)
Definition ZigZagEncode (v : Z) : Z := if v <? 0 then - 2 * v - 1 else 2 * v.
Definition ZigZagDecode (v : Z) : Z := if Z.odd v then - ((v + 1) / 2) else v / 2.
Definition WriteVarInt (v : Z) : list Z := WriteVarUint (ZigZagEncode v).
Definition ReadVarInt32 (src : list Z) : result (Z * list Z) :=
  '(v, rest) ← ReadVarUint_loop src 0 0; Ok (i32 (ZigZagDecode (u32 v)), rest).

(** [source.Read(p, n)]: [n] raw bytes. *)
Definition ReadBytes (n : nat) (src : list Z) : result (list Z * list Z) :=
  if (n <=? length src)%nat then Ok (take n src, drop n src) else Fail OutOfRange.

(** ** The scale header (feature::DataHeader) *)

(** Modelled from the spec: section 6.2, the header "provides scales_count
    and scale(i) breakpoints in ascending zoom order, plus a base_point
    encoded as i64"; the class itself is not among the sources. *)
Record DataHeader : Type := {
  hdr_scales : list Z;
  hdr_base : Z
}.

Definition GetScalesCount (h : DataHeader) : nat := length (hdr_scales h).

(** ** FeatureType::GetScaleIndex *)

(** The [for] loop of the one-argument overload, index [i] over the
    breakpoints still to visit. *)
Fixpoint GetScaleIndex_for (scale : Z) (i : nat) (scales : list Z) : Z :=
  match scales with
  | [] => -1
  | s :: scales' =>
      if scale <=? s then Z.of_nat i else GetScaleIndex_for scale (S i) scales'
  end.

Definition GetScaleIndex (h : DataHeader) (scale : Z) : Z :=
  if scale =? -1 then Z.of_nat (GetScalesCount h) - 1
  else GetScaleIndex_for scale 0 (hdr_scales h).

(** [while (i >= 0 && offsets[i] == kInvalidOffset) --i;] entered with
    [i = n - 1]; the value of [i] on exit. *)
Fixpoint offsets_while (offsets : list Z) (n : nat) : result Z :=
  match n with
  | O => Ok (-1)
  | S k =>
      match offsets !! k with
      | Some o => if o =? kInvalidOffset then offsets_while offsets k
                  else Ok (Z.of_nat k)
      | None => Fail OutOfRange
      end
  end.

(** The [for] loop of the two-argument overload: the first breakpoint that
    admits [scale] decides, through [return i] or through [break]. *)
Fixpoint offsets_for (scale : Z) (offsets : list Z) (i : nat) (scales : list Z)
  : result Z :=
  match scales with
  | [] => Ok (-1)
  | s :: scales' =>
      if scale <=? s then
        match offsets !! i with
        | Some o => if o =? kInvalidOffset then Ok (-1) else Ok (Z.of_nat i)
        | None => Fail OutOfRange
        end
      else offsets_for scale offsets (S i) scales'
  end.

Definition GetScaleIndex_offsets (h : DataHeader) (scale : Z) (offsets : list Z)
  : result Z :=
  if scale =? -1 then
    i ← offsets_while offsets (length offsets);
    if 0 <=? i then Ok i
    else (CHECK false "Feature should have any geometry ...";; Ok (-1))
  else offsets_for scale offsets 0 (hdr_scales h).

(** ** std::sort and std::set_difference on type vectors *)

(** [std::sort] on unsigned integers: the ascending arrangement, which is
    unique, so any sorting function stands for it. *)
Definition sort (l : list Z) : list Z := merge_sort Z.le l.

(** [std::set_difference] with [back_inserter], the two-cursor loop of the
    standard algorithm. *)
Fixpoint set_difference (l1 : list Z) : list Z -> list Z :=
  fix aux (l2 : list Z) : list Z :=
    match l1, l2 with
    | [], _ => []
    | _, [] => l1
    | x1 :: l1', x2 :: l2' =>
        if x1 <? x2 then x1 :: set_difference l1' l2
        else if x2 <? x1 then aux l2'
        else set_difference l1' l2'
    end.

(** ** Geometry and coordinate coding *)

(** What feature.cpp uses from geometry/, coding/ and
    geometry_serialization.hpp, none of which is among the sources: the
    arithmetic of [double], points and rectangles, the region test, the
    quantisation of a point to the integer grid with its delta coding, and
    the path, triangle and array codecs of [serial::].  A point
    [m2::PointD] is a pair of doubles, a grid point [m2::PointU] a pair of
    32-bit integers.  A loader takes the source, the base and the vector it
    appends to, and gives the vector and the source after it, or nothing
    when the bytes do not decode. *)
Class Geom : Type := {
  D : Type;
  d_sub : D -> D -> D;
  d_fabs : D -> D;
  d_lt : D -> D -> bool;
  GetCellID2PointAbsEpsilon : D;
  Point_ctor : D * D;
  EqualDxDy : D * D -> D * D -> D -> bool;
  RectD : Type;
  GetEmptyRect : RectD;
  Rect_Add : RectD -> D * D -> RectD;
  minX : RectD -> D;
  minY : RectD -> D;
  maxX : RectD -> D;
  maxY : RectD -> D;
  Region_Contains : list (D * D) -> D * D -> bool;
  PointD2PointU : D -> D -> Z * Z;
  PointU2PointD : Z * Z -> D * D;
  Uint64ToPointU : Z -> Z * Z;
  EncodeDelta : Z * Z -> Z * Z -> Z;
  DecodeDelta : Z -> Z * Z -> Z * Z;
  SaveOuterPath : list (D * D) -> Z -> list Z;
  LoadOuterPath : list Z -> Z -> list (D * D) -> option (list (D * D) * list Z);
  SaveInnerPath : list (D * D) -> Z -> list Z;
  LoadInnerPath : list Z -> Z -> Z -> list (D * D) -> option (list (D * D) * list Z);
  SaveInnerTriangles : list (D * D) -> Z -> list Z;
  LoadInnerTriangles : list Z -> Z -> Z -> list (D * D) -> option (list (D * D) * list Z);
  LoadOuterTriangles : list Z -> Z -> list (D * D) -> option (list (D * D) * list Z);
  WriteVarUintArray : list Z -> list Z
}.

Definition PointD {G : Geom} : Type := (D * D)%type.
Definition points_t {G : Geom} : Type := list PointD.

(** [CalcRect]: the rectangle grown by every point in turn. *)
Definition CalcRect {G : Geom} (points : points_t) (rect : RectD) : RectD :=
  fold_left Rect_Add points rect.

(** ** The common header byte *)

(** Modelled from the spec: the bit table of section 3 (feature.hpp, which
    declares the enum, is not among the sources). *)
Definition HEADER_HAS_NAME : Z := 8.
Definition HEADER_HAS_LAYER : Z := 16.
Definition HEADER_HAS_POINT : Z := 32.
Definition HEADER_IS_LINE : Z := 64.
Definition HEADER_IS_AREA : Z := 128.

(** Modelled from the spec: "typical MAX_TYPES = 7", the largest count the
    three low header bits hold. *)
Definition m_maxTypesCount : nat := 7.

Definition has_flag (h flag : Z) : bool := negb (Z.land h flag =? 0).

(** ** FeatureBuilder1 *)

Module FeatureBuilder1.
Record t {G : Geom} : Type := mk {
  m_Types : list Z;
  m_Layer : Z;
  m_Name : list Z;
  m_Center : PointD;
  m_Geometry : points_t;
  m_Holes : list points_t;
  m_LimitRect : RectD;
  m_bPoint : bool;
  m_bLinear : bool;
  m_bArea : bool
}.
End FeatureBuilder1.
Import FeatureBuilder1.
Abbreviation FeatureBuilder1 := FeatureBuilder1.t.

Section Builder1.
Context {BM : BuildMode} {G : Geom}.

(** The constructor: layer 0, no flag, an empty limit rectangle. *)
Definition FeatureBuilder1_ctor : FeatureBuilder1 :=
  {| m_Types := []; m_Layer := 0; m_Name := []; m_Center := Point_ctor;
     m_Geometry := []; m_Holes := []; m_LimitRect := GetEmptyRect;
     m_bPoint := false; m_bLinear := false; m_bArea := false |}.

Definition SetCenter (p : PointD) (b : FeatureBuilder1) : FeatureBuilder1 :=
  {| m_Types := m_Types b; m_Layer := m_Layer b; m_Name := m_Name b;
     m_Center := p;
     m_Geometry := m_Geometry b; m_Holes := m_Holes b;
     m_LimitRect := Rect_Add (m_LimitRect b) p;
     m_bPoint := true; m_bLinear := m_bLinear b; m_bArea := m_bArea b |}.

Definition AddPoint (p : PointD) (b : FeatureBuilder1) : FeatureBuilder1 :=
  {| m_Types := m_Types b; m_Layer := m_Layer b; m_Name := m_Name b;
     m_Center := m_Center b;
     m_Geometry := m_Geometry b ++ [p]; m_Holes := m_Holes b;
     m_LimitRect := Rect_Add (m_LimitRect b) p;
     m_bPoint := m_bPoint b; m_bLinear := m_bLinear b; m_bArea := m_bArea b |}.

Definition set_Holes (holes : list points_t) (b : FeatureBuilder1) : FeatureBuilder1 :=
  {| m_Types := m_Types b; m_Layer := m_Layer b; m_Name := m_Name b;
     m_Center := m_Center b;
     m_Geometry := m_Geometry b; m_Holes := holes;
     m_LimitRect := m_LimitRect b;
     m_bPoint := m_bPoint b; m_bLinear := m_bLinear b; m_bArea := m_bArea b |}.

Definition set_bArea (v : bool) (b : FeatureBuilder1) : FeatureBuilder1 :=
  {| m_Types := m_Types b; m_Layer := m_Layer b; m_Name := m_Name b;
     m_Center := m_Center b;
     m_Geometry := m_Geometry b; m_Holes := m_Holes b;
     m_LimitRect := m_LimitRect b;
     m_bPoint := m_bPoint b; m_bLinear := m_bLinear b; m_bArea := v |}.

Definition set_bLinear (v : bool) (b : FeatureBuilder1) : FeatureBuilder1 :=
  {| m_Types := m_Types b; m_Layer := m_Layer b; m_Name := m_Name b;
     m_Center := m_Center b;
     m_Geometry := m_Geometry b; m_Holes := m_Holes b;
     m_LimitRect := m_LimitRect b;
     m_bPoint := m_bPoint b; m_bLinear := v; m_bArea := m_bArea b |}.

Definition set_Geometry (g : points_t) (b : FeatureBuilder1) : FeatureBuilder1 :=
  {| m_Types := m_Types b; m_Layer := m_Layer b; m_Name := m_Name b;
     m_Center := m_Center b;
     m_Geometry := g; m_Holes := m_Holes b;
     m_LimitRect := m_LimitRect b;
     m_bPoint := m_bPoint b; m_bLinear := m_bLinear b; m_bArea := m_bArea b |}.

Definition set_LimitRect (r : RectD) (b : FeatureBuilder1) : FeatureBuilder1 :=
  {| m_Types := m_Types b; m_Layer := m_Layer b; m_Name := m_Name b;
     m_Center := m_Center b;
     m_Geometry := m_Geometry b; m_Holes := m_Holes b;
     m_LimitRect := r;
     m_bPoint := m_bPoint b; m_bLinear := m_bLinear b; m_bArea := m_bArea b |}.

Definition set_Types (ts : list Z) (b : FeatureBuilder1) : FeatureBuilder1 :=
  {| m_Types := ts; m_Layer := m_Layer b; m_Name := m_Name b;
     m_Center := m_Center b;
     m_Geometry := m_Geometry b; m_Holes := m_Holes b;
     m_LimitRect := m_LimitRect b;
     m_bPoint := m_bPoint b; m_bLinear := m_bLinear b; m_bArea := m_bArea b |}.

(** The loop of [SetAreaAddHoles] over the candidate rings: a ring is kept
    when the region holds its front vertex; [front()] of an empty ring is
    guarded by the ASSERT only. *)
Fixpoint AddHoles_loop (rgn : points_t) (holes acc : list points_t)
  : result (list points_t) :=
  match holes with
  | [] => Ok acc
  | i :: holes' =>
      ASSERT (negb (bool_decide (length i = 0%nat))) "!i->empty()";;
      match i with
      | [] => Fail OutOfRange
      | front :: _ =>
          AddHoles_loop rgn holes'
            (if Region_Contains rgn front then acc ++ [i] else acc)
      end
  end.

Definition SetAreaAddHoles (holes : list points_t) (b : FeatureBuilder1)
  : result FeatureBuilder1 :=
  let b := set_Holes [] (set_bArea true b) in
  match holes with
  | [] => Ok b
  | _ =>
      kept ← AddHoles_loop (m_Geometry b) holes (m_Holes b);
      Ok (set_Holes kept b)
  end.

Definition AddName (name : list Z) (b : FeatureBuilder1) : FeatureBuilder1 :=
  {| m_Types := m_Types b; m_Layer := m_Layer b; m_Name := name;
     m_Center := m_Center b;
     m_Geometry := m_Geometry b; m_Holes := m_Holes b;
     m_LimitRect := m_LimitRect b;
     m_bPoint := m_bPoint b; m_bLinear := m_bLinear b; m_bArea := m_bArea b |}.

(** Modelled from the spec: [add_type], "appends; the builder keeps
    insertion order" (the inline [AddTypes] is declared in feature.hpp). *)
Definition AddTypes (ts : list Z) (b : FeatureBuilder1) : FeatureBuilder1 :=
  set_Types (m_Types b ++ ts) b.

(** Modelled from the spec: [set_linear], "sets the relevant flag". *)
Definition SetLinear (b : FeatureBuilder1) : FeatureBuilder1 := set_bLinear true b.

Definition IsTypeExist (t : Z) (b : FeatureBuilder1) : bool :=
  bool_decide (t ∈ m_Types b).

Definition AssignType_SetDifference (diffTypes : list Z) (b : FeatureBuilder1)
  : bool * FeatureBuilder1 :=
  let src := m_Types b in
  let b := set_Types [] b in
  let src := sort src in
  let b := set_Types (m_Types b ++ set_difference src diffTypes) b in
  (negb (bool_decide (length (m_Types b) = 0%nat)), b).

Definition AddLayer (layer : Z) (b : FeatureBuilder1) : FeatureBuilder1 :=
  let bound := 10 in
  let layer := if layer <? - bound then - bound
               else if layer >? bound then bound else layer in
  {| m_Types := m_Types b; m_Layer := layer; m_Name := m_Name b;
     m_Center := m_Center b;
     m_Geometry := m_Geometry b; m_Holes := m_Holes b;
     m_LimitRect := m_LimitRect b;
     m_bPoint := m_bPoint b; m_bLinear := m_bLinear b; m_bArea := m_bArea b |}.

(** The anonymous [is_equal] overloads. *)
Definition is_equal_double (d1 d2 : D) : bool :=
  d_lt (d_fabs (d_sub d1 d2)) GetCellID2PointAbsEpsilon.

Definition is_equal_point (p1 p2 : PointD) : bool :=
  EqualDxDy p1 p2 GetCellID2PointAbsEpsilon.

Definition is_equal_rect (r1 r2 : RectD) : bool :=
  is_equal_double (minX r1) (minX r2) &&
  is_equal_double (minY r1) (minY r2) &&
  is_equal_double (maxX r1) (maxX r2) &&
  is_equal_double (maxY r1) (maxY r2).

Fixpoint is_equal_loop (v1 v2 : points_t) : bool :=
  match v1, v2 with
  | [], _ => true
  | p1 :: v1', p2 :: v2' => if negb (is_equal_point p1 p2) then false
                            else is_equal_loop v1' v2'
  | _ :: _, [] => false
  end.

Definition is_equal_points (v1 v2 : points_t) : bool :=
  if negb (length v1 =? length v2)%nat then false else is_equal_loop v1 v2.

(** The closing loop of [operator==], both lists of one length. *)
Fixpoint holes_equal_loop (h1 h2 : list points_t) : bool :=
  match h1, h2 with
  | [], _ => true
  | i :: h1', j :: h2' => if negb (is_equal_points i j) then false
                          else holes_equal_loop h1' h2'
  | _ :: _, [] => false
  end.

Definition FeatureBuilder1_eq (a fb : FeatureBuilder1) : bool :=
  if negb (bool_decide (m_Types a = m_Types fb)) ||
     negb (m_Layer a =? m_Layer fb) ||
     negb (bool_decide (m_Name a = m_Name fb)) ||
     negb (eqb (m_bPoint a) (m_bPoint fb)) ||
     negb (eqb (m_bLinear a) (m_bLinear fb)) ||
     negb (eqb (m_bArea a) (m_bArea fb))
  then false
  else if m_bPoint a && negb (is_equal_point (m_Center a) (m_Center fb)) then false
  else if negb (is_equal_rect (m_LimitRect a) (m_LimitRect fb)) then false
  else if negb (is_equal_points (m_Geometry a) (m_Geometry fb)) then false
  else if negb (length (m_Holes a) =? length (m_Holes fb))%nat then false
  else holes_equal_loop (m_Holes a) (m_Holes fb).

(** [CheckValid]: every CHECK in turn, then [true]. *)
Definition CheckValid (b : FeatureBuilder1) : result bool :=
  CHECK (negb (bool_decide (length (m_Types b) = 0%nat)) &&
         (length (m_Types b) <=? m_maxTypesCount)%nat)
        "!m_Types.empty() && m_Types.size() <= m_maxTypesCount";;
  CHECK ((-10 <=? m_Layer b) && (m_Layer b <=? 10))
        "m_Layer >= -10 && m_Layer <= 10";;
  CHECK (m_bPoint b || m_bLinear b || m_bArea b) "m_bPoint || m_bLinear || m_bArea";;
  CHECK (negb (m_bLinear b) || (2 <=? length (m_Geometry b))%nat)
        "!m_bLinear || m_Geometry.size() >= 2";;
  CHECK (negb (m_bArea b) || (3 <=? length (m_Geometry b))%nat)
        "!m_bArea || m_Geometry.size() >= 3";;
  CHECK (bool_decide (length (m_Holes b) = 0%nat) || m_bArea b)
        "m_Holes.empty() || m_bArea";;
  CHECK (forallb (fun i => (3 <=? length i)%nat) (m_Holes b)) "i->size() >= 3";;
  Ok true.

Definition GetHeader (b : FeatureBuilder1) : Z :=
  let header := u8 (Z.of_nat (length (m_Types b))) in
  let header := if negb (bool_decide (length (m_Name b) = 0%nat))
                then Z.lor header HEADER_HAS_NAME else header in
  let header := if negb (m_Layer b =? 0)
                then Z.lor header HEADER_HAS_LAYER else header in
  let header := if m_bPoint b then Z.lor header HEADER_HAS_POINT else header in
  let header := if m_bLinear b then Z.lor header HEADER_IS_LINE else header in
  let header := if m_bArea b then Z.lor header HEADER_IS_AREA else header in
  header.

(** [SerializeBase]: the bytes pushed behind [data]. *)
Definition SerializeBase (b : FeatureBuilder1) (basePoint : Z * Z) : list Z :=
  [GetHeader b] ++
  concat (map (fun t => WriteVarUint (u32 t)) (m_Types b)) ++
  (if negb (m_Layer b =? 0) then WriteVarInt (m_Layer b) else []) ++
  (if negb (bool_decide (length (m_Name b) = 0%nat))
   then WriteVarUint (u64 (Z.of_nat (length (m_Name b)) - 1)) ++ m_Name b
   else []) ++
  (if m_bPoint b
   then WriteVarUint
          (u64 (EncodeDelta (PointD2PointU (fst (m_Center b)) (snd (m_Center b)))
                            basePoint))
   else []).

End Builder1.

(** ** BitSink and BitSource *)

Module BitSink.
Record t : Type := mk {
  m_sink : list Z;     (* the bytes pushed to the underlying sink so far *)
  m_pos : Z;
  m_current : Z
}.
End BitSink.
Abbreviation BitSink := BitSink.t.

Module BitSource.
Record t : Type := mk {
  m_ptr : list Z;      (* the buffer from the read pointer on *)
  m_pos : Z
}.
End BitSource.
Abbreviation BitSource := BitSource.t.

Section Bits.
Context {BM : BuildMode}.

Definition BitSink_ctor (sink : list Z) : BitSink :=
  BitSink.mk sink 0 0.

Definition BitSink_Finish (s : BitSink) : BitSink :=
  if 0 <? BitSink.m_pos s
  then BitSink.mk (BitSink.m_sink s ++ [BitSink.m_current s]) 0 0
  else s.

Definition BitSink_Write (value count : Z) (s : BitSink) : result BitSink :=
  ASSERT (count <? 9) "count < 9";;
  ASSERT (Z.shiftr value count =? 0) "value >> count == 0";;
  let s := if BitSink.m_pos s + count >? 8 then BitSink_Finish s else s in
  Ok (BitSink.mk (BitSink.m_sink s)
        (u8 (BitSink.m_pos s + count))
        (u8 (Z.lor (BitSink.m_current s) (Z.shiftl value (BitSink.m_pos s))))).

Definition BitSource_ctor (p : list Z) : BitSource := BitSource.mk p 0.

Definition BitSource_Read (count : Z) (s : BitSource) : result (Z * BitSource) :=
  ASSERT (count <? 9) "count < 9";;
  match BitSource.m_ptr s with
  | [] => Fail OutOfRange
  | byte :: next =>
      let v := u8 byte in
      let v := Z.shiftr v (BitSource.m_pos s) in
      let v := u8 (Z.land v (Z.shiftl 1 count - 1)) in
      let pos := u8 (BitSource.m_pos s + count) in
      if 8 <=? pos then
        ASSERT (pos =? 8) "m_pos == 8";;
        Ok (v, BitSource.mk next 0)
      else Ok (v, BitSource.mk (BitSource.m_ptr s) pos)
  end.

Definition BitSource_RoundPtr (s : BitSource) : list Z * BitSource :=
  if 0 <? BitSource.m_pos s
  then (drop 1 (BitSource.m_ptr s), BitSource.mk (drop 1 (BitSource.m_ptr s)) 0)
  else (BitSource.m_ptr s, s).

End Bits.

(** ** FeatureBuilder2 *)

Module buffers_holder_t.
Record t {G : Geom} : Type := mk {
  m_buffer : list Z;
  m_innerPts : points_t;
  m_innerTrg : points_t;
  m_ptsMask : Z;
  m_trgMask : Z;
  m_ptsSimpMask : Z;
  m_ptsOffset : list Z;
  m_trgOffset : list Z
}.
End buffers_holder_t.
Abbreviation buffers_holder_t := buffers_holder_t.t.

Section Builder2.
Context {BM : BuildMode} {G : Geom}.
Import buffers_holder_t.

(** The loop writing the simplification mask, one byte per four vertices. *)
Fixpoint WriteSimpMask_loop (count : nat) (v : Z) : list Z :=
  match count with
  | O => []
  | S count' => u8 v :: WriteSimpMask_loop count' (Z.shiftr v 8)
  end.

(** [FeatureBuilder2::Serialize]: the builder is read, [data] is updated in
    place: its buffer is rebuilt and, on the outer branches, its offset
    arrays are left reversed. *)
Definition FeatureBuilder2_Serialize (b : FeatureBuilder1) (data : buffers_holder_t)
    (base : Z) : result buffers_holder_t :=
  let buffer := SerializeBase b (Uint64ToPointU (u64 base)) in
  let ptsCount := u8 (Z.of_nat (length (m_innerPts data))) in
  let trgCount := u8 (Z.of_nat (length (m_innerTrg data))) in
  trgCount ← (if 0 <? trgCount
              then ASSERT (2 <? trgCount) "trgCount > 2";; Ok (u8 (trgCount - 2))
              else Ok trgCount);
  let bitSink := BitSink_ctor buffer in
  bitSink ← (if m_bLinear b then
               bs ← BitSink_Write ptsCount 4 bitSink;
               if ptsCount =? 0 then BitSink_Write (m_ptsMask data) 4 bs else Ok bs
             else Ok bitSink);
  bitSink ← (if m_bArea b then
               bs ← BitSink_Write trgCount 4 bitSink;
               if trgCount =? 0 then BitSink_Write (m_trgMask data) 4 bs else Ok bs
             else Ok bitSink);
  let buffer := BitSink.m_sink (BitSink_Finish bitSink) in
  let '(buffer, ptsOffset) :=
    if m_bLinear b then
      if 0 <? ptsCount then
        (buffer ++
         (if 2 <? ptsCount
          then WriteSimpMask_loop (Z.to_nat (Z.quot (ptsCount - 2 + 3) 4)) (m_ptsSimpMask data)
          else []) ++
         SaveInnerPath (m_innerPts data) base, m_ptsOffset data)
      else
        let reversed := rev (m_ptsOffset data) in
        (buffer ++ WriteVarUintArray reversed, reversed)
    else (buffer, m_ptsOffset data) in
  let '(buffer, trgOffset) :=
    if m_bArea b then
      if 0 <? trgCount then
        (buffer ++ SaveInnerTriangles (m_innerTrg data) base, m_trgOffset data)
      else
        let reversed := rev (m_trgOffset data) in
        (buffer ++ WriteVarUintArray reversed, reversed)
    else (buffer, m_trgOffset data) in
  Ok {| m_buffer := buffer; m_innerPts := m_innerPts data;
        m_innerTrg := m_innerTrg data; m_ptsMask := m_ptsMask data;
        m_trgMask := m_trgMask data; m_ptsSimpMask := m_ptsSimpMask data;
        m_ptsOffset := ptsOffset; m_trgOffset := trgOffset |}.

End Builder2.

(** ** FeatureBase *)

Module FeatureBase.
Record t {G : Geom} : Type := mk {
  m_Data : list Z;
  m_Offset : nat;
  m_base : Z;
  m_Types : list Z;          (* the fixed array of m_maxTypesCount slots *)
  m_Layer : Z;
  m_Name : list Z;
  m_Center : PointD;
  m_LimitRect : RectD;
  m_bTypesParsed : bool;
  m_bCommonParsed : bool;
  m_CommonOffset : nat;
  m_Header2Offset : nat
}.
End FeatureBase.
Abbreviation FeatureBase := FeatureBase.t.

Section Base.
Context {BM : BuildMode} {G : Geom}.

(** A freshly constructed object; the slots of [m_Types] and [m_Center]
    hold whatever the constructor leaves there. *)
Definition FeatureBase_ctor : FeatureBase :=
  FeatureBase.mk _ [] 0 0 (replicate m_maxTypesCount 0) 0 [] Point_ctor GetEmptyRect
    false false 0 0.

Definition FeatureBase_Deserialize (data : list Z) (offset : nat) (base : Z)
    (f : FeatureBase) : FeatureBase :=
  FeatureBase.mk _ data offset base (FeatureBase.m_Types f) 0 []
    (FeatureBase.m_Center f) GetEmptyRect false false 0 0.

(** Modelled from the spec: the feature's bytes start at its offset in the
    buffer, the header is the first of them and the types follow it
    ("from the byte following the header"); [types_count] is "header bits
    0..2".  [DataPtr], [Header], [GetTypesCount] and [m_TypesOffset] are
    declared in feature.hpp. *)
Definition DataPtr (f : FeatureBase) : list Z :=
  drop (FeatureBase.m_Offset f) (FeatureBase.m_Data f).

Definition Header (f : FeatureBase) : Z :=
  match DataPtr f with
  | h :: _ => u8 h
  | [] => 0
  end.

Definition GetTypesCount (f : FeatureBase) : nat := Z.to_nat (Z.land (Header f) 7).

Definition m_TypesOffset : nat := 1.

(** [CalcOffset]: the distance of the source's pointer from [DataPtr]. *)
Definition CalcOffset (f : FeatureBase) (source : list Z) : nat :=
  length (DataPtr f) - length source.

Fixpoint ParseTypes_loop (count i : nat) (types source : list Z)
  : result (list Z * list Z) :=
  match count with
  | O => Ok (types, source)
  | S count' =>
      '(v, source) ← ReadVarUint32 source;
      if bool_decide (i < length types)%nat
      then ParseTypes_loop count' (S i) (<[i:=v]> types) source
      else Fail OutOfRange
  end.

Definition ParseTypes (f : FeatureBase) : result FeatureBase :=
  ASSERT (negb (FeatureBase.m_bTypesParsed f)) "!m_bTypesParsed";;
  let source := drop m_TypesOffset (DataPtr f) in
  '(types, source) ← ParseTypes_loop (GetTypesCount f) 0 (FeatureBase.m_Types f) source;
  Ok (FeatureBase.mk _ (FeatureBase.m_Data f) (FeatureBase.m_Offset f)
        (FeatureBase.m_base f) types (FeatureBase.m_Layer f) (FeatureBase.m_Name f)
        (FeatureBase.m_Center f) (FeatureBase.m_LimitRect f)
        true (FeatureBase.m_bCommonParsed f)
        (CalcOffset f source) (FeatureBase.m_Header2Offset f)).

Definition ParseCommon (f : FeatureBase) : result FeatureBase :=
  ASSERT (negb (FeatureBase.m_bCommonParsed f)) "!m_bCommonParsed";;
  f ← (if negb (FeatureBase.m_bTypesParsed f) then ParseTypes f else Ok f);
  let source := drop (FeatureBase.m_CommonOffset f) (DataPtr f) in
  let h := Header f in
  '(layer, source) ← (if has_flag h HEADER_HAS_LAYER then ReadVarInt32 source
                      else Ok (FeatureBase.m_Layer f, source));
  '(name, source) ← (if has_flag h HEADER_HAS_NAME then
                       '(n, source) ← ReadVarUint32 source;
                       ReadBytes (Z.to_nat (u32 (n + 1))) source
                     else Ok (FeatureBase.m_Name f, source));
  '(center, rect, source) ←
     (if has_flag h HEADER_HAS_POINT then
        '(v, source) ← ReadVarUint64 source;
        let center := PointU2PointD
                        (DecodeDelta v (Uint64ToPointU (u64 (FeatureBase.m_base f)))) in
        let m_Center : PointD := (fst center, snd center) in
        Ok (m_Center, Rect_Add (FeatureBase.m_LimitRect f) m_Center, source)
      else Ok (FeatureBase.m_Center f, FeatureBase.m_LimitRect f, source));
  Ok (FeatureBase.mk _ (FeatureBase.m_Data f) (FeatureBase.m_Offset f)
        (FeatureBase.m_base f) (FeatureBase.m_Types f) layer name center rect
        (FeatureBase.m_bTypesParsed f) true
        (FeatureBase.m_CommonOffset f) (CalcOffset f source)).

Definition FeatureBase_ParseAll (f : FeatureBase) : result FeatureBase :=
  if negb (FeatureBase.m_bCommonParsed f) then ParseCommon f else Ok f.

Definition InitFeatureBuilder (f : FeatureBase) (fb : FeatureBuilder1)
  : result (FeatureBase * FeatureBuilder1) :=
  f ← FeatureBase_ParseAll f;
  let fb := AddTypes (take (GetTypesCount f) (FeatureBase.m_Types f)) fb in
  let fb := AddLayer (FeatureBase.m_Layer f) fb in
  let fb := AddName (FeatureBase.m_Name f) fb in
  let h := Header f in
  let fb := if has_flag h HEADER_HAS_POINT then SetCenter (FeatureBase.m_Center f) fb
            else fb in
  let fb := if has_flag h HEADER_IS_LINE then SetLinear fb else fb in
  fb ← (if has_flag h HEADER_IS_AREA then SetAreaAddHoles [] fb else Ok fb);
  Ok (f, fb).

(** ** FeatureBuilder1: Serialize and Deserialize *)

(** The loop of [Deserialize] reading [count] hole rings. *)
Fixpoint LoadHoles_loop (count : nat) (src : list Z) (holes : list points_t)
  : result (list points_t * list Z) :=
  match count with
  | O => Ok (holes, src)
  | S count' =>
      '(ring, src) ← decoded (LoadOuterPath src 0 []);
      LoadHoles_loop count' src (holes ++ [ring])
  end.

Definition FeatureBuilder1_Deserialize (data : list Z) (b : FeatureBuilder1)
  : result FeatureBuilder1 :=
  let f := FeatureBase_Deserialize data 0 0 FeatureBase_ctor in
  '(f, b) ← InitFeatureBuilder f b;
  let src := drop (FeatureBase.m_Header2Offset f) (DataPtr f) in
  '(b, src) ← (if m_bLinear b || m_bArea b then
                 '(geometry, src) ← decoded (LoadOuterPath src 0 (m_Geometry b));
                 let b := set_Geometry geometry b in
                 Ok (set_LimitRect (CalcRect (m_Geometry b) (m_LimitRect b)) b, src)
               else Ok (b, src));
  b ← (if m_bArea b then
         '(count, src) ← ReadVarUint32 src;
         '(holes, src) ← LoadHoles_loop (Z.to_nat count) src (m_Holes b);
         Ok (set_Holes holes b)
       else Ok b);
  v ← CheckValid b;
  CHECK v "CheckValid()";;
  Ok b.

(** What [Serialize] leaves in [data] before its self-check. *)
Definition Serialize_data (b : FeatureBuilder1) : list Z :=
  SerializeBase b (0, 0) ++
  (if m_bLinear b || m_bArea b then SaveOuterPath (m_Geometry b) 0 else []) ++
  (if m_bArea b
   then WriteVarUint (u32 (Z.of_nat (length (m_Holes b)))) ++
        concat (map (fun i => SaveOuterPath i 0) (m_Holes b))
   else []).

Definition FeatureBuilder1_Serialize (b : FeatureBuilder1) : result (list Z) :=
  v ← CheckValid b;
  CHECK v "CheckValid()";;
  let data := Serialize_data b in
  (if DEBUG then
     fb ← FeatureBuilder1_Deserialize data FeatureBuilder1_ctor;
     ASSERT (FeatureBuilder1_eq fb b) "fb == *this"
   else Ok tt);;
  Ok data.

End Base.

(** ** FeatureType *)

Inductive file_tag : Type := GEOMETRY_FILE_TAG | TRIANGLE_FILE_TAG.

Inductive feature_t : Type :=
| FEATURE_TYPE_POINT
| FEATURE_TYPE_LINE
| FEATURE_TYPE_AREA.

(** The container of the outer streams and the kind of a feature, both
    declared in headers that are not among the sources: [GetReader] hands
    out the stream stored under [GetTagForIndex(tag, ind)], and
    [GetFeatureType] maps the header byte to the kind [IsEmptyGeometry]
    switches on. *)
Class Decls : Type := {
  FilesContainerR : Type;
  GetReader : FilesContainerR -> file_tag -> Z -> option (list Z);
  GetFeatureType : Z -> feature_t
}.

Module FeatureType.
Record t {G : Geom} {DC : Decls} : Type := mk {
  base : FeatureBase;
  m_cont : FilesContainerR;
  m_header : DataHeader;
  m_Points : points_t;
  m_Triangles : points_t;
  m_bHeader2Parsed : bool;
  m_bPointsParsed : bool;
  m_bTrianglesParsed : bool;
  m_ptsSimpMask : Z;
  m_ptsOffsets : list Z;
  m_trgOffsets : list Z;
  stat_Points : Z;           (* m_InnerStats.m_Points *)
  stat_Strips : Z;           (* m_InnerStats.m_Strips *)
  stat_Size : Z;             (* m_InnerStats.m_Size *)
  opened : list (file_tag * Z)   (* the readers obtained from m_cont, in order *)
}.
End FeatureType.
Import FeatureType.
Abbreviation FeatureType := FeatureType.t.

Module read_source_t.
Record t {DC : Decls} : Type := mk {
  m_cont : FilesContainerR;
  m_header : DataHeader;
  m_data : list Z;
  m_offset : nat
}.
End read_source_t.
Abbreviation read_source_t := read_source_t.t.

Section Reader.
Context {BM : BuildMode} {G : Geom} {DC : Decls}.

Definition set_base (v : FeatureBase) (s : FeatureType) : FeatureType :=
  FeatureType.mk _ _ v (m_cont s) (m_header s) (m_Points s) (m_Triangles s)
    (m_bHeader2Parsed s) (m_bPointsParsed s) (m_bTrianglesParsed s)
    (m_ptsSimpMask s) (m_ptsOffsets s) (m_trgOffsets s)
    (stat_Points s) (stat_Strips s) (stat_Size s) (opened s).

Definition set_Points (v : points_t) (s : FeatureType) : FeatureType :=
  FeatureType.mk _ _ (base s) (m_cont s) (m_header s) v (m_Triangles s)
    (m_bHeader2Parsed s) (m_bPointsParsed s) (m_bTrianglesParsed s)
    (m_ptsSimpMask s) (m_ptsOffsets s) (m_trgOffsets s)
    (stat_Points s) (stat_Strips s) (stat_Size s) (opened s).

Definition set_Triangles (v : points_t) (s : FeatureType) : FeatureType :=
  FeatureType.mk _ _ (base s) (m_cont s) (m_header s) (m_Points s) v
    (m_bHeader2Parsed s) (m_bPointsParsed s) (m_bTrianglesParsed s)
    (m_ptsSimpMask s) (m_ptsOffsets s) (m_trgOffsets s)
    (stat_Points s) (stat_Strips s) (stat_Size s) (opened s).

Definition set_bHeader2Parsed (v : bool) (s : FeatureType) : FeatureType :=
  FeatureType.mk _ _ (base s) (m_cont s) (m_header s) (m_Points s) (m_Triangles s)
    v (m_bPointsParsed s) (m_bTrianglesParsed s)
    (m_ptsSimpMask s) (m_ptsOffsets s) (m_trgOffsets s)
    (stat_Points s) (stat_Strips s) (stat_Size s) (opened s).

Definition set_bPointsParsed (v : bool) (s : FeatureType) : FeatureType :=
  FeatureType.mk _ _ (base s) (m_cont s) (m_header s) (m_Points s) (m_Triangles s)
    (m_bHeader2Parsed s) v (m_bTrianglesParsed s)
    (m_ptsSimpMask s) (m_ptsOffsets s) (m_trgOffsets s)
    (stat_Points s) (stat_Strips s) (stat_Size s) (opened s).

Definition set_bTrianglesParsed (v : bool) (s : FeatureType) : FeatureType :=
  FeatureType.mk _ _ (base s) (m_cont s) (m_header s) (m_Points s) (m_Triangles s)
    (m_bHeader2Parsed s) (m_bPointsParsed s) v
    (m_ptsSimpMask s) (m_ptsOffsets s) (m_trgOffsets s)
    (stat_Points s) (stat_Strips s) (stat_Size s) (opened s).

Definition set_ptsSimpMask (v : Z) (s : FeatureType) : FeatureType :=
  FeatureType.mk _ _ (base s) (m_cont s) (m_header s) (m_Points s) (m_Triangles s)
    (m_bHeader2Parsed s) (m_bPointsParsed s) (m_bTrianglesParsed s)
    v (m_ptsOffsets s) (m_trgOffsets s)
    (stat_Points s) (stat_Strips s) (stat_Size s) (opened s).

Definition set_ptsOffsets (v : list Z) (s : FeatureType) : FeatureType :=
  FeatureType.mk _ _ (base s) (m_cont s) (m_header s) (m_Points s) (m_Triangles s)
    (m_bHeader2Parsed s) (m_bPointsParsed s) (m_bTrianglesParsed s)
    (m_ptsSimpMask s) v (m_trgOffsets s)
    (stat_Points s) (stat_Strips s) (stat_Size s) (opened s).

Definition set_trgOffsets (v : list Z) (s : FeatureType) : FeatureType :=
  FeatureType.mk _ _ (base s) (m_cont s) (m_header s) (m_Points s) (m_Triangles s)
    (m_bHeader2Parsed s) (m_bPointsParsed s) (m_bTrianglesParsed s)
    (m_ptsSimpMask s) (m_ptsOffsets s) v
    (stat_Points s) (stat_Strips s) (stat_Size s) (opened s).

Definition set_stat_Points (v : Z) (s : FeatureType) : FeatureType :=
  FeatureType.mk _ _ (base s) (m_cont s) (m_header s) (m_Points s) (m_Triangles s)
    (m_bHeader2Parsed s) (m_bPointsParsed s) (m_bTrianglesParsed s)
    (m_ptsSimpMask s) (m_ptsOffsets s) (m_trgOffsets s)
    v (stat_Strips s) (stat_Size s) (opened s).

Definition set_stat_Strips (v : Z) (s : FeatureType) : FeatureType :=
  FeatureType.mk _ _ (base s) (m_cont s) (m_header s) (m_Points s) (m_Triangles s)
    (m_bHeader2Parsed s) (m_bPointsParsed s) (m_bTrianglesParsed s)
    (m_ptsSimpMask s) (m_ptsOffsets s) (m_trgOffsets s)
    (stat_Points s) v (stat_Size s) (opened s).

Definition set_stat_Size (v : Z) (s : FeatureType) : FeatureType :=
  FeatureType.mk _ _ (base s) (m_cont s) (m_header s) (m_Points s) (m_Triangles s)
    (m_bHeader2Parsed s) (m_bPointsParsed s) (m_bTrianglesParsed s)
    (m_ptsSimpMask s) (m_ptsOffsets s) (m_trgOffsets s)
    (stat_Points s) (stat_Strips s) v (opened s).

Definition set_opened (v : list (file_tag * Z)) (s : FeatureType) : FeatureType :=
  FeatureType.mk _ _ (base s) (m_cont s) (m_header s) (m_Points s) (m_Triangles s)
    (m_bHeader2Parsed s) (m_bPointsParsed s) (m_bTrianglesParsed s)
    (m_ptsSimpMask s) (m_ptsOffsets s) (m_trgOffsets s)
    (stat_Points s) (stat_Strips s) (stat_Size s) v.

Definition set_LimitRect_base (r : RectD) (f : FeatureBase) : FeatureBase :=
  FeatureBase.mk _ (FeatureBase.m_Data f) (FeatureBase.m_Offset f)
    (FeatureBase.m_base f) (FeatureBase.m_Types f) (FeatureBase.m_Layer f)
    (FeatureBase.m_Name f) (FeatureBase.m_Center f) r
    (FeatureBase.m_bTypesParsed f) (FeatureBase.m_bCommonParsed f)
    (FeatureBase.m_CommonOffset f) (FeatureBase.m_Header2Offset f).

(** [FeatureType::Deserialize] on an object [s]; the two offset arrays are
    not touched, so a new object starts with whatever they held. *)
Definition FeatureType_Deserialize (src : read_source_t) (s : FeatureType)
  : FeatureType :=
  FeatureType.mk _ _
    (FeatureBase_Deserialize (read_source_t.m_data src) (read_source_t.m_offset src)
       (hdr_base (read_source_t.m_header src)) (base s))
    (read_source_t.m_cont src) (read_source_t.m_header src) [] []
    false false false 0 (m_ptsOffsets s) (m_trgOffsets s) 0 0 0 (opened s).

(** The loop of [ReadOffsets]; [mask] is 8 bits wide, so eight rounds
    exhaust it. *)
Fixpoint ReadOffsets_loop (n : nat) (hdr : DataHeader) (src : list Z) (mask : Z)
    (index : nat) (offsets : list Z) : result (list Z * list Z) :=
  match n with
  | O => Ok (src, offsets)
  | S n' =>
      if 0 <? mask then
        ASSERT (bool_decide (index < GetScalesCount hdr)%nat)
               "index < m_header->GetScalesCount()";;
        '(v, src) ← (if negb (Z.land mask 1 =? 0) then ReadVarUint32 src
                     else Ok (kInvalidOffset, src));
        if bool_decide (index < length offsets)%nat
        then ReadOffsets_loop n' hdr src (Z.shiftr mask 1) (S index) (<[index:=v]> offsets)
        else Fail OutOfRange
      else Ok (src, offsets)
  end.

Definition ReadOffsets (hdr : DataHeader) (src : list Z) (mask : Z) (offsets : list Z)
  : result (list Z * list Z) :=
  ASSERT (0 <? mask) "mask > 0";;
  ReadOffsets_loop 8 hdr src (u8 mask) 0 offsets.

(** The loop of [ParseHeader2] collecting the simplification mask. *)
Fixpoint ReadSimpMask_loop (count : nat) (i : Z) (src : list Z) (simpMask : Z)
  : result (Z * list Z) :=
  match count with
  | O => Ok (simpMask, src)
  | S count' =>
      match src with
      | [] => Fail OutOfRange
      | byte :: src' =>
          let mask := u8 byte in
          ReadSimpMask_loop count' (i + 1) src'
            (u32 (simpMask + u32 (Z.shiftl mask (Z.shiftl i 3))))
      end
  end.

(** The loop of [ParseHeader2] unrolling the strip [points] into
    triangles, [i] running from 2 up to [trgCount]. *)
Fixpoint Strip_loop (n i : nat) (points triangles : points_t) : result points_t :=
  match n with
  | O => Ok triangles
  | S n' =>
      match points !! (i - 2)%nat, points !! (i - 1)%nat, points !! i with
      | Some a, Some b, Some c => Strip_loop n' (S i) points (triangles ++ [a; b; c])
      | _, _, _ => Fail OutOfRange
      end
  end.

Definition ParseBase (parse : FeatureBase -> result FeatureBase) (s : FeatureType)
  : result FeatureType :=
  f ← parse (base s); Ok (set_base f s).

Definition ParseHeader2 (s : FeatureType) : result FeatureType :=
  ASSERT (negb (m_bHeader2Parsed s)) "!m_bHeader2Parsed";;
  s ← (if negb (FeatureBase.m_bCommonParsed (base s)) then ParseBase ParseCommon s
       else Ok s);
  let commonH := Header (base s) in
  let bitSource :=
    BitSource_ctor (drop (FeatureBase.m_Header2Offset (base s)) (DataPtr (base s))) in
  '(ptsCount, ptsMask, bitSource) ←
     (if has_flag commonH HEADER_IS_LINE then
        '(ptsCount, bitSource) ← BitSource_Read 4 bitSource;
        if ptsCount =? 0 then
          '(ptsMask, bitSource) ← BitSource_Read 4 bitSource;
          Ok (ptsCount, ptsMask, bitSource)
        else
          ASSERT (1 <? ptsCount) "ptsCount > 1";;
          Ok (ptsCount, 0, bitSource)
      else Ok (0, 0, bitSource));
  '(trgCount, trgMask, bitSource) ←
     (if has_flag commonH HEADER_IS_AREA then
        '(trgCount, bitSource) ← BitSource_Read 4 bitSource;
        if trgCount =? 0 then
          '(trgMask, bitSource) ← BitSource_Read 4 bitSource;
          Ok (trgCount, trgMask, bitSource)
        else Ok (trgCount, 0, bitSource)
      else Ok (0, 0, bitSource));
  let src := fst (BitSource_RoundPtr bitSource) in
  '(s, src) ←
     (if has_flag commonH HEADER_IS_LINE then
        if 0 <? ptsCount then
          let count := Z.quot (ptsCount - 2 + 3) 4 in
          ASSERT (count <? 4) "count < 4";;
          '(simpMask, src) ← ReadSimpMask_loop (Z.to_nat count) 0 src (m_ptsSimpMask s);
          let s := set_ptsSimpMask simpMask s in
          let start := src in
          '(points, src) ← decoded (LoadInnerPath src ptsCount
                                      (FeatureBase.m_base (base s)) (m_Points s));
          let s := set_Points points s in
          Ok (set_stat_Points (Z.of_nat (length start - length src)) s, src)
        else
          '(src, offsets) ← ReadOffsets (m_header s) src ptsMask (m_ptsOffsets s);
          Ok (set_ptsOffsets offsets s, src)
      else Ok (s, src));
  '(s, src) ←
     (if has_flag commonH HEADER_IS_AREA then
        if 0 <? trgCount then
          let trgCount := u8 (trgCount + 2) in
          let start := src in
          '(points, src) ← decoded (LoadInnerTriangles src trgCount
                                      (FeatureBase.m_base (base s)) []);
          let s := set_stat_Strips (Z.of_nat (length start - length src)) s in
          triangles ← Strip_loop (Z.to_nat (trgCount - 2)) 2 points (m_Triangles s);
          Ok (set_Triangles triangles s, src)
        else
          '(src, offsets) ← ReadOffsets (m_header s) src trgMask (m_trgOffsets s);
          Ok (set_trgOffsets offsets s, src)
      else Ok (s, src));
  let s := set_bHeader2Parsed true s in
  Ok (set_stat_Size (Z.of_nat (CalcOffset (base s) src)) s).

(** The loop of [ParseGeometry] over the inner vertices [1 .. count-2]:
    [rest] holds the vertices from index [i] on, the last one included. *)
Fixpoint FilterInner_loop (simpMask scaleIndex : Z) (i : Z) (rest : points_t)
  : points_t :=
  match rest with
  | [] => []
  | [_] => []
  | p :: rest' =>
      (if Z.land (Z.shiftr simpMask (2 * (i - 1))) 3 <=? scaleIndex then [p] else []) ++
      FilterInner_loop simpMask scaleIndex (i + 1) rest'
  end.

Definition ParseGeometry (scale : Z) (s : FeatureType) : result (Z * FeatureType) :=
  ASSERT (negb (m_bPointsParsed s)) "!m_bPointsParsed";;
  s ← (if negb (m_bHeader2Parsed s) then ParseHeader2 s else Ok s);
  let sz := 0 in
  '(sz, s) ←
     (if has_flag (Header (base s)) HEADER_IS_LINE then
        '(sz, s) ←
           (match m_Points s with
            | [] =>
                ind ← GetScaleIndex_offsets (m_header s) scale (m_ptsOffsets s);
                if negb (ind =? -1) then
                  stream ← decoded (GetReader (m_cont s) GEOMETRY_FILE_TAG ind);
                  let s := set_opened (opened s ++ [(GEOMETRY_FILE_TAG, ind)]) s in
                  match m_ptsOffsets s !! Z.to_nat ind with
                  | None => Fail OutOfRange
                  | Some offset =>
                      let src := drop (Z.to_nat offset) stream in
                      '(points, src') ← decoded (LoadOuterPath src
                                           (FeatureBase.m_base (base s)) (m_Points s));
                      Ok (u32 (Z.of_nat (length src - length src')), set_Points points s)
                  end
                else Ok (sz, s)
            | front :: tail =>
                let scaleIndex := u32 (GetScaleIndex (m_header s) scale) in
                ASSERT (scaleIndex <? Z.of_nat (GetScalesCount (m_header s)))
                       "scaleIndex < m_header->GetScalesCount()";;
                let points :=
                  [front] ++
                  FilterInner_loop (m_ptsSimpMask s) scaleIndex 1 tail ++
                  [List.last (m_Points s) front] in
                Ok (sz, set_Points points s)
            end);
        Ok (sz, set_base (set_LimitRect_base
                            (CalcRect (m_Points s) (FeatureBase.m_LimitRect (base s)))
                            (base s)) s)
      else Ok (sz, s));
  Ok (sz, set_bPointsParsed true s).

Definition ParseTriangles (scale : Z) (s : FeatureType) : result (Z * FeatureType) :=
  ASSERT (negb (m_bTrianglesParsed s)) "!m_bTrianglesParsed";;
  s ← (if negb (m_bHeader2Parsed s) then ParseHeader2 s else Ok s);
  let sz := 0 in
  '(sz, s) ←
     (if has_flag (Header (base s)) HEADER_IS_AREA then
        '(sz, s) ←
           (match m_Triangles s with
            | [] =>
                ind ← GetScaleIndex_offsets (m_header s) scale (m_trgOffsets s);
                let ind := u32 ind in
                if negb (ind =? u32 (-1)) then
                  stream ← decoded (GetReader (m_cont s) TRIANGLE_FILE_TAG ind);
                  let s := set_opened (opened s ++ [(TRIANGLE_FILE_TAG, ind)]) s in
                  match m_trgOffsets s !! Z.to_nat ind with
                  | None => Fail OutOfRange
                  | Some offset =>
                      let src := drop (Z.to_nat offset) stream in
                      '(points, src') ← decoded (LoadOuterTriangles src
                                           (FeatureBase.m_base (base s)) (m_Triangles s));
                      Ok (u32 (Z.of_nat (length src - length src')), set_Triangles points s)
                  end
                else Ok (sz, s)
            | _ :: _ => Ok (sz, s)
            end);
        Ok (sz, set_base (set_LimitRect_base
                            (CalcRect (m_Triangles s) (FeatureBase.m_LimitRect (base s)))
                            (base s)) s)
      else Ok (sz, s));
  Ok (sz, set_bTrianglesParsed true s).

Definition ParseAll (scale : Z) (s : FeatureType) : result FeatureType :=
  s ← (if negb (m_bPointsParsed s) then '(_, s) ← ParseGeometry scale s; Ok s
       else Ok s);
  s ← (if negb (m_bTrianglesParsed s) then '(_, s) ← ParseTriangles scale s; Ok s
       else Ok s);
  Ok s.

Definition IsEmptyGeometry (scale : Z) (s : FeatureType) : result (bool * FeatureType) :=
  s ← ParseAll scale s;
  match GetFeatureType (Header (base s)) with
  | FEATURE_TYPE_AREA => Ok (bool_decide (length (m_Triangles s) = 0%nat), s)
  | FEATURE_TYPE_LINE => Ok (bool_decide (length (m_Points s) = 0%nat), s)
  | _ =>
      ASSERT (has_flag (Header (base s)) HEADER_HAS_POINT) "Header() & HEADER_HAS_POINT";;
      Ok (false, s)
  end.

End Reader.

(** ** The feature base of a builder *)

Section BuilderBase.
Context {BM : BuildMode} {G : Geom}.

(** [FeatureBase::SetHeader]: the buffer is cut to one byte, the header. *)
Definition SetHeader (h : Z) (f : FeatureBase) : result FeatureBase :=
  ASSERT (bool_decide (FeatureBase.m_Offset f = 0%nat)) "m_Offset == 0";;
  Ok (FeatureBase.mk _ [h] (FeatureBase.m_Offset f) (FeatureBase.m_base f)
        (FeatureBase.m_Types f) (FeatureBase.m_Layer f) (FeatureBase.m_Name f)
        (FeatureBase.m_Center f) (FeatureBase.m_LimitRect f)
        (FeatureBase.m_bTypesParsed f) (FeatureBase.m_bCommonParsed f)
        (FeatureBase.m_CommonOffset f) (FeatureBase.m_Header2Offset f)).

(** The loop of [GetFeatureBase] storing the builder's types in the slots
    of the fixed array. *)
Fixpoint CopyTypes_loop (src : list Z) (i : nat) (types : list Z) : result (list Z) :=
  match src with
  | [] => Ok types
  | t :: src' =>
      if bool_decide (i < length types)%nat
      then CopyTypes_loop src' (S i) (<[i:=t]> types)
      else Fail OutOfRange
  end.

Definition GetFeatureBase (b : FeatureBuilder1) : result FeatureBase :=
  v ← CheckValid b;
  CHECK v "CheckValid()";;
  f ← SetHeader (GetHeader b) FeatureBase_ctor;
  types ← CopyTypes_loop (m_Types b) 0 (FeatureBase.m_Types f);
  Ok (FeatureBase.mk _ (FeatureBase.m_Data f) (FeatureBase.m_Offset f)
        (FeatureBase.m_base f) types (m_Layer b) (m_Name b)
        (FeatureBase.m_Center f) (m_LimitRect b) true true
        (FeatureBase.m_CommonOffset f) (FeatureBase.m_Header2Offset f)).

(** [feature::IsDrawableForIndex] belongs to feature_visibility.hpp, which
    is not among the sources. *)
Variable IsDrawableForIndex : FeatureBase -> Z -> bool.



End BuilderBase.

(** ** The size and the rectangle of a feature's geometry *)

Section ReaderStats.
Context {BM : BuildMode} {G : Geom} {DC : Decls}.

(** The rectangle [m2::RectD(0, 0, 0, 0)]. *)
Variable zero_rect : RectD.

Definition GetLimitRect (scale : Z) (s : FeatureType) : result (RectD * FeatureType) :=
  s ← ParseAll scale s;
  let s :=
    if bool_decide (length (m_Triangles s) = 0%nat) &&
       bool_decide (length (m_Points s) = 0%nat) &&
       (Z.land (Header (base s)) HEADER_HAS_POINT =? 0)
    then set_base (set_LimitRect_base zero_rect (base s)) s
    else s in
  Ok (FeatureBase.m_LimitRect (base s), s).

(** [geom_stat_t(sz, count)] is the pair of the byte size and the number of
    vertices. *)
Definition GetGeometrySize (scale : Z) (s : FeatureType)
  : result (Z * nat * FeatureType) :=
  '(sz, s) ← ParseGeometry scale s;
  let sz := if (sz =? 0) && negb (bool_decide (length (m_Points s) = 0%nat))
            then stat_Points s else sz in
  Ok (sz, length (m_Points s), s).

Definition GetTrianglesSize (scale : Z) (s : FeatureType)
  : result (Z * nat * FeatureType) :=
  '(sz, s) ← ParseTriangles scale s;
  let sz := if (sz =? 0) && negb (bool_decide (length (m_Triangles s) = 0%nat))
            then stat_Strips s else sz in
  Ok (sz, length (m_Triangles s), s).

End ReaderStats.

(** ** An instance to run the model on *)

(** Coordinates on a small integer grid, with one cell as epsilon, a
    bounding-box region test, and paths stored one byte per coordinate, an
    outer path behind its point count.  The general statements below hold
    for every instance of [Geom] and [Decls]; this one serves to evaluate
    the model on concrete features. *)
Fixpoint grid_load_points (n : nat) (src : list Z) (acc : list (Z * Z))
  : option (list (Z * Z) * list Z) :=
  match n, src with
  | O, _ => Some (acc, src)
  | S n', x :: y :: src' => grid_load_points n' src' (acc ++ [(x, y)])
  | S _, _ => None
  end.

Fixpoint grid_save_points (pts : list (Z * Z)) : list Z :=
  match pts with
  | [] => []
  | p :: pts' => fst p :: snd p :: grid_save_points pts'
  end.

Definition grid_load_counted (src : list Z) (acc : list (Z * Z))
  : option (list (Z * Z) * list Z) :=
  match src with
  | n :: src' => grid_load_points (Z.to_nat n) src' acc
  | [] => None
  end.

Definition grid_bbox_contains (rgn : list (Z * Z)) (p : Z * Z) : bool :=
  existsb (fun q => fst q <=? fst p) rgn && existsb (fun q => fst p <=? fst q) rgn &&
  existsb (fun q => snd q <=? snd p) rgn && existsb (fun q => snd p <=? snd q) rgn.

Definition GridGeom : Geom := {|
  D := Z;
  d_sub := Z.sub;
  d_fabs := Z.abs;
  d_lt := Z.ltb;
  GetCellID2PointAbsEpsilon := 1;
  Point_ctor := (0, 0);
  EqualDxDy := fun p q eps =>
    (Z.abs (fst p - fst q) <? eps) && (Z.abs (snd p - snd q) <? eps);
  RectD := (Z * Z * Z * Z)%type;
  GetEmptyRect := (4096, 4096, -1, -1);
  Rect_Add := fun r p =>
    let '(x0, y0, x1, y1) := r in
    (Z.min x0 (fst p), Z.min y0 (snd p), Z.max x1 (fst p), Z.max y1 (snd p));
  minX := fun r => let '(x0, _, _, _) := r in x0;
  minY := fun r => let '(_, y0, _, _) := r in y0;
  maxX := fun r => let '(_, _, x1, _) := r in x1;
  maxY := fun r => let '(_, _, _, y1) := r in y1;
  Region_Contains := grid_bbox_contains;
  PointD2PointU := fun x y => (x, y);
  PointU2PointD := fun p => p;
  Uint64ToPointU := fun v => (Z.land v 255, Z.shiftr v 8);
  EncodeDelta := fun p b => (fst p - fst b) + 256 * (snd p - snd b);
  DecodeDelta := fun v b => (Z.land v 255 + fst b, Z.shiftr v 8 + snd b);
  SaveOuterPath := fun pts _ => Z.of_nat (length pts) :: grid_save_points pts;
  LoadOuterPath := fun src _ acc => grid_load_counted src acc;
  SaveInnerPath := fun pts _ => grid_save_points pts;
  LoadInnerPath := fun src count _ acc => grid_load_points (Z.to_nat count) src acc;
  SaveInnerTriangles := fun pts _ => grid_save_points pts;
  LoadInnerTriangles := fun src count _ acc => grid_load_points (Z.to_nat count) src acc;
  LoadOuterTriangles := fun src _ acc => grid_load_counted src acc;
  WriteVarUintArray := fun a => concat (map WriteVarUint a)
|}.

(** A container given by its streams, and the kind of a feature read off
    the header with the area flag first. *)
Definition GridDecls : Decls := {|
  FilesContainerR := file_tag -> Z -> option (list Z);
  GetReader := fun c tag ind => c tag ind;
  GetFeatureType := fun h =>
    if has_flag h HEADER_IS_AREA then FEATURE_TYPE_AREA
    else if has_flag h HEADER_IS_LINE then FEATURE_TYPE_LINE
    else FEATURE_TYPE_POINT
|}.

Definition header_5_10 : DataHeader := {| hdr_scales := [5; 10]; hdr_base := 0 |}.

Definition header_4 : DataHeader := {| hdr_scales := [5; 10; 15; 17]; hdr_base := 0 |}.

(** A reader over [data] whose stages up to header2 have run: the feature
    has header byte [h], inline points [pts] with mask [simpMask], and the
    offset arrays [ptsOffsets] and [trgOffsets]. *)
Definition grid_reader_after_header2 (h : Z) (pts trgs : list (Z * Z)) (simpMask : Z)
    (ptsOffsets trgOffsets : list Z) : FeatureType (G := GridGeom) (DC := GridDecls) :=
  FeatureType.mk GridGeom GridDecls
    (FeatureBase.mk GridGeom [h; 1] 0 0 [1; 0; 0; 0; 0; 0; 0] 0 [] (0, 0)
       (4096, 4096, -1, -1) true true 2 2)
    (fun _ _ => None) header_4 pts trgs true false false simpMask
    ptsOffsets trgOffsets 0 0 2 [].

(** A line of two points built through the builder's interface, and the
    buffers of a feature whose line geometry is outer. *)
Definition grid_line : FeatureBuilder1 (G := GridGeom) :=
  SetLinear (AddPoint (G := GridGeom) (1, 1)
    (AddPoint (G := GridGeom) (0, 0) (AddTypes [1] FeatureBuilder1_ctor))).

Definition grid_outer_buffers (ptsMask : Z) (ptsOffset : list Z)
  : buffers_holder_t (G := GridGeom) :=
  buffers_holder_t.mk GridGeom [] [] [] ptsMask 0 0 ptsOffset [].

(** The bytes of a Stage-2 line with three inline points and tag 1 on the
    inner one, and a reader just deserialized over them. *)
Definition inline_line_bytes : list Z := [65; 1; 3; 1; 0; 0; 1; 1; 2; 0].

Definition grid_reader (data : list Z) : FeatureType (G := GridGeom) (DC := GridDecls) :=
  FeatureType_Deserialize
    (read_source_t.mk GridDecls (fun _ _ => None) header_4 data 0)
    (FeatureType.mk GridGeom GridDecls FeatureBase_ctor (fun _ _ => None) header_4 [] []
       false false false 0 [0; 0; 0; 0] [0; 0; 0; 0] 0 0 0 []).

(** A square ring, a ring inside it and a ring far outside. *)
Definition grid_square : list (Z * Z) := [(0, 0); (10, 0); (10, 10); (0, 10); (0, 0)].
Definition grid_hole_inside : list (Z * Z) := [(2, 2); (4, 2); (4, 4); (2, 2)].
Definition grid_hole_outside : list (Z * Z) :=
  [(100, 100); (104, 100); (104, 104); (100, 100)].

Definition grid_area : FeatureBuilder1 (G := GridGeom) :=
  fold_left (fun b p => AddPoint (G := GridGeom) p b) grid_square
    (AddTypes [7] FeatureBuilder1_ctor).

(** * Properties *)

(** ** Outer-geometry scale resolution *)

(** Breakpoint [i] of the header admits [scale]. *)
Definition admits (h : DataHeader) (scale : Z) (i : nat) : Prop :=
  exists s, hdr_scales h !! i = Some s /\ scale <= s.

(** Slot [i] of [offsets] holds a real offset. *)
Definition valid_at (offsets : list Z) (i : nat) : Prop :=
  exists o, offsets !! i = Some o /\ o <> kInvalidOffset.

Definition first_admitting (h : DataHeader) (scale : Z) (i : nat) : Prop :=
  admits h scale i /\ forall j, (j < i)%nat -> ~ admits h scale j.

(** The resolution the specification words: the smallest index that both
    admits the scale and holds an offset. *)
Definition smallest_admitting_valid (h : DataHeader) (scale : Z) (offsets : list Z)
    (i : nat) : Prop :=
  admits h scale i /\ valid_at offsets i /\
  forall j, (j < i)%nat -> ~ (admits h scale j /\ valid_at offsets j).

Definition largest_valid (offsets : list Z) (i : nat) : Prop :=
  valid_at offsets i /\ forall j, (i < j)%nat -> ~ valid_at offsets j.

(** What the two-argument [GetScaleIndex] computes. *)
Definition GetScaleIndex_offsets_spec (h : DataHeader) (scale : Z) (offsets : list Z)
  : Prop :=
  let r := GetScaleIndex_offsets h scale offsets in
  (scale <> -1 ->
     (exists i, first_admitting h scale i /\ valid_at offsets i /\ r = Ok (Z.of_nat i)) \/
     (exists i, first_admitting h scale i /\ ~ valid_at offsets i /\ r = Ok (-1)) \/
     ((forall i, ~ admits h scale i) /\ r = Ok (-1))) /\
  (scale = -1 ->
     (exists i, largest_valid offsets i /\ r = Ok (Z.of_nat i)) \/
     ((forall i, ~ valid_at offsets i) /\
      r = Fail (CheckFailed "Feature should have any geometry ..."))).

Lemma offsets_for_spec scale offsets rest : forall pre,
  (length (pre ++ rest) <= length offsets)%nat ->
  Forall (fun s => s < scale) pre ->
  let h := {| hdr_scales := pre ++ rest; hdr_base := 0 |} in
  let r := offsets_for scale offsets (length pre) rest in
  (exists i, first_admitting h scale i /\ valid_at offsets i /\ r = Ok (Z.of_nat i)) \/
  (exists i, first_admitting h scale i /\ ~ valid_at offsets i /\ r = Ok (-1)) \/
  ((forall i, ~ admits h scale i) /\ r = Ok (-1)).
Proof.
  induction rest as [|s rest IH]; intros pre Hlen Hpre; simpl.
  - right; right. split; [|reflexivity].
    intros i (s & Hs & Hle). simpl in Hs. rewrite app_nil_r in Hs.
    rewrite Forall_forall in Hpre.
    apply list_elem_of_lookup_2, Hpre in Hs. lia.
  - destruct (Z.leb_spec scale s) as [Hle|Hgt].
    + assert (Hfirst : first_admitting {| hdr_scales := pre ++ s :: rest; hdr_base := 0 |}
                         scale (length pre)).
      { split.
        - exists s. simpl. split; [|assumption].
          rewrite lookup_app_r by lia. now rewrite Nat.sub_diag.
        - intros j Hj (s' & Hs' & Hle'). simpl in Hs'.
          rewrite lookup_app_l in Hs' by assumption.
          rewrite Forall_forall in Hpre.
          apply list_elem_of_lookup_2, Hpre in Hs'. lia. }
      destruct (offsets !! length pre) as [o|] eqn:Ho.
      * destruct (Z.eqb_spec o kInvalidOffset) as [->|Hne].
        -- right; left. exists (length pre). split; [assumption|]. split; [|reflexivity].
           intros (o' & Ho' & Hne'). congruence.
        -- left. exists (length pre). split; [assumption|]. split; [|reflexivity].
           exists o. auto.
      * apply lookup_ge_None in Ho. rewrite length_app in Hlen. simpl in Hlen. lia.
    + specialize (IH (pre ++ [s])).
      rewrite <- app_assoc in IH. simpl in IH.
      replace (length (pre ++ [s])) with (S (length pre)) in IH
        by (rewrite length_app; simpl; lia).
      apply IH; [assumption|].
      apply Forall_app. split; [assumption|]. constructor; [lia|constructor].
Qed.

Lemma offsets_while_spec offsets : forall n, (n <= length offsets)%nat ->
  (exists k, (k < n)%nat /\ valid_at offsets k /\
             (forall j, (k < j < n)%nat -> ~ valid_at offsets j) /\
             offsets_while offsets n = Ok (Z.of_nat k)) \/
  ((forall j, (j < n)%nat -> ~ valid_at offsets j) /\ offsets_while offsets n = Ok (-1)).
Proof.
  induction n as [|k IH]; intros Hn; simpl.
  - right. split; [|reflexivity]. intros j Hj. lia.
  - destruct (offsets !! k) as [o|] eqn:Ho.
    + destruct (Z.eqb_spec o kInvalidOffset) as [->|Hne].
      * assert (Hk : ~ valid_at offsets k).
        { intros (o' & Ho' & Hne'). congruence. }
        destruct IH as [(i & Hi & Hv & Hall & Hr)|(Hall & Hr)]; [lia| |].
        -- left. exists i. split; [lia|]. split; [assumption|]. split; [|assumption].
           intros j Hj. destruct (decide (j = k)) as [->|]; [assumption|].
           apply Hall. lia.
        -- right. split; [|assumption].
           intros j Hj. destruct (decide (j = k)) as [->|]; [assumption|].
           apply Hall. lia.
      * left. exists k. split; [lia|]. split; [exists o; auto|].
        split; [|reflexivity]. intros j Hj. lia.
    + apply lookup_ge_None in Ho. lia.
Qed.

(** C2 (as amended).  For a scale other than -1 the first breakpoint that
    admits the scale decides alone: [GetScaleIndex(scale, offsets)] returns
    its index when the offset stored there is valid and -1 when it is
    INVALID (later indices are not tried) or when no breakpoint admits the
    scale.  For scale -1 it returns the largest index whose offset is valid,
    and trips its CHECK when no offset is valid. *)
Theorem GetScaleIndex_offsets_correct (h : DataHeader) (scale : Z) (offsets : list Z) :
  (GetScalesCount h <= length offsets)%nat ->
  GetScaleIndex_offsets_spec h scale offsets.
Proof.
  intros Hlen. unfold GetScaleIndex_offsets_spec, GetScaleIndex_offsets. split.
  - intros Hne. destruct (Z.eqb_spec scale (-1)) as [|_]; [contradiction|].
    destruct h as [scales b]. unfold GetScalesCount in Hlen. simpl in *.
    pose proof (offsets_for_spec scale offsets scales [] Hlen (Forall_nil_2 _)) as Hs.
    simpl in Hs.
    assert (Hadm : forall i, admits {| hdr_scales := scales; hdr_base := 0 |} scale i <->
                             admits {| hdr_scales := scales; hdr_base := b |} scale i)
      by (intros i; reflexivity).
    exact Hs.
  - intros ->. simpl.
    destruct (offsets_while_spec offsets (length offsets) (le_n _))
      as [(k & Hk & Hv & Hall & Hr)|(Hall & Hr)]; rewrite Hr; simpl.
    + left. exists k. split.
      * split; [assumption|]. intros j Hj Hvj.
        destruct (decide (j < length offsets)%nat) as [Hlt|Hge].
        -- apply (Hall j); [lia|assumption].
        -- destruct Hvj as (o & Ho & _). apply lookup_lt_Some in Ho. lia.
      * destruct (Z.leb_spec 0 (Z.of_nat k)); [reflexivity|lia].
    + right. split; [|reflexivity].
      intros i Hv. destruct (decide (i < length offsets)%nat) as [Hlt|Hge].
      * apply (Hall i); assumption.
      * destruct Hv as (o & Ho & _). apply lookup_lt_Some in Ho. lia.
Qed.

Lemma GetScaleIndex_offsets_correct_witness :
  (GetScalesCount header_5_10 <= length [700; 500])%nat /\
  GetScaleIndex_offsets_spec header_5_10 3 [700; 500].
Proof.
  split; [cbv; lia|].
  apply (GetScaleIndex_offsets_correct header_5_10 3 [700; 500]). cbv. lia.
Defined.

(** C2 (as stated) fails: with breakpoints 5 and 10, scale 3 and offsets
    [INVALID; 500], index 1 is the smallest index that admits the scale and
    holds an offset, yet the loop breaks at index 0 and the call returns -1. *)
Lemma GetScaleIndex_offsets_not_smallest_valid :
  smallest_admitting_valid header_5_10 3 [kInvalidOffset; 500] 1 /\
  GetScaleIndex_offsets header_5_10 3 [kInvalidOffset; 500] = Ok (-1) /\
  GetScaleIndex_offsets header_5_10 3 [kInvalidOffset; 500] <> Ok 1.
Proof.
  split; [|split; [reflexivity|discriminate]].
  split; [exists 10; split; [reflexivity|lia]|].
  split; [exists 500; split; [reflexivity|discriminate]|].
  intros j Hj [_ (o & Ho & Hne)].
  assert (j = 0%nat) as -> by lia. simpl in Ho. congruence.
Qed.

(** ** AssignType_SetDifference *)

Lemma set_difference_nil_r l1 : set_difference l1 [] = l1.
Proof. destruct l1; reflexivity. Qed.

Lemma set_difference_cons x1 l1 x2 l2 :
  set_difference (x1 :: l1) (x2 :: l2) =
    if x1 <? x2 then x1 :: set_difference l1 (x2 :: l2)
    else if x2 <? x1 then set_difference (x1 :: l1) l2
    else set_difference l1 l2.
Proof. reflexivity. Qed.

Lemma set_difference_elem_of l1 : forall l2 x,
  x ∈ set_difference l1 l2 -> x ∈ l1.
Proof.
  induction l1 as [|x1 l1 IH]; intros l2 x; [simpl; destruct l2; auto|].
  induction l2 as [|x2 l2 IH2]; [rewrite set_difference_nil_r; auto|].
  rewrite set_difference_cons.
  destruct (x1 <? x2); [|destruct (x2 <? x1)].
  - rewrite !elem_of_cons. intros [->|Hin]; eauto.
  - exact IH2.
  - intros Hin. apply elem_of_cons. right. eauto.
Qed.

Lemma set_difference_sorted l1 : forall l2,
  StronglySorted Z.le l1 -> StronglySorted Z.le (set_difference l1 l2).
Proof.
  induction l1 as [|x1 l1 IH]; intros l2 Hs; [simpl; destruct l2; constructor|].
  induction l2 as [|x2 l2 IH2]; [rewrite set_difference_nil_r; assumption|].
  rewrite set_difference_cons.
  apply StronglySorted_cons in Hs as [Hall Hs].
  destruct (x1 <? x2); [|destruct (x2 <? x1)]; [|assumption|auto].
  apply StronglySorted_cons. split; [|auto].
  rewrite Forall_forall in Hall |- *.
  intros x Hx. apply Hall. eapply set_difference_elem_of, Hx.
Qed.

Lemma count_occ_below x y l :
  x < y -> StronglySorted Z.le (y :: l) -> count_occ Z.eq_dec (y :: l) x = 0%nat.
Proof.
  intros Hlt Hs. apply count_occ_not_In. intros Hin.
  apply StronglySorted_cons in Hs as [Hall _].
  destruct Hin as [->|Hin]; [lia|].
  rewrite Forall_forall in Hall. apply list_elem_of_In, Hall in Hin. lia.
Qed.

(** A value occurring [m] times in the first range and [n] times in the
    second is copied [m - n] times (none when [n] exceeds [m]). *)
Lemma set_difference_count l1 : forall l2 x,
  StronglySorted Z.le l1 -> StronglySorted Z.le l2 ->
  count_occ Z.eq_dec (set_difference l1 l2) x =
    (count_occ Z.eq_dec l1 x - count_occ Z.eq_dec l2 x)%nat.
Proof.
  induction l1 as [|x1 l1 IH]; intros l2 x Hs1 Hs2; [simpl; destruct l2; reflexivity|].
  induction l2 as [|x2 l2 IH2]; [rewrite set_difference_nil_r; simpl; lia|].
  rewrite set_difference_cons.
  pose proof Hs1 as Hs1'. pose proof Hs2 as Hs2'.
  apply StronglySorted_cons in Hs1' as [Hall1 Hs1'].
  apply StronglySorted_cons in Hs2' as [Hall2 Hs2'].
  destruct (Z.ltb_spec x1 x2) as [Hlt|Hge]; [|destruct (Z.ltb_spec x2 x1) as [Hlt|Hge']].
  - destruct (Z.eq_dec x1 x) as [->|Hne].
    + rewrite !(count_occ_cons_eq Z.eq_dec _ eq_refl), (IH (x2 :: l2) x Hs1' Hs2).
      rewrite (count_occ_below x x2 l2 Hlt Hs2). lia.
    + rewrite !(count_occ_cons_neq Z.eq_dec _ Hne). apply IH; assumption.
  - rewrite (IH2 Hs2').
    destruct (Z.eq_dec x2 x) as [->|Hne].
    + rewrite (count_occ_below x x1 l1 Hlt Hs1). reflexivity.
    + now rewrite (count_occ_cons_neq Z.eq_dec l2 Hne).
  - assert (x1 = x2) as -> by lia.
    rewrite (IH l2 x Hs1' Hs2').
    destruct (Z.eq_dec x2 x) as [->|Hne].
    + rewrite !(count_occ_cons_eq Z.eq_dec _ eq_refl). lia.
    + now rewrite !(count_occ_cons_neq Z.eq_dec _ Hne).
Qed.

Lemma filter_agree (P Q : Z -> Prop) `{forall x, Decision (P x)} `{forall x, Decision (Q x)}
    (l : list Z) :
  (forall x, x ∈ l -> (P x <-> Q x)) -> filter P l = filter Q l.
Proof.
  induction l as [|a l IH]; intros Hpq; [reflexivity|].
  rewrite !filter_cons.
  assert (Ha : P a <-> Q a) by (apply Hpq; left).
  rewrite IH by (intros x Hx; apply Hpq; right; exact Hx).
  destruct (decide (P a)), (decide (Q a)); tauto || reflexivity.
Qed.

Lemma filter_not_elem_of_nil (l : list Z) : filter (fun x => x ∉ @nil Z) l = l.
Proof.
  induction l as [|a l IH]; [reflexivity|].
  rewrite filter_cons_True by apply not_elem_of_nil. now rewrite IH.
Qed.

(** On a duplicate-free first range the copy is a filter. *)
Lemma set_difference_filter l1 : forall l2,
  StronglySorted Z.lt l1 -> StronglySorted Z.le l2 ->
  set_difference l1 l2 = filter (fun x => x ∉ l2) l1.
Proof.
  induction l1 as [|x1 l1 IH]; intros l2 Hs1 Hs2; [simpl; destruct l2; reflexivity|].
  induction l2 as [|x2 l2 IH2].
  - rewrite set_difference_nil_r. symmetry. apply filter_not_elem_of_nil.
  - rewrite set_difference_cons.
    pose proof Hs1 as Hs1'. pose proof Hs2 as Hs2'.
    apply StronglySorted_cons in Hs1' as [Hall1 Hs1'].
    apply StronglySorted_cons in Hs2' as [Hall2 Hs2'].
    rewrite Forall_forall in Hall1, Hall2.
    destruct (Z.ltb_spec x1 x2) as [Hlt|Hge]; [|destruct (Z.ltb_spec x2 x1) as [Hlt|Hge']].
    + rewrite filter_cons_True.
      * now rewrite (IH (x2 :: l2) Hs1' Hs2).
      * rewrite elem_of_cons. intros [->|Hin]; [lia|]. apply Hall2 in Hin. lia.
    + rewrite (IH2 Hs2'). apply filter_agree.
      intros x Hx. rewrite (elem_of_cons l2).
      assert (x2 < x).
      { apply elem_of_cons in Hx as [->|Hx]; [assumption|]. apply Hall1 in Hx. lia. }
      split; [intros Hn [->|Hin]; [lia|auto]|intros Hn Hin; apply Hn; right; exact Hin].
    + assert (x1 = x2) as -> by lia.
      rewrite filter_cons_False by (intros Hn; apply Hn; left).
      rewrite (IH l2 Hs1' Hs2'). apply filter_agree.
      intros x Hx. rewrite (elem_of_cons l2).
      assert (x2 < x) by (apply Hall1; exact Hx).
      split; [intros Hn [->|Hin]; [lia|auto]|intros Hn Hin; apply Hn; right; exact Hin].
Qed.

Lemma sort_sorted l : StronglySorted Z.le (sort l).
Proof. apply StronglySorted_merge_sort; typeclasses eauto. Qed.

Lemma sort_count l x : count_occ Z.eq_dec (sort l) x = count_occ Z.eq_dec l x.
Proof.
  apply (Permutation_count_occ Z.eq_dec). apply merge_sort_Permutation.
Qed.

Lemma sorted_NoDup_lt l : StronglySorted Z.le l -> NoDup l -> StronglySorted Z.lt l.
Proof.
  induction 1 as [|a l Hs IH Hall]; intros Hnd; [constructor|].
  apply NoDup_cons in Hnd as [Hnotin Hnd].
  constructor; [auto|].
  rewrite Forall_forall in Hall |- *. intros x Hx.
  specialize (Hall x Hx). assert (x <> a) by (intros ->; auto). lia.
Qed.

(** C10 (as amended).  For a removal list in ascending order,
    [AssignType_SetDifference] replaces the stored types by the difference of
    the sorted old list and the removal list as [std::set_difference] forms
    it: a value stored [m] times and listed [n] times for removal stays
    [m - n] times (not at all when [n >= m]).  When the stored types hold no
    duplicate these are exactly the elements of the sorted old list that are
    not in the removal list.  The stored types end in ascending order, the
    other fields are untouched, and the call returns [true] if and only if
    at least one type remains. *)
Theorem AssignType_SetDifference_correct {G : Geom} (diffTypes : list Z)
    (b : FeatureBuilder1) :
  StronglySorted Z.le diffTypes ->
  let r := fst (AssignType_SetDifference diffTypes b) in
  let b' := snd (AssignType_SetDifference diffTypes b) in
  StronglySorted Z.le (m_Types b') /\
  (forall t, count_occ Z.eq_dec (m_Types b') t =
             (count_occ Z.eq_dec (m_Types b) t - count_occ Z.eq_dec diffTypes t)%nat) /\
  (NoDup (m_Types b) ->
   m_Types b' = filter (fun t => t ∉ diffTypes) (sort (m_Types b))) /\
  (r = true <-> m_Types b' <> []) /\
  b' = set_Types (m_Types b') b.
Proof.
  intros Hd. cbn -[sort set_difference].
  split; [apply set_difference_sorted, sort_sorted|].
  split; [intros t; rewrite set_difference_count by (apply sort_sorted || assumption);
          now rewrite sort_count|].
  split.
  { intros Hnd. apply set_difference_filter; [|assumption].
    apply sorted_NoDup_lt; [apply sort_sorted|].
    unfold sort. now rewrite merge_sort_Permutation. }
  split; [|reflexivity].
  destruct (set_difference (sort (m_Types b)) diffTypes); simpl.
  - split; [discriminate|congruence].
  - split; [discriminate|reflexivity].
Qed.

Lemma AssignType_SetDifference_correct_witness :
  StronglySorted Z.le [2; 7] /\
  fst (AssignType_SetDifference (G := GridGeom) [2; 7]
         (AddTypes [9; 7; 1] FeatureBuilder1_ctor)) = true /\
  m_Types (snd (AssignType_SetDifference (G := GridGeom) [2; 7]
                  (AddTypes [9; 7; 1] FeatureBuilder1_ctor))) = [1; 9].
Proof.
  assert (Hd : StronglySorted Z.le [2; 7]).
  { repeat constructor; lia. }
  split; [exact Hd|].
  pose proof (AssignType_SetDifference_correct (G := GridGeom) [2; 7]
                (AddTypes [9; 7; 1] FeatureBuilder1_ctor) Hd) as (_ & _ & _ & Hr & _).
  split; [apply Hr; discriminate|reflexivity].
Defined.

(** C10 (as stated) fails on a type stored twice: removing [5] from the
    stored types [5; 5] leaves [5], a type that is in the removal list,
    where the elements not in the removal list are none. *)
Lemma AssignType_SetDifference_keeps_listed_type :
  let b := AddTypes (G := GridGeom) [5; 5] FeatureBuilder1_ctor in
  m_Types (snd (AssignType_SetDifference [5] b)) = [5] /\
  filter (fun t => t ∉ [5]) (sort (m_Types b)) = [] /\
  m_Types (snd (AssignType_SetDifference [5] b)) <>
    filter (fun t => t ∉ [5]) (sort (m_Types b)).
Proof.
  split; [reflexivity|]. split; [reflexivity|discriminate].
Qed.

(** ** The inline simplification filter *)

Lemma ASSERT_true {BM : BuildMode} expr : ASSERT true expr = Ok tt.
Proof. unfold ASSERT. now destruct DEBUG. Qed.

Lemma ASSERT_release c expr : ASSERT (BM := false) c expr = Ok tt.
Proof. reflexivity. Qed.

(** The two-bit tag of vertex [i] in the simplification mask. *)
Definition simp_tag (simpMask : Z) (i : nat) : Z :=
  Z.land (Z.shiftr simpMask (2 * (Z.of_nat i - 1))) 3.

(** Vertex [i] of [N] survives at scale index [scaleIndex]. *)
Definition kept (simpMask scaleIndex : Z) (N i : nat) : Prop :=
  i = 0%nat \/ i = (N - 1)%nat \/ simp_tag simpMask i <= scaleIndex.

Global Instance kept_dec simpMask scaleIndex N i : Decision (kept simpMask scaleIndex N i).
Proof. unfold kept. apply _. Defined.

(** The vertices of [pts] that survive, in their order. *)
Definition kept_points {G : Geom} (simpMask scaleIndex : Z) (pts : points_t) (d : PointD)
  : points_t :=
  (fun i => nth i pts d) <$> filter (kept simpMask scaleIndex (length pts)) (seq 0 (length pts)).

Lemma fmap_agree {A B} (f g : A -> B) (l : list A) :
  (forall x, x ∈ l -> f x = g x) -> f <$> l = g <$> l.
Proof.
  induction l as [|a l IH]; intros Hfg; [reflexivity|].
  rewrite !fmap_cons. f_equal; [apply Hfg; left|].
  apply IH. intros x Hx. apply Hfg. now right.
Qed.

Lemma filter_agree_nat (P Q : nat -> Prop) `{forall x, Decision (P x)}
    `{forall x, Decision (Q x)} (l : list nat) :
  (forall x, x ∈ l -> (P x <-> Q x)) -> filter P l = filter Q l.
Proof.
  induction l as [|a l IH]; intros Hpq; [reflexivity|].
  rewrite !filter_cons.
  assert (Ha : P a <-> Q a) by (apply Hpq; left).
  rewrite IH by (intros x Hx; apply Hpq; right; exact Hx).
  destruct (decide (P a)), (decide (Q a)); tauto || reflexivity.
Qed.

Lemma elem_of_seq_iff (i start len : nat) :
  i ∈ seq start len <-> (start <= i < start + len)%nat.
Proof. rewrite list_elem_of_In, in_seq. reflexivity. Qed.

Lemma FilterInner_loop_spec {G : Geom} simpMask scaleIndex (d : PointD) :
  forall (rest : points_t) (i : nat),
  FilterInner_loop simpMask scaleIndex (Z.of_nat i) rest =
    (fun j => nth (j - i) rest d) <$>
      filter (fun j => simp_tag simpMask j <= scaleIndex) (seq i (length rest - 1)).
Proof.
  induction rest as [|p rest IH]; intros i; [reflexivity|].
  destruct rest as [|q rest]; [reflexivity|].
  change (FilterInner_loop simpMask scaleIndex (Z.of_nat i) (p :: q :: rest))
    with ((if Z.land (Z.shiftr simpMask (2 * (Z.of_nat i - 1))) 3 <=? scaleIndex
           then [p] else []) ++
          FilterInner_loop simpMask scaleIndex (Z.of_nat i + 1) (q :: rest)).
  replace (Z.of_nat i + 1) with (Z.of_nat (S i)) by lia.
  rewrite IH.
  replace (length (p :: q :: rest) - 1)%nat with (S (length (q :: rest) - 1))
    by (simpl; lia).
  cbn [seq]. rewrite filter_cons. fold (simp_tag simpMask i).
  assert (Htail :
    (fun j => nth (j - S i) (q :: rest) d) <$>
      filter (fun j => simp_tag simpMask j <= scaleIndex) (seq (S i) (length (q :: rest) - 1)) =
    (fun j => nth (j - i) (p :: q :: rest) d) <$>
      filter (fun j => simp_tag simpMask j <= scaleIndex) (seq (S i) (length (q :: rest) - 1))).
  { apply fmap_agree. intros j Hj.
    apply list_elem_of_filter in Hj as [_ Hj]. apply elem_of_seq_iff in Hj.
    replace (j - i)%nat with (S (j - S i)) by lia. reflexivity. }
  rewrite Htail.
  destruct (Z.leb_spec (simp_tag simpMask i) scaleIndex) as [Hle|Hgt].
  - rewrite decide_True by assumption. rewrite fmap_cons, Nat.sub_diag. reflexivity.
  - rewrite decide_False by lia. reflexivity.
Qed.

(** The list [ParseGeometry] builds on its inline branch is the list of
    surviving vertices. *)
Lemma inline_filter_kept_points {G : Geom} simpMask scaleIndex (front : PointD)
    (tail : points_t) :
  (1 <= length tail)%nat ->
  [front] ++ FilterInner_loop simpMask scaleIndex 1 tail ++
    [List.last (front :: tail) front] =
  kept_points simpMask scaleIndex (front :: tail) front.
Proof.
  intros Hlen. unfold kept_points.
  set (N := length (front :: tail)).
  assert (HN : N = S (length tail)) by reflexivity.
  replace (seq 0 N) with (0%nat :: seq 1 (length tail - 1) ++ [(N - 1)%nat]).
  2:{ rewrite HN. cbn [seq]. f_equal.
      replace (length tail) with ((length tail - 1) + 1)%nat at 3 by lia.
      rewrite seq_app. simpl. do 2 f_equal. lia. }
  rewrite filter_cons_True by (left; reflexivity).
  rewrite filter_app, fmap_cons, fmap_app.
  rewrite (filter_cons_True _ (N - 1)%nat) by (right; left; reflexivity).
  rewrite filter_nil. cbn [fmap list_fmap nth app].
  f_equal. f_equal.
  - change 1 with (Z.of_nat 1).
    rewrite (FilterInner_loop_spec simpMask scaleIndex front tail 1).
    rewrite (filter_agree_nat (kept simpMask scaleIndex N)
               (fun j => simp_tag simpMask j <= scaleIndex)).
    + apply fmap_agree. intros j Hj.
      apply list_elem_of_filter in Hj as [_ Hj]. apply elem_of_seq_iff in Hj.
      replace j with (S (j - 1)) at 2 by lia. reflexivity.
    + intros j Hj. apply elem_of_seq_iff in Hj. unfold kept.
      split; [intros [?|[?|?]]; [lia|lia|assumption]|auto].
  - f_equal. rewrite HN. replace (S (length tail) - 1)%nat with (length tail) by lia.
    destruct tail as [|q tail]; [simpl in Hlen; lia|].
    change (List.last (front :: q :: tail) front) with (List.last (q :: tail) front).
    cbn [nth]. clear. revert q. induction tail as [|r tail IH]; intros q; [reflexivity|].
    change (List.last (q :: r :: tail) front) with (List.last (r :: tail) front).
    rewrite IH. reflexivity.
Qed.

Section InlineFilter.
Context {BM : BuildMode} {G : Geom} {DC : Decls}.

(** The run of [ParseGeometry] on its inline branch: the front vertex, the
    inner vertices the loop lets through, the back vertex. *)
Lemma ParseGeometry_inline_eval (scale : Z) (s : FeatureType) (front : PointD)
    (tail : points_t) :
  m_bPointsParsed s = false ->
  m_bHeader2Parsed s = true ->
  has_flag (Header (base s)) HEADER_IS_LINE = true ->
  m_Points s = front :: tail ->
  0 <= GetScaleIndex (m_header s) scale < Z.of_nat (GetScalesCount (m_header s)) ->
  GetScaleIndex (m_header s) scale < 2 ^ 31 ->
  exists s',
    ParseGeometry scale s = Ok (0, s') /\
    m_Points s' =
      [front] ++
      FilterInner_loop (m_ptsSimpMask s) (GetScaleIndex (m_header s) scale) 1 tail ++
      [List.last (front :: tail) front] /\
    m_bPointsParsed s' = true /\
    opened s' = opened s.
Proof.
  intros Hpp Hh2 Hline Hpts Hsi Hint.
  unfold ParseGeometry. rewrite Hpp, Hh2. cbn [negb].
  rewrite ASSERT_true. cbn [mbind result_bind]. rewrite Hline, Hpts.
  assert (Hu : u32 (GetScaleIndex (m_header s) scale) = GetScaleIndex (m_header s) scale).
  { unfold u32. apply Z.mod_small. lia. }
  rewrite Hu.
  replace (GetScaleIndex (m_header s) scale <? Z.of_nat (GetScalesCount (m_header s)))
    with true by (symmetry; apply Z.ltb_lt; lia).
  rewrite ASSERT_true. cbn [mbind result_bind].
  eexists. split; [reflexivity|].
  cbn [m_Points set_bPointsParsed set_base set_Points m_bPointsParsed opened].
  split; [reflexivity|split; reflexivity].
Qed.

(** C3.  On an inline-encoded line of [N >= 2] decoded points, at a scale
    that resolves to a scale index of the header, [ParseGeometry] succeeds
    and leaves exactly the surviving vertices in their order: vertex 0 and
    vertex [N-1] always, and an intermediate vertex [i] if and only if
    [((m_ptsSimpMask >> 2*(i-1)) & 3) <= scale_index]. *)
Theorem ParseGeometry_inline_filter (scale : Z) (s : FeatureType) (front : PointD)
    (tail : points_t) :
  m_bPointsParsed s = false ->
  m_bHeader2Parsed s = true ->
  has_flag (Header (base s)) HEADER_IS_LINE = true ->
  m_Points s = front :: tail ->
  (1 <= length tail)%nat ->
  0 <= GetScaleIndex (m_header s) scale < Z.of_nat (GetScalesCount (m_header s)) ->
  GetScaleIndex (m_header s) scale < 2 ^ 31 ->
  exists s',
    ParseGeometry scale s = Ok (0, s') /\
    m_Points s' = kept_points (m_ptsSimpMask s) (GetScaleIndex (m_header s) scale)
                    (front :: tail) front /\
    (forall i, (i < length (front :: tail))%nat ->
       kept (m_ptsSimpMask s) (GetScaleIndex (m_header s) scale)
            (length (front :: tail)) i ->
       nth i (front :: tail) front ∈ m_Points s') /\
    m_bPointsParsed s' = true /\
    opened s' = opened s.
Proof.
  intros Hpp Hh2 Hline Hpts Hlen Hsi Hint.
  destruct (ParseGeometry_inline_eval scale s front tail Hpp Hh2 Hline Hpts Hsi Hint)
    as (s' & Hrun & Hp & Hflag & Hop).
  exists s'. split; [exact Hrun|].
  assert (Hkept : m_Points s' =
                  kept_points (m_ptsSimpMask s) (GetScaleIndex (m_header s) scale)
                    (front :: tail) front).
  { rewrite Hp. now apply inline_filter_kept_points. }
  split; [exact Hkept|]. split; [|split; assumption].
  intros i Hi Hk. rewrite Hkept. unfold kept_points.
  apply list_elem_of_fmap. exists i. split; [reflexivity|].
  apply list_elem_of_filter. split; [exact Hk|].
  apply elem_of_seq_iff. lia.
Qed.

(** A vertex that survives at one scale index survives at the next. *)
Lemma kept_mono simpMask scaleIndex N i :
  kept simpMask scaleIndex N i -> kept simpMask (scaleIndex + 1) N i.
Proof. unfold kept. intros [?|[?|?]]; [auto|auto|right; right; lia]. Qed.

Lemma filter_sublist_impl (P Q : nat -> Prop) `{forall x, Decision (P x)}
    `{forall x, Decision (Q x)} (l : list nat) :
  (forall x, P x -> Q x) -> sublist (filter P l) (filter Q l).
Proof.
  intros Hpq. induction l as [|a l IH]; [constructor|].
  rewrite !filter_cons. destruct (decide (P a)) as [Hp|Hn].
  - rewrite decide_True by auto. now constructor.
  - destruct (decide (Q a)); [now constructor|assumption].
Qed.

Lemma kept_points_sublist simpMask scaleIndex (pts : points_t) d :
  sublist (kept_points simpMask scaleIndex pts d)
          (kept_points simpMask (scaleIndex + 1) pts d).
Proof.
  unfold kept_points. apply fmap_sublist, filter_sublist_impl.
  intros i. apply kept_mono.
Qed.

(** C4.  For an inline-encoded line and two scales that resolve to the
    scale indices [si] and [si + 1], the vertices [ParseGeometry] keeps at
    [si] are among those it keeps at [si + 1]: index by index, and as a
    subsequence of the resulting point list. *)
Theorem ParseGeometry_inline_monotone (scale scale' : Z) (s : FeatureType)
    (front : PointD) (tail : points_t) :
  m_bPointsParsed s = false ->
  m_bHeader2Parsed s = true ->
  has_flag (Header (base s)) HEADER_IS_LINE = true ->
  m_Points s = front :: tail ->
  (1 <= length tail)%nat ->
  0 <= GetScaleIndex (m_header s) scale ->
  GetScaleIndex (m_header s) scale' = GetScaleIndex (m_header s) scale + 1 ->
  GetScaleIndex (m_header s) scale' < Z.of_nat (GetScalesCount (m_header s)) ->
  GetScaleIndex (m_header s) scale' < 2 ^ 31 ->
  exists s1 s2,
    ParseGeometry scale s = Ok (0, s1) /\
    ParseGeometry scale' s = Ok (0, s2) /\
    sublist (m_Points s1) (m_Points s2) /\
    forall i, kept (m_ptsSimpMask s) (GetScaleIndex (m_header s) scale)
                   (length (m_Points s)) i ->
              kept (m_ptsSimpMask s) (GetScaleIndex (m_header s) scale')
                   (length (m_Points s)) i.
Proof.
  intros Hpp Hh2 Hline Hpts Hlen Hsi Hnext Hcount Hint.
  destruct (ParseGeometry_inline_eval scale s front tail) as (s1 & Hr1 & Hp1 & _);
    try assumption; [lia|lia|].
  destruct (ParseGeometry_inline_eval scale' s front tail) as (s2 & Hr2 & Hp2 & _);
    try assumption; [lia|].
  exists s1, s2. split; [assumption|]. split; [assumption|].
  split.
  - rewrite Hp1, Hp2, !inline_filter_kept_points, Hnext by assumption.
    apply kept_points_sublist.
  - intros i. rewrite Hnext. apply kept_mono.
Qed.

End InlineFilter.

(** Five inline vertices with the tags 3, 2 and 1 on the inner ones. *)
Definition inline_line_5 : FeatureType (G := GridGeom) (DC := GridDecls) :=
  grid_reader_after_header2 65 [(0, 0); (1, 1); (2, 0); (3, 1); (4, 0)] [] 27 [] [].

Lemma ParseGeometry_inline_filter_witness :
  exists s',
    ParseGeometry (BM := true) 12 inline_line_5 = Ok (0, s') /\
    m_Points s' = [(0, 0); (2, 0); (3, 1); (4, 0)].
Proof.
  destruct (ParseGeometry_inline_filter (BM := true) 12 inline_line_5 (0, 0)
              [(1, 1); (2, 0); (3, 1); (4, 0)])
    as (s' & Hr & Hp & _);
    [reflexivity|reflexivity|reflexivity|reflexivity|simpl; lia|vm_compute; split; congruence
    |vm_compute; reflexivity|].
  exists s'. split; [exact Hr|]. rewrite Hp. reflexivity.
Defined.

Lemma ParseGeometry_inline_monotone_witness :
  exists s1 s2,
    ParseGeometry (BM := true) 7 inline_line_5 = Ok (0, s1) /\
    ParseGeometry (BM := true) 12 inline_line_5 = Ok (0, s2) /\
    sublist (m_Points s1) (m_Points s2).
Proof.
  destruct (ParseGeometry_inline_monotone (BM := true) 7 12 inline_line_5 (0, 0)
              [(1, 1); (2, 0); (3, 1); (4, 0)])
    as (s1 & s2 & Hr1 & Hr2 & Hsub & _);
    [reflexivity|reflexivity|reflexivity|reflexivity|simpl; lia|vm_compute; congruence
    |reflexivity|vm_compute; reflexivity|vm_compute; reflexivity|].
  exists s1, s2. auto.
Defined.

(** ** BitSink and BitSource at the byte boundary *)

(** A field the caller may write: 1 to 8 bits wide, the value within them. *)
Definition valid_field (f : Z * Z) : Prop :=
  1 <= snd f <= 8 /\ 0 <= fst f < 2 ^ snd f.

(** The sink between two writes: at most one byte pending, and nothing in
    it above the bits written so far. *)
Definition sink_wf (s : BitSink) : Prop :=
  0 <= BitSink.m_pos s <= 8 /\ 0 <= BitSink.m_current s < 2 ^ BitSink.m_pos s.

(** A sequence of [Write] calls, [(value, count)] each. *)
Fixpoint write_all {BM : BuildMode} (fields : list (Z * Z)) (s : BitSink)
  : result BitSink :=
  match fields with
  | [] => Ok s
  | (value, count) :: fields' => s ← BitSink_Write value count s; write_all fields' s
  end.

(** A sequence of [Read] calls of the given widths. *)
Fixpoint read_all {BM : BuildMode} (counts : list Z) (s : BitSource)
  : result (list Z * BitSource) :=
  match counts with
  | [] => Ok ([], s)
  | count :: counts' =>
      '(v, s) ← BitSource_Read count s;
      '(vs, s) ← read_all counts' s;
      Ok (v :: vs, s)
  end.

Lemma land_low_high a b p :
  0 <= p -> 0 <= a < 2 ^ p -> Z.land a (b * 2 ^ p) = 0.
Proof.
  intros Hp Ha. apply Z.bits_inj'. intros n Hn.
  rewrite Z.land_spec, Z.bits_0.
  destruct (Z.lt_ge_cases n p) as [Hlt|Hge].
  - rewrite Z.mul_pow2_bits_low by lia. apply andb_false_r.
  - replace a with (a mod 2 ^ p) by (apply Z.mod_small; lia).
    rewrite Z.mod_pow2_bits_high by lia. reflexivity.
Qed.

Lemma lor_shiftl_add cur v p :
  0 <= p -> 0 <= cur < 2 ^ p -> Z.lor cur (Z.shiftl v p) = cur + v * 2 ^ p.
Proof.
  intros Hp Hc. rewrite Z.shiftl_mul_pow2 by assumption.
  pose proof (land_low_high cur v p Hp Hc) as Hland.
  rewrite <- Z.lxor_lor by assumption.
  symmetry. apply Z.add_nocarry_lxor. assumption.
Qed.

Lemma shiftr_small v c : 0 <= c -> 0 <= v < 2 ^ c -> Z.shiftr v c = 0.
Proof. intros Hc Hv. rewrite Z.shiftr_div_pow2 by assumption. apply Z.div_small. lia. Qed.

Lemma pow2_le_256 p : 0 <= p <= 8 -> 2 ^ p <= 256.
Proof. intros Hp. change 256 with (2 ^ 8). apply Z.pow_le_mono_r; lia. Qed.

Lemma u8_small v : 0 <= v < 256 -> u8 v = v.
Proof. intros Hv. unfold u8. apply Z.mod_small. change (2 ^ 8) with 256. lia. Qed.

(** A field that would cross the byte boundary: the pending byte is
    flushed and the field starts the next byte at bit 0. *)
Lemma BitSink_Write_crossing {BM : BuildMode} (s : BitSink) v c :
  sink_wf s -> valid_field (v, c) -> BitSink.m_pos s + c > 8 ->
  BitSink_Write v c s = Ok (BitSink.mk (BitSink.m_sink s ++ [BitSink.m_current s]) c v).
Proof.
  intros [Hpos Hcur] [Hc Hv] Hcross. simpl in Hc, Hv.
  unfold BitSink_Write.
  replace (c <? 9) with true by (symmetry; apply Z.ltb_lt; lia).
  rewrite ASSERT_true. cbn [mbind result_bind].
  rewrite shiftr_small by lia. rewrite ASSERT_true. cbn [mbind result_bind].
  replace (BitSink.m_pos s + c >? 8) with true
    by (symmetry; rewrite Z.gtb_ltb; apply Z.ltb_lt; lia).
  unfold BitSink_Finish.
  replace (0 <? BitSink.m_pos s) with true by (symmetry; apply Z.ltb_lt; lia).
  cbn [BitSink.m_sink BitSink.m_pos BitSink.m_current].
  rewrite Z.shiftl_0_r, Z.lor_0_l, Z.add_0_l.
  assert (2 ^ c <= 256) by (apply pow2_le_256; lia).
  rewrite !u8_small by lia. reflexivity.
Qed.

(** A field that fits goes into the pending byte, above the bits already
    there. *)
Lemma BitSink_Write_fits {BM : BuildMode} (s : BitSink) v c :
  sink_wf s -> valid_field (v, c) -> BitSink.m_pos s + c <= 8 ->
  BitSink_Write v c s =
    Ok (BitSink.mk (BitSink.m_sink s) (BitSink.m_pos s + c)
          (BitSink.m_current s + v * 2 ^ BitSink.m_pos s)).
Proof.
  intros [Hpos Hcur] [Hc Hv] Hfit. simpl in Hc, Hv.
  unfold BitSink_Write.
  replace (c <? 9) with true by (symmetry; apply Z.ltb_lt; lia).
  rewrite ASSERT_true. cbn [mbind result_bind].
  rewrite shiftr_small by lia. rewrite ASSERT_true. cbn [mbind result_bind].
  replace (BitSink.m_pos s + c >? 8) with false
    by (symmetry; rewrite Z.gtb_ltb; apply Z.ltb_ge; lia).
  rewrite lor_shiftl_add by lia.
  assert (Hb : BitSink.m_current s + v * 2 ^ BitSink.m_pos s < 2 ^ (BitSink.m_pos s + c)).
  { rewrite Z.pow_add_r by lia. nia. }
  assert (2 ^ (BitSink.m_pos s + c) <= 256) by (apply pow2_le_256; lia).
  assert (0 <= v * 2 ^ BitSink.m_pos s) by (apply Z.mul_nonneg_nonneg; lia).
  rewrite !u8_small by lia. reflexivity.
Qed.

Lemma BitSink_Write_wf {BM : BuildMode} (s : BitSink) v c :
  sink_wf s -> valid_field (v, c) ->
  exists s', BitSink_Write v c s = Ok s' /\ sink_wf s'.
Proof.
  intros Hwf Hf. pose proof Hwf as [Hpos Hcur]. pose proof Hf as [Hc Hv]. simpl in Hc, Hv.
  destruct (Z.le_gt_cases (BitSink.m_pos s + c) 8) as [Hfit|Hcross].
  - eexists. split; [apply BitSink_Write_fits; assumption|].
    split; cbn [BitSink.m_pos BitSink.m_current]; [lia|].
    rewrite Z.pow_add_r by lia.
    assert (0 <= v * 2 ^ BitSink.m_pos s) by (apply Z.mul_nonneg_nonneg; lia). nia.
  - eexists. split; [apply BitSink_Write_crossing; [assumption|assumption|lia]|].
    split; cbn [BitSink.m_pos BitSink.m_current]; lia.
Qed.

Lemma write_all_wf {BM : BuildMode} (fields : list (Z * Z)) : forall s,
  sink_wf s -> Forall valid_field fields ->
  exists s', write_all fields s = Ok s' /\ sink_wf s'.
Proof.
  induction fields as [|[v c] fields IH]; intros s Hwf Hall.
  - exists s. split; [reflexivity|assumption].
  - apply Forall_cons in Hall as [Hf Hall].
    destruct (BitSink_Write_wf s v c Hwf Hf) as (s1 & Hw & Hwf1).
    destruct (IH s1 Hwf1 Hall) as (s' & Hws & Hwf').
    exists s'. split; [|assumption].
    cbn [write_all]. rewrite Hw. exact Hws.
Qed.

Lemma BitSink_ctor_wf sink : sink_wf (BitSink_ctor sink).
Proof. split; simpl; lia. Qed.

(** What one [Read] returns: bits of the byte under the pointer, nothing
    else. *)
Definition field_of (byte pos count : Z) : Z :=
  Z.land (Z.shiftr byte pos) (2 ^ count - 1).

Lemma field_of_range byte pos count :
  0 <= pos -> 0 <= count <= 8 -> 0 <= byte -> 0 <= field_of byte pos count < 256.
Proof.
  intros Hp Hc Hb. unfold field_of.
  assert (H1 : 0 <= Z.shiftr byte pos) by (apply Z.shiftr_nonneg; assumption).
  assert (H2 : 0 < 2 ^ count) by (apply Z.pow_pos_nonneg; lia).
  assert (H3 : 2 ^ count <= 256) by (apply pow2_le_256; lia).
  replace (2 ^ count - 1) with (Z.ones count) by (rewrite Z.ones_equiv; lia).
  rewrite Z.land_ones by lia. pose proof (Z.mod_pos_bound (Z.shiftr byte pos) (2 ^ count) H2).
  lia.
Qed.

Lemma BitSource_Read_value {BM : BuildMode} byte next pos c :
  0 <= byte < 256 -> 0 <= pos < 8 -> 1 <= c <= 8 ->
  (pos + c < 8 ->
   BitSource_Read c (BitSource.mk (byte :: next) pos) =
     Ok (field_of byte pos c, BitSource.mk (byte :: next) (pos + c))) /\
  (pos + c = 8 ->
   BitSource_Read c (BitSource.mk (byte :: next) pos) =
     Ok (field_of byte pos c, BitSource.mk next 0)).
Proof.
  intros Hb Hp Hc.
  pose proof (field_of_range byte pos c ltac:(lia) ltac:(lia) ltac:(lia)) as Hf.
  unfold BitSource_Read.
  replace (c <? 9) with true by (symmetry; apply Z.ltb_lt; lia).
  rewrite ASSERT_true. cbn [mbind result_bind BitSource.m_ptr BitSource.m_pos].
  rewrite Z.shiftl_1_l. fold (field_of (u8 byte) pos c).
  rewrite (u8_small byte) by lia. rewrite (u8_small (field_of byte pos c)) by lia.
  rewrite (u8_small (pos + c)) by lia.
  split; intros Hcase.
  - replace (8 <=? pos + c) with false by (symmetry; apply Z.leb_gt; lia). reflexivity.
  - replace (8 <=? pos + c) with true by (symmetry; apply Z.leb_le; lia).
    replace (pos + c =? 8) with true by (symmetry; apply Z.eqb_eq; lia).
    rewrite ASSERT_true. reflexivity.
Qed.

Lemma BitSource_Read_crossing byte next pos c :
  0 <= byte < 256 -> 0 <= pos < 8 -> 1 <= c <= 8 -> pos + c > 8 ->
  BitSource_Read (BM := true) c (BitSource.mk (byte :: next) pos) =
    Fail (AssertFailed "m_pos == 8") /\
  BitSource_Read (BM := false) c (BitSource.mk (byte :: next) pos) =
    Ok (field_of byte pos c, BitSource.mk next 0).
Proof.
  intros Hb Hp Hc Hcross.
  pose proof (field_of_range byte pos c ltac:(lia) ltac:(lia) ltac:(lia)) as Hf.
  unfold BitSource_Read.
  replace (c <? 9) with true by (symmetry; apply Z.ltb_lt; lia).
  rewrite !ASSERT_true. cbn [mbind result_bind BitSource.m_ptr BitSource.m_pos].
  rewrite Z.shiftl_1_l. fold (field_of (u8 byte) pos c).
  rewrite (u8_small byte) by lia. rewrite (u8_small (field_of byte pos c)) by lia.
  rewrite (u8_small (pos + c)) by lia.
  replace (8 <=? pos + c) with true by (symmetry; apply Z.leb_le; lia).
  replace (pos + c =? 8) with false by (symmetry; apply Z.eqb_neq; lia).
  split; reflexivity.
Qed.

(** No field of the sequence crosses a byte boundary when the fields are
    laid out from bit [pos] on (a full byte counts as a fresh start). *)
Fixpoint no_crossing (pos : Z) (fields : list (Z * Z)) : Prop :=
  match fields with
  | [] => True
  | (_, count) :: fields' =>
      let p := if pos =? 8 then 0 else pos in
      p + count <= 8 /\ no_crossing (p + count) fields'
  end.

(** The bytes [tl] that follow the sink's flushed bytes agree with the
    pending byte. *)
Definition pending_ok (s : BitSink) (tl : list Z) : Prop :=
  0 < BitSink.m_pos s ->
  exists B tl', tl = B :: tl' /\ 0 <= B < 256 /\
                B mod 2 ^ BitSink.m_pos s = BitSink.m_current s.

(** Where a reader of the final buffer stands when the sink stands at [s]. *)
Definition reader_at (s : BitSink) (tl : list Z) : BitSource :=
  if BitSink.m_pos s =? 8 then BitSource.mk (drop 1 tl) 0
  else BitSource.mk tl (BitSink.m_pos s).

Lemma field_of_extract B p c cur v :
  0 <= p -> 0 <= c -> 0 <= cur < 2 ^ p ->
  B mod 2 ^ (p + c) = cur + v * 2 ^ p -> 0 <= v < 2 ^ c ->
  field_of B p c = v /\ B mod 2 ^ p = cur.
Proof.
  intros Hp Hc Hcur HB Hv.
  assert (Hp2 : 0 < 2 ^ p) by (apply Z.pow_pos_nonneg; lia).
  assert (Hc2 : 0 < 2 ^ c) by (apply Z.pow_pos_nonneg; lia).
  rewrite Z.pow_add_r in HB by lia.
  rewrite Z.rem_mul_r in HB by lia.
  assert (Hlow : B mod 2 ^ p = cur).
  { pose proof (Z.mod_pos_bound B (2 ^ p) Hp2).
    assert (Hm : (B mod 2 ^ p + 2 ^ p * ((B / 2 ^ p) mod 2 ^ c)) mod 2 ^ p =
                 (cur + v * 2 ^ p) mod 2 ^ p) by (rewrite HB; reflexivity).
    rewrite (Z.mul_comm (2 ^ p)), !Z.mod_add, Z.mod_mod in Hm by lia.
    rewrite (Z.mod_small cur) in Hm by lia. exact Hm. }
  split; [|exact Hlow].
  unfold field_of.
  replace (2 ^ c - 1) with (Z.ones c) by (rewrite Z.ones_equiv; lia).
  rewrite Z.land_ones, Z.shiftr_div_pow2 by lia. nia.
Qed.

Lemma write_read_roundtrip {BM : BuildMode} (fields : list (Z * Z)) : forall s,
  sink_wf s -> Forall valid_field fields -> no_crossing (BitSink.m_pos s) fields ->
  exists s' tl rd,
    write_all fields s = Ok s' /\
    BitSink.m_sink (BitSink_Finish s') = BitSink.m_sink s ++ tl /\
    pending_ok s tl /\
    read_all (map snd fields) (reader_at s tl) = Ok (map fst fields, rd).
Proof.
  induction fields as [|[v c] fields IH]; intros s Hwf Hall Hnc.
  - exists s. destruct Hwf as [Hpos Hcur]. unfold BitSink_Finish.
    destruct (Z.ltb_spec 0 (BitSink.m_pos s)) as [Hgt|Hle].
    + exists [BitSink.m_current s], (reader_at s [BitSink.m_current s]).
      split; [reflexivity|]. split; [reflexivity|]. split; [|reflexivity].
      intros _. exists (BitSink.m_current s), [].
      pose proof (pow2_le_256 (BitSink.m_pos s) Hpos).
      split; [reflexivity|]. split; [lia|]. apply Z.mod_small. lia.
    + exists [], (reader_at s []).
      split; [reflexivity|]. split; [now rewrite app_nil_r|]. split; [|reflexivity].
      intros Hgt. lia.
  - apply Forall_cons in Hall as [Hf Hall].
    pose proof Hwf as [Hpos Hcur]. pose proof Hf as [Hc Hv]. simpl in Hc, Hv.
    cbn [no_crossing] in Hnc. destruct Hnc as [Hfit Hnc].
    destruct (Z.eqb_spec (BitSink.m_pos s) 8) as [H8|Hn8].
    + (* the pending byte is full: this write flushes it *)
      pose proof (BitSink_Write_crossing s v c Hwf Hf ltac:(lia)) as Hw.
      set (s1 := BitSink.mk (BitSink.m_sink s ++ [BitSink.m_current s]) c v) in *.
      assert (Hwf1 : sink_wf s1) by (split; simpl; lia).
      destruct (IH s1 Hwf1 Hall Hnc) as (s' & tl1 & rd & Hws & Hout & Hpend & Hrd).
      destruct (Hpend ltac:(simpl; lia)) as (B & tl1' & -> & HB & HBm).
      cbn [BitSink.m_pos BitSink.m_current s1] in HBm.
      exists s', (BitSink.m_current s :: B :: tl1'), rd.
      split; [cbn [write_all]; rewrite Hw; exact Hws|].
      split; [rewrite Hout; cbn [BitSink.m_sink s1]; now rewrite <- app_assoc|].
      split.
      { intros _. exists (BitSink.m_current s), (B :: tl1').
        rewrite H8 in Hcur |- *. change (2 ^ 8) with 256 in *.
        split; [reflexivity|]. split; [lia|]. apply Z.mod_small. lia. }
      unfold reader_at. rewrite H8.
      change (drop 1 (BitSink.m_current s :: B :: tl1')) with (B :: tl1').
      cbn [Z.eqb Pos.eqb]. cbn [read_all map snd fst].
      destruct (field_of_extract B 0 c 0 v ltac:(lia) ltac:(lia) ltac:(simpl; lia)
                  ltac:(rewrite Z.add_0_l, Z.pow_0_r; lia) Hv) as [Hfield _].
      destruct (BitSource_Read_value B tl1' 0 c HB ltac:(lia) Hc) as [Hlt Heq].
      unfold reader_at in Hrd. cbn [BitSink.m_pos s1] in Hrd.
      destruct (Z.eqb_spec c 8) as [Hc8|Hc8].
      * rewrite Heq by lia. cbn [mbind result_bind]. rewrite Hfield.
        change (drop 1 (B :: tl1')) with tl1' in Hrd. rewrite Hrd. reflexivity.
      * rewrite Hlt by lia. cbn [mbind result_bind]. rewrite Hfield, Z.add_0_l.
        rewrite Hrd. reflexivity.
    + (* the field fits the pending byte *)
      pose proof (BitSink_Write_fits s v c Hwf Hf Hfit) as Hw.
      set (s1 := BitSink.mk (BitSink.m_sink s) (BitSink.m_pos s + c)
                   (BitSink.m_current s + v * 2 ^ BitSink.m_pos s)) in *.
      assert (Hwf1 : sink_wf s1).
      { split; cbn [BitSink.m_pos BitSink.m_current s1]; [lia|].
        rewrite Z.pow_add_r by lia.
        assert (0 <= v * 2 ^ BitSink.m_pos s) by (apply Z.mul_nonneg_nonneg; lia). nia. }
      destruct (IH s1 Hwf1 Hall Hnc) as (s' & tl1 & rd & Hws & Hout & Hpend & Hrd).
      destruct (Hpend ltac:(simpl; lia)) as (B & tl1' & -> & HB & HBm).
      cbn [BitSink.m_pos BitSink.m_current s1] in HBm.
      destruct (field_of_extract B (BitSink.m_pos s) c (BitSink.m_current s) v
                  ltac:(lia) ltac:(lia) Hcur HBm Hv) as [Hfield Hlow].
      exists s', (B :: tl1'), rd.
      split; [cbn [write_all]; rewrite Hw; exact Hws|].
      split; [exact Hout|].
      split; [intros _; exists B, tl1'; auto|].
      unfold reader_at. destruct (Z.eqb_spec (BitSink.m_pos s) 8) as [|_]; [contradiction|].
      cbn [read_all map snd fst].
      destruct (BitSource_Read_value B tl1' (BitSink.m_pos s) c HB ltac:(lia) Hc)
        as [Hlt Heq].
      unfold reader_at in Hrd. cbn [BitSink.m_pos s1] in Hrd.
      destruct (Z.eqb_spec (BitSink.m_pos s + c) 8) as [Hc8|Hc8].
      * rewrite Heq by lia. cbn [mbind result_bind]. rewrite Hfield.
        change (drop 1 (B :: tl1')) with tl1' in Hrd. rewrite Hrd. reflexivity.
      * rewrite Hlt by lia. cbn [mbind result_bind]. rewrite Hfield.
        rewrite Hrd. reflexivity.
Qed.

(** C5 (as amended).  After any sequence of writes of 1..8-bit fields, a
    further field whose bits would cross the byte boundary makes [BitSink]
    flush the pending byte and place the field at bit 0 of the next byte,
    and a field that fits goes above the bits already pending; so a 5-bit
    field written after a 4-bit field starts a fresh byte.  [BitSource]
    never combines bits of two bytes: a [Read] returns bits of the byte
    under its pointer only.  It does not skip to the next byte the way the
    writer does: a [Read] that would cross the boundary trips
    [ASSERT_EQUAL(m_pos, 8)] in a DEBUG build and otherwise returns the
    residual bits of the current byte.  For a sequence in which no field
    crosses a boundary the reader returns the values written. *)
Theorem BitSink_BitSource_boundary {BM : BuildMode} (sink : list Z)
    (fields : list (Z * Z)) (v c : Z) :
  Forall valid_field fields -> valid_field (v, c) ->
  (exists s,
     write_all fields (BitSink_ctor sink) = Ok s /\
     (BitSink.m_pos s + c > 8 ->
      BitSink_Write v c s =
        Ok (BitSink.mk (BitSink.m_sink s ++ [BitSink.m_current s]) c v)) /\
     (BitSink.m_pos s + c <= 8 ->
      BitSink_Write v c s =
        Ok (BitSink.mk (BitSink.m_sink s) (BitSink.m_pos s + c)
              (BitSink.m_current s + v * 2 ^ BitSink.m_pos s)))) /\
  (forall a b, valid_field (a, 4) -> valid_field (b, 5) ->
     exists s, write_all [(a, 4); (b, 5)] (BitSink_ctor sink) = Ok s /\
               BitSink.m_sink (BitSink_Finish s) = sink ++ [a; b]) /\
  (forall byte next pos, 0 <= byte < 256 -> 0 <= pos < 8 ->
     (pos + c < 8 ->
      BitSource_Read c (BitSource.mk (byte :: next) pos) =
        Ok (field_of byte pos c, BitSource.mk (byte :: next) (pos + c))) /\
     (pos + c = 8 ->
      BitSource_Read c (BitSource.mk (byte :: next) pos) =
        Ok (field_of byte pos c, BitSource.mk next 0)) /\
     (pos + c > 8 ->
      BitSource_Read (BM := true) c (BitSource.mk (byte :: next) pos) =
        Fail (AssertFailed "m_pos == 8") /\
      BitSource_Read (BM := false) c (BitSource.mk (byte :: next) pos) =
        Ok (field_of byte pos c, BitSource.mk next 0))) /\
  (no_crossing 0 (fields ++ [(v, c)]) ->
   exists s tl rd,
     write_all (fields ++ [(v, c)]) (BitSink_ctor sink) = Ok s /\
     BitSink.m_sink (BitSink_Finish s) = sink ++ tl /\
     read_all (map snd (fields ++ [(v, c)])) (BitSource_ctor tl) =
       Ok (map fst (fields ++ [(v, c)]), rd)).
Proof.
  intros Hall Hf.
  split; [|split; [|split]].
  - destruct (write_all_wf fields (BitSink_ctor sink) (BitSink_ctor_wf sink) Hall)
      as (s & Hw & Hwf).
    exists s. split; [exact Hw|]. split; intros Hcase.
    + apply BitSink_Write_crossing; assumption.
    + apply BitSink_Write_fits; assumption.
  - intros a b Ha Hb.
    pose proof (BitSink_Write_fits (BitSink_ctor sink) a 4 (BitSink_ctor_wf sink) Ha
                  ltac:(simpl; lia)) as H1.
    cbn [BitSink_ctor BitSink.m_pos BitSink.m_sink BitSink.m_current] in H1.
    assert (Hwf1 : sink_wf (BitSink.mk sink (0 + 4) (0 + a * 2 ^ 0))).
    { destruct Ha as [_ Ha]. simpl in Ha. split; simpl; lia. }
    pose proof (BitSink_Write_crossing _ b 5 Hwf1 Hb ltac:(simpl; lia)) as H2.
    cbn [BitSink.m_pos BitSink.m_sink BitSink.m_current] in H2.
    eexists. split.
    + cbn [write_all]. rewrite H1. cbn [mbind result_bind].
      rewrite H2. reflexivity.
    + unfold BitSink_Finish. cbn [BitSink.m_pos BitSink.m_sink BitSink.m_current].
      rewrite <- app_assoc. simpl. do 2 f_equal. lia.
  - intros byte next pos Hb Hp. destruct Hf as [Hc _]. simpl in Hc.
    destruct (BitSource_Read_value byte next pos c Hb Hp Hc) as [Hlt Heq].
    split; [exact Hlt|]. split; [exact Heq|].
    intros Hcross. apply BitSource_Read_crossing; assumption.
  - intros Hnc.
    destruct (write_read_roundtrip (fields ++ [(v, c)]) (BitSink_ctor sink)
                (BitSink_ctor_wf sink)) as (s & tl & rd & Hw & Hout & _ & Hrd).
    + apply Forall_app. split; [assumption|]. constructor; [assumption|constructor].
    + exact Hnc.
    + exists s, tl, rd. auto.
Qed.

Lemma BitSink_BitSource_boundary_witness :
  exists s,
    write_all (BM := true) [(9, 4); (3, 2)] (BitSink_ctor []) = Ok s /\
    BitSink_Write (BM := true) 21 5 s = Ok (BitSink.mk [57] 5 21).
Proof.
  assert (H1 : Forall valid_field [(9, 4); (3, 2)]).
  { repeat constructor; simpl; lia. }
  assert (H2 : valid_field (21, 5)) by (split; simpl; lia).
  destruct (BitSink_BitSource_boundary (BM := true) [] [(9, 4); (3, 2)] 21 5 H1 H2)
    as ((s & Hw & Hcross & _) & _).
  exists s. split; [exact Hw|].
  assert (Hs : s = BitSink.mk [] 6 57) by (cbv in Hw; congruence).
  rewrite Hcross by (rewrite Hs; simpl; lia).
  rewrite Hs. reflexivity.
Defined.

(** C5 (as stated) fails for the reader.  The writer puts the fields
    (15, 4 bits) and (31, 5 bits) into the bytes 15 and 31; reading 4 and
    then 5 bits back, the second [Read] trips its ASSERT in a DEBUG build,
    and without the ASSERT it returns 0, the residual bits of the first
    byte, not the 31 waiting at bit 0 of the next byte. *)
Lemma BitSource_does_not_mirror_BitSink :
  (exists s, write_all (BM := true) [(15, 4); (31, 5)] (BitSink_ctor []) = Ok s /\
             BitSink.m_sink (BitSink_Finish s) = [15; 31]) /\
  read_all (BM := true) [4; 5] (BitSource_ctor [15; 31]) =
    Fail (AssertFailed "m_pos == 8") /\
  read_all (BM := false) [4; 5] (BitSource_ctor [15; 31]) =
    Ok ([15; 0], BitSource.mk [31] 0).
Proof.
  split; [eexists; split; reflexivity|]. split; reflexivity.
Qed.

(** ** The offset arrays of Stage-2 *)

Ltac bind_inv H :=
  unfold mbind, result_bind in H;
  match type of H with
  | match ?c with Ok _ => _ | Fail _ => _ end = Ok _ =>
      let E := fresh "E" in destruct c eqn:E; [|discriminate H]
  end.

(** The order the source comment states for the offsets handed to
    [Serialize], "pushed from high scale index to low": the offset of scale
    index [k-1] first, that of scale index 0 last. *)
Definition pushed_high_to_low (offset_of : nat -> Z) (k : nat) : list Z :=
  map offset_of (rev (seq 0 k)).

Lemma rev_pushed_high_to_low offset_of k :
  rev (pushed_high_to_low offset_of k) = map offset_of (seq 0 k).
Proof. unfold pushed_high_to_low. now rewrite <- map_rev, rev_involutive. Qed.

Lemma rev_pushed_lookup offset_of k i :
  (i < k)%nat -> rev (pushed_high_to_low offset_of k) !! i = Some (offset_of i).
Proof.
  intros Hi. rewrite rev_pushed_high_to_low.
  change (map offset_of (seq 0 k)) with (offset_of <$> seq 0 k).
  rewrite list_lookup_fmap, lookup_seq_lt by assumption. reflexivity.
Qed.

Section Stage2.
Context {BM : BuildMode} {G : Geom}.
Import buffers_holder_t.

(** What a completed [Serialize] has done with the offset arrays. *)
Lemma FeatureBuilder2_Serialize_offsets_run (b : FeatureBuilder1) (data data' : buffers_holder_t)
    (base : Z) :
  FeatureBuilder2_Serialize b data base = Ok data' ->
  (m_bLinear b = true -> m_innerPts data = [] ->
     m_ptsOffset data' = rev (m_ptsOffset data) /\
     (exists pre post,
        m_buffer data' = pre ++ WriteVarUintArray (rev (m_ptsOffset data)) ++ post) /\
     forall offset_of k i,
       m_ptsOffset data = pushed_high_to_low offset_of k -> (i < k)%nat ->
       m_ptsOffset data' !! i = Some (offset_of i)) /\
  (m_bArea b = true -> m_innerTrg data = [] ->
     m_trgOffset data' = rev (m_trgOffset data) /\
     (exists pre,
        m_buffer data' = pre ++ WriteVarUintArray (rev (m_trgOffset data))) /\
     forall offset_of k i,
       m_trgOffset data = pushed_high_to_low offset_of k -> (i < k)%nat ->
       m_trgOffset data' !! i = Some (offset_of i)) /\
  (m_bLinear b = false \/ 0 < u8 (Z.of_nat (length (m_innerPts data))) ->
     m_ptsOffset data' = m_ptsOffset data) /\
  (m_bArea b = false -> m_trgOffset data' = m_trgOffset data).
Proof.
  intros Hser. unfold FeatureBuilder2_Serialize in Hser.
  bind_inv Hser. rename a into trgCount. rename E into HtrgCount.
  bind_inv Hser. rename a into bs1.
  bind_inv Hser. rename a into bs2.
  set (buffer0 := BitSink.m_sink (BitSink_Finish bs2)) in Hser.
  assert (Htrg0 : m_innerTrg data = [] -> trgCount = 0).
  { intros Hnil. rewrite Hnil in HtrgCount. vm_compute in HtrgCount. congruence. }
  split; [|split; [|split]].
  - intros Hlin Hnil. rewrite Hlin, Hnil in Hser. cbn [length Z.of_nat] in Hser.
    change (0 <? u8 0) with false in Hser. cbv iota in Hser.
    destruct (m_bArea b).
    + destruct (0 <? trgCount); injection Hser as <-; cbn [m_ptsOffset m_buffer];
        (split; [reflexivity|]; split;
         [|intros offset_of k i -> Hi; apply rev_pushed_lookup; exact Hi]).
      * exists buffer0, (SaveInnerTriangles (m_innerTrg data) base).
        now rewrite <- app_assoc.
      * exists buffer0, (WriteVarUintArray (rev (m_trgOffset data))).
        now rewrite <- app_assoc.
    + injection Hser as <-; cbn [m_ptsOffset m_buffer].
      split; [reflexivity|]. split.
      * exists buffer0, []. now rewrite app_nil_r.
      * intros offset_of k i -> Hi. apply rev_pushed_lookup; exact Hi.
  - intros Harea Hnil. rewrite Harea in Hser. rewrite (Htrg0 Hnil) in Hser.
    change (0 <? 0) with false in Hser. cbv iota in Hser.
    destruct (m_bLinear b); [destruct (0 <? u8 (Z.of_nat (length (m_innerPts data))))|];
      injection Hser as <-; cbn [m_trgOffset m_buffer];
      (split; [reflexivity|]; split;
       [eexists; reflexivity
       |intros offset_of k i -> Hi; apply rev_pushed_lookup; exact Hi]).
  - intros Hcase.
    destruct (m_bLinear b) eqn:Hlin.
    + destruct Hcase as [Hc|Hc]; [discriminate|].
      apply Z.ltb_lt in Hc. rewrite Hc in Hser.
      destruct (m_bArea b); [destruct (0 <? trgCount)|];
        injection Hser as <-; reflexivity.
    + destruct (m_bArea b); [destruct (0 <? trgCount)|];
        injection Hser as <-; reflexivity.
  - intros Harea. rewrite Harea in Hser.
    destruct (m_bLinear b); [destruct (0 <? u8 (Z.of_nat (length (m_innerPts data))))|];
      injection Hser as <-; reflexivity.
Qed.

(** Without the ASSERTs the call always completes. *)
Lemma FeatureBuilder2_Serialize_release (b : FeatureBuilder1) (data : buffers_holder_t)
    (base : Z) :
  exists data', FeatureBuilder2_Serialize (BM := false) b data base = Ok data'.
Proof.
  unfold FeatureBuilder2_Serialize, BitSink_Write. rewrite !ASSERT_release.
  cbn [mbind result_bind].
  destruct (0 <? u8 (Z.of_nat (length (m_innerTrg data)))); cbn [mbind result_bind];
    destruct (m_bLinear b); cbn [mbind result_bind];
    repeat match goal with
           | |- context [if ?c then _ else _] => destruct c; cbn [mbind result_bind]
           end; eexists; reflexivity.
Qed.

End Stage2.

(** C8 (as amended).  On the outer branches of [FeatureBuilder2::Serialize]
    (a line with no inline point, an area with no inline triangle) the
    offset array is reversed before it is written, and [data] keeps the
    reversed array; on the inline branches it is left alone.  With the
    offsets pushed from the highest scale index to the lowest, slot [i] of
    the reversed array holds the offset of scale index [i]: slot 0 that of
    the lowest scale index (the coarsest geometry), slot [k-1] that of the
    highest (the most detailed, the one the reader picks for scale -1).
    Without the ASSERTs the call always completes. *)
Theorem FeatureBuilder2_Serialize_offsets {G : Geom} (b : FeatureBuilder1)
    (data : buffers_holder_t) (base : Z) :
  (exists data', FeatureBuilder2_Serialize (BM := false) b data base = Ok data') /\
  forall (BM : BuildMode) (data' : buffers_holder_t),
    FeatureBuilder2_Serialize b data base = Ok data' ->
    (m_bLinear b = true -> buffers_holder_t.m_innerPts data = [] ->
       buffers_holder_t.m_ptsOffset data' = rev (buffers_holder_t.m_ptsOffset data) /\
       (exists pre post,
          buffers_holder_t.m_buffer data' =
            pre ++ WriteVarUintArray (rev (buffers_holder_t.m_ptsOffset data)) ++ post) /\
       forall offset_of k i,
         buffers_holder_t.m_ptsOffset data = pushed_high_to_low offset_of k ->
         (i < k)%nat ->
         buffers_holder_t.m_ptsOffset data' !! i = Some (offset_of i)) /\
    (m_bArea b = true -> buffers_holder_t.m_innerTrg data = [] ->
       buffers_holder_t.m_trgOffset data' = rev (buffers_holder_t.m_trgOffset data) /\
       (exists pre,
          buffers_holder_t.m_buffer data' =
            pre ++ WriteVarUintArray (rev (buffers_holder_t.m_trgOffset data))) /\
       forall offset_of k i,
         buffers_holder_t.m_trgOffset data = pushed_high_to_low offset_of k ->
         (i < k)%nat ->
         buffers_holder_t.m_trgOffset data' !! i = Some (offset_of i)) /\
    (m_bLinear b = false \/
     0 < u8 (Z.of_nat (length (buffers_holder_t.m_innerPts data))) ->
       buffers_holder_t.m_ptsOffset data' = buffers_holder_t.m_ptsOffset data) /\
    (m_bArea b = false ->
       buffers_holder_t.m_trgOffset data' = buffers_holder_t.m_trgOffset data).
Proof.
  split; [apply FeatureBuilder2_Serialize_release|].
  intros BM data' Hrun. exact (FeatureBuilder2_Serialize_offsets_run b data data' base Hrun).
Qed.

Lemma FeatureBuilder2_Serialize_offsets_witness :
  exists data',
    FeatureBuilder2_Serialize (BM := true) grid_line
      (grid_outer_buffers 5 (pushed_high_to_low (fun i => Z.of_nat (100 * i)) 3)) 0 =
      Ok data' /\
    buffers_holder_t.m_ptsOffset data' = [0; 100; 200].
Proof.
  destruct (FeatureBuilder2_Serialize_offsets grid_line
              (grid_outer_buffers 5 (pushed_high_to_low (fun i => Z.of_nat (100 * i)) 3)) 0)
    as [_ Hrun].
  eexists. split; [reflexivity|].
  destruct (Hrun true _ eq_refl) as [Hline _].
  destruct Hline as [Hrev _]; [reflexivity|reflexivity|].
  rewrite Hrev. reflexivity.
Defined.

(** C8 (as stated) fails.  With the offsets 1200 (scale index 1, the more
    detailed geometry) and 500 (scale index 0) pushed from high to low, the
    reversed array the writer stores and writes starts with 500, the offset
    of the lowest scale index; the highest-detail offset 1200 sits in the
    last slot, the one the reader picks for scale -1. *)
Lemma reversed_offsets_start_at_lowest_scale :
  let offset_of := fun i : nat => nth i [500; 1200] 0 in
  exists data',
    FeatureBuilder2_Serialize (BM := true) grid_line
      (grid_outer_buffers 3 (pushed_high_to_low offset_of 2)) 0 = Ok data' /\
    pushed_high_to_low offset_of 2 = [1200; 500] /\
    buffers_holder_t.m_ptsOffset data' !! 0%nat = Some (offset_of 0%nat) /\
    buffers_holder_t.m_ptsOffset data' !! 0%nat <> Some (offset_of 1%nat) /\
    buffers_holder_t.m_ptsOffset data' !! 1%nat = Some (offset_of 1%nat) /\
    GetScaleIndex_offsets header_5_10 (-1) (buffers_holder_t.m_ptsOffset data') = Ok 1.
Proof.
  eexists. split; [reflexivity|].
  split; [reflexivity|]. split; [reflexivity|]. split; [discriminate|].
  split; reflexivity.
Qed.

(** ** The parse stages of the reader *)

(** Case analysis on every call and branch inside a successful run [H],
    innermost first. *)
Ltac run_inv H :=
  unfold decoded in H;
  repeat (unfold mbind, result_bind in H;
          match type of H with
          | context [match ?c with _ => _ end] =>
              lazymatch c with
              | context [match _ with _ => _ end] => fail
              | _ => let E := fresh "E" in destruct c eqn:E; try discriminate H
              end
          end).

Section Stages.
Context {BM : BuildMode} {G : Geom} {DC : Decls}.

Lemma ParseTypes_frame (f f' : FeatureBase) :
  ParseTypes f = Ok f' ->
  FeatureBase.m_bTypesParsed f' = true /\
  FeatureBase.m_bCommonParsed f' = FeatureBase.m_bCommonParsed f /\
  FeatureBase.m_Data f' = FeatureBase.m_Data f /\
  FeatureBase.m_Offset f' = FeatureBase.m_Offset f.
Proof.
  intros Hrun. unfold ParseTypes in Hrun. run_inv Hrun.
  injection Hrun as <-. repeat split.
Qed.

Lemma ParseCommon_frame (f f' : FeatureBase) :
  ParseCommon f = Ok f' ->
  FeatureBase.m_bTypesParsed f' = true /\
  FeatureBase.m_bCommonParsed f' = true /\
  FeatureBase.m_Data f' = FeatureBase.m_Data f /\
  FeatureBase.m_Offset f' = FeatureBase.m_Offset f.
Proof.
  intros Hrun. unfold ParseCommon in Hrun.
  bind_inv Hrun. bind_inv Hrun. rename a0 into f1.
  assert (Hf1 : FeatureBase.m_bTypesParsed f1 = true /\
                FeatureBase.m_Data f1 = FeatureBase.m_Data f /\
                FeatureBase.m_Offset f1 = FeatureBase.m_Offset f).
  { destruct (FeatureBase.m_bTypesParsed f) eqn:Ht; cbn [negb] in E0.
    - injection E0 as <-. auto.
    - apply ParseTypes_frame in E0. tauto. }
  destruct Hf1 as (Ht & Hd & Ho).
  run_inv Hrun; injection Hrun as <-; rewrite <- ?Hd, <- ?Ho; cbn; auto.
Qed.

Lemma Header_frame (f f' : FeatureBase) :
  FeatureBase.m_Data f' = FeatureBase.m_Data f ->
  FeatureBase.m_Offset f' = FeatureBase.m_Offset f ->
  Header f' = Header f.
Proof. intros Hd Ho. unfold Header, DataPtr. now rewrite Hd, Ho. Qed.

(** The flags run down the chain types, common, header2, points and
    triangles: a later stage is marked only when the earlier ones are. *)
Definition stages_ok (s : FeatureType) : Prop :=
  (FeatureBase.m_bCommonParsed (base s) = true ->
   FeatureBase.m_bTypesParsed (base s) = true) /\
  (m_bHeader2Parsed s = true -> FeatureBase.m_bCommonParsed (base s) = true) /\
  (m_bPointsParsed s = true -> m_bHeader2Parsed s = true) /\
  (m_bTrianglesParsed s = true -> m_bHeader2Parsed s = true).

Lemma ParseHeader2_frame (s s' : FeatureType) :
  ParseHeader2 s = Ok s' ->
  m_bHeader2Parsed s' = true /\
  FeatureBase.m_bCommonParsed (base s') = true /\
  (stages_ok s -> FeatureBase.m_bTypesParsed (base s') = true) /\
  m_bPointsParsed s' = m_bPointsParsed s /\
  m_bTrianglesParsed s' = m_bTrianglesParsed s /\
  opened s' = opened s /\
  m_header s' = m_header s /\
  m_cont s' = m_cont s /\
  Header (base s') = Header (base s).
Proof.
  intros Hrun. unfold ParseHeader2 in Hrun.
  bind_inv Hrun. bind_inv Hrun. rename a0 into s1.
  assert (Hs1 : FeatureBase.m_bCommonParsed (base s1) = true /\
                (stages_ok s -> FeatureBase.m_bTypesParsed (base s1) = true) /\
                m_bPointsParsed s1 = m_bPointsParsed s /\
                m_bTrianglesParsed s1 = m_bTrianglesParsed s /\
                opened s1 = opened s /\ m_header s1 = m_header s /\
                m_cont s1 = m_cont s /\ Header (base s1) = Header (base s)).
  { destruct (FeatureBase.m_bCommonParsed (base s)) eqn:Hc; cbn [negb] in E0.
    - injection E0 as <-. repeat split; try assumption. intros Hok. now apply Hok.
    - unfold ParseBase in E0. bind_inv E0. injection E0 as <-.
      apply ParseCommon_frame in E1 as (Ht & Hc' & Hd & Ho).
      cbn. split; [assumption|]. split; [intros _; assumption|].
      repeat (split; [reflexivity|]). now apply Header_frame. }
  destruct Hs1 as (Hc & Ht & Hp & Htr & Hop & Hh & Hcont & Hhdr).
  rewrite <- Hp, <- Htr, <- Hop, <- Hh, <- Hcont, <- Hhdr.
  clear E0 Hp Htr Hop Hh Hcont Hhdr E a.
  run_inv Hrun; injection Hrun as <-; cbn; repeat split; auto.
Qed.

End Stages.

(** ** Missing outer geometry *)

Section MissingGeometry.
Context {BM : BuildMode} {G : Geom} {DC : Decls}.

Lemma with_header2_frame (s s1 : FeatureType) :
  (if negb (m_bHeader2Parsed s) then ParseHeader2 s else Ok s) = Ok s1 ->
  m_bHeader2Parsed s1 = true /\
  m_bPointsParsed s1 = m_bPointsParsed s /\
  m_bTrianglesParsed s1 = m_bTrianglesParsed s /\
  opened s1 = opened s /\
  Header (base s1) = Header (base s).
Proof.
  destruct (m_bHeader2Parsed s) eqn:Hh2; cbn [negb]; intros Hrun.
  - injection Hrun as <-. auto.
  - apply ParseHeader2_frame in Hrun. tauto.
Qed.

(** [ParseGeometry] on a line whose outer resolution finds no index. *)
Lemma ParseGeometry_missing (scale : Z) (s s1 : FeatureType) :
  (if negb (m_bHeader2Parsed s) then ParseHeader2 s else Ok s) = Ok s1 ->
  m_bPointsParsed s = false ->
  has_flag (Header (base s1)) HEADER_IS_LINE = true ->
  m_Points s1 = [] ->
  GetScaleIndex_offsets (m_header s1) scale (m_ptsOffsets s1) = Ok (-1) ->
  ParseGeometry scale s =
    Ok (0, set_bPointsParsed true
             (set_base (set_LimitRect_base (FeatureBase.m_LimitRect (base s1)) (base s1))
                s1)).
Proof.
  intros Hh2 Hpp Hline Hpts Hind.
  unfold ParseGeometry. rewrite Hpp. cbn [negb]. rewrite ASSERT_true.
  cbn [mbind result_bind]. rewrite Hh2. cbn [mbind result_bind].
  rewrite Hline, Hpts, Hind. cbn [mbind result_bind].
  change (negb (-1 =? -1)) with false. cbv iota.
  cbn [mbind result_bind]. rewrite Hpts. reflexivity.
Qed.

(** [ParseGeometry] on a feature without the line flag only marks the
    stage. *)
Lemma ParseGeometry_no_line (scale : Z) (s s1 : FeatureType) :
  (if negb (m_bHeader2Parsed s) then ParseHeader2 s else Ok s) = Ok s1 ->
  m_bPointsParsed s = false ->
  has_flag (Header (base s1)) HEADER_IS_LINE = false ->
  ParseGeometry scale s = Ok (0, set_bPointsParsed true s1).
Proof.
  intros Hh2 Hpp Hline.
  unfold ParseGeometry. rewrite Hpp. cbn [negb]. rewrite ASSERT_true.
  cbn [mbind result_bind]. rewrite Hh2. cbn [mbind result_bind].
  rewrite Hline. reflexivity.
Qed.

Lemma ParseTriangles_missing (scale : Z) (s s1 : FeatureType) :
  (if negb (m_bHeader2Parsed s) then ParseHeader2 s else Ok s) = Ok s1 ->
  m_bTrianglesParsed s = false ->
  has_flag (Header (base s1)) HEADER_IS_AREA = true ->
  m_Triangles s1 = [] ->
  GetScaleIndex_offsets (m_header s1) scale (m_trgOffsets s1) = Ok (-1) ->
  ParseTriangles scale s =
    Ok (0, set_bTrianglesParsed true
             (set_base (set_LimitRect_base (FeatureBase.m_LimitRect (base s1)) (base s1))
                s1)).
Proof.
  intros Hh2 Hpp Harea Htrg Hind.
  unfold ParseTriangles. rewrite Hpp. cbn [negb]. rewrite ASSERT_true.
  cbn [mbind result_bind]. rewrite Hh2. cbn [mbind result_bind].
  rewrite Harea, Htrg, Hind. cbn [mbind result_bind].
  change (negb (u32 (-1) =? u32 (-1))) with false. cbv iota.
  cbn [mbind result_bind]. rewrite Htrg. reflexivity.
Qed.

Lemma ParseTriangles_no_area (scale : Z) (s s1 : FeatureType) :
  (if negb (m_bHeader2Parsed s) then ParseHeader2 s else Ok s) = Ok s1 ->
  m_bTrianglesParsed s = false ->
  has_flag (Header (base s1)) HEADER_IS_AREA = false ->
  ParseTriangles scale s = Ok (0, set_bTrianglesParsed true s1).
Proof.
  intros Hh2 Hpp Harea.
  unfold ParseTriangles. rewrite Hpp. cbn [negb]. rewrite ASSERT_true.
  cbn [mbind result_bind]. rewrite Hh2. cbn [mbind result_bind].
  rewrite Harea. reflexivity.
Qed.

(** What [ParseGeometry] leaves of the state reached after header2. *)
Lemma ParseGeometry_keeps_triangles (scale : Z) (s s1 s2 : FeatureType) z :
  (if negb (m_bHeader2Parsed s) then ParseHeader2 s else Ok s) = Ok s1 ->
  ParseGeometry scale s = Ok (z, s2) ->
  m_Triangles s2 = m_Triangles s1 /\ m_trgOffsets s2 = m_trgOffsets s1 /\
  m_header s2 = m_header s1 /\ Header (base s2) = Header (base s1) /\
  m_bTrianglesParsed s2 = m_bTrianglesParsed s1 /\ m_bHeader2Parsed s2 = true.
Proof.
  intros Hh2 Hrun.
  destruct (with_header2_frame s s1 Hh2) as (Hh2' & _).
  unfold ParseGeometry in Hrun. bind_inv Hrun. rewrite Hh2 in Hrun.
  cbn [mbind result_bind] in Hrun. clear E a.
  run_inv Hrun; injection Hrun as <- <-; cbn; auto 10.
Qed.

Lemma ParseTriangles_keeps_points (scale : Z) (s s1 s2 : FeatureType) z :
  (if negb (m_bHeader2Parsed s) then ParseHeader2 s else Ok s) = Ok s1 ->
  ParseTriangles scale s = Ok (z, s2) ->
  m_Points s2 = m_Points s1 /\ Header (base s2) = Header (base s1).
Proof.
  intros Hh2 Hrun.
  unfold ParseTriangles in Hrun. bind_inv Hrun. rewrite Hh2 in Hrun.
  cbn [mbind result_bind] in Hrun. clear E a.
  run_inv Hrun; injection Hrun as <- <-; cbn; auto.
Qed.

(** [IsEmptyGeometry] on a feature of line kind whose line is missing:
    whenever it returns, it returns [true]. *)
Lemma IsEmptyGeometry_line_missing (scale : Z) (s s1 : FeatureType) :
  (if negb (m_bHeader2Parsed s) then ParseHeader2 s else Ok s) = Ok s1 ->
  m_bPointsParsed s = false ->
  has_flag (Header (base s1)) HEADER_IS_LINE = true ->
  m_Points s1 = [] ->
  GetScaleIndex_offsets (m_header s1) scale (m_ptsOffsets s1) = Ok (-1) ->
  GetFeatureType (Header (base s)) = FEATURE_TYPE_LINE ->
  forall b s'', IsEmptyGeometry scale s = Ok (b, s'') -> b = true.
Proof.
  intros Hh2 Hpp Hline Hpts Hind Hkind b s'' Hrun.
  destruct (with_header2_frame s s1 Hh2) as (Hh2' & Hpp1 & Htp1 & Hop1 & Hhdr1).
  pose proof (ParseGeometry_missing scale s s1 Hh2 Hpp Hline Hpts Hind) as Hgeo.
  unfold IsEmptyGeometry, ParseAll in Hrun. rewrite Hpp in Hrun. cbn [negb] in Hrun.
  rewrite Hgeo in Hrun. cbn [mbind result_bind] in Hrun.
  set (s2 := set_bPointsParsed true _) in Hrun.
  assert (Hs2 : (if negb (m_bHeader2Parsed s2) then ParseHeader2 s2 else Ok s2) = Ok s2).
  { replace (m_bHeader2Parsed s2) with true by (symmetry; exact Hh2'). reflexivity. }
  assert (Hs2h : Header (base s2) = Header (base s))
    by (transitivity (Header (base s1)); [reflexivity|exact Hhdr1]).
  assert (Hs2p : m_Points s2 = []) by exact Hpts.
  destruct (m_bTrianglesParsed s2); cbn [negb mbind result_bind] in Hrun.
  - rewrite Hs2h, Hkind, Hs2p in Hrun. now injection Hrun as <- _.
  - destruct (ParseTriangles scale s2) as [[z s3]|e] eqn:E;
      cbn [mbind result_bind] in Hrun; [|discriminate Hrun].
    destruct (ParseTriangles_keeps_points scale s2 s2 s3 z Hs2 E) as (Hp3 & Hh3).
    rewrite Hh3, Hs2h, Hkind, Hp3, Hs2p in Hrun. now injection Hrun as <- _.
Qed.

(** The same for a feature of area kind whose triangles are missing. *)
Lemma IsEmptyGeometry_area_missing (scale : Z) (s s1 : FeatureType) :
  (if negb (m_bHeader2Parsed s) then ParseHeader2 s else Ok s) = Ok s1 ->
  m_bTrianglesParsed s = false ->
  has_flag (Header (base s1)) HEADER_IS_AREA = true ->
  m_Triangles s1 = [] ->
  GetScaleIndex_offsets (m_header s1) scale (m_trgOffsets s1) = Ok (-1) ->
  GetFeatureType (Header (base s)) = FEATURE_TYPE_AREA ->
  forall b s'', IsEmptyGeometry scale s = Ok (b, s'') -> b = true.
Proof.
  intros Hh2 Htp Harea Htrg Hind Hkind b s'' Hrun.
  destruct (with_header2_frame s s1 Hh2) as (Hh2' & Hpp1 & Htp1 & Hop1 & Hhdr1).
  unfold IsEmptyGeometry, ParseAll in Hrun.
  destruct (m_bPointsParsed s) eqn:Hpp; cbn [negb mbind result_bind] in Hrun.
  - rewrite Htp in Hrun. cbn [negb] in Hrun.
    rewrite (ParseTriangles_missing scale s s1 Hh2 Htp Harea Htrg Hind) in Hrun.
    cbn [mbind result_bind] in Hrun.
    replace (Header (base _)) with (Header (base s)) in Hrun
      by (transitivity (Header (base s1)); [symmetry; exact Hhdr1|reflexivity]).
    rewrite Hkind in Hrun. cbn in Hrun. rewrite Htrg in Hrun.
    now injection Hrun as <- _.
  - destruct (ParseGeometry scale s) as [[z s2]|e] eqn:E;
      cbn [mbind result_bind] in Hrun; [|discriminate Hrun].
    destruct (ParseGeometry_keeps_triangles scale s s1 s2 z Hh2 E)
      as (Ht2 & Ho2 & Hhd2 & Hh2s & Htp2 & Hh22).
    assert (Hs2 : (if negb (m_bHeader2Parsed s2) then ParseHeader2 s2 else Ok s2) = Ok s2)
      by (rewrite Hh22; reflexivity).
    replace (m_bTrianglesParsed s2) with false in Hrun by congruence.
    cbn [negb] in Hrun.
    rewrite (ParseTriangles_missing scale s2 s2 Hs2) in Hrun;
      [|congruence|congruence|congruence|congruence].
    cbn [mbind result_bind] in Hrun.
    replace (Header (base _)) with (Header (base s)) in Hrun
      by (transitivity (Header (base s2)); [congruence|reflexivity]).
    rewrite Hkind in Hrun. cbn in Hrun. rewrite Ht2, Htrg in Hrun.
    now injection Hrun as <- _.
Qed.

(** C7.  For a line whose geometry is outer (no inline point after
    header2) and whose scale-index resolution over the stored offsets
    returns -1, [ParseGeometry] completes with size 0, leaves the point list
    empty and obtains no reader from the container; [ParseTriangles] does
    the same for an area.  [IsEmptyGeometry] at that scale then answers
    [true] for a feature of that kind whenever it returns, and it does
    return, without touching the container, when the feature carries no
    geometry of the other kind. *)
Theorem missing_outer_geometry_is_soft (scale : Z) (s s1 : FeatureType) :
  (if negb (m_bHeader2Parsed s) then ParseHeader2 s else Ok s) = Ok s1 ->
  (m_bPointsParsed s = false ->
   has_flag (Header (base s1)) HEADER_IS_LINE = true ->
   m_Points s1 = [] ->
   GetScaleIndex_offsets (m_header s1) scale (m_ptsOffsets s1) = Ok (-1) ->
   (exists s', ParseGeometry scale s = Ok (0, s') /\
               m_Points s' = [] /\ opened s' = opened s /\ m_bPointsParsed s' = true) /\
   (GetFeatureType (Header (base s)) = FEATURE_TYPE_LINE ->
    (forall b s'', IsEmptyGeometry scale s = Ok (b, s'') -> b = true) /\
    (has_flag (Header (base s1)) HEADER_IS_AREA = false ->
     exists s'', IsEmptyGeometry scale s = Ok (true, s'') /\ opened s'' = opened s))) /\
  (m_bTrianglesParsed s = false ->
   has_flag (Header (base s1)) HEADER_IS_AREA = true ->
   m_Triangles s1 = [] ->
   GetScaleIndex_offsets (m_header s1) scale (m_trgOffsets s1) = Ok (-1) ->
   (exists s', ParseTriangles scale s = Ok (0, s') /\
               m_Triangles s' = [] /\ opened s' = opened s /\
               m_bTrianglesParsed s' = true) /\
   (GetFeatureType (Header (base s)) = FEATURE_TYPE_AREA ->
    (forall b s'', IsEmptyGeometry scale s = Ok (b, s'') -> b = true) /\
    (has_flag (Header (base s1)) HEADER_IS_LINE = false ->
     exists s'', IsEmptyGeometry scale s = Ok (true, s'') /\ opened s'' = opened s))).
Proof.
  intros Hh2.
  destruct (with_header2_frame s s1 Hh2) as (Hh2' & Hpp1 & Htp1 & Hop1 & Hhdr1).
  split.
  - intros Hpp Hline Hpts Hind.
    pose proof (ParseGeometry_missing scale s s1 Hh2 Hpp Hline Hpts Hind) as Hgeo.
    split.
    + eexists. split; [exact Hgeo|]. cbn. auto.
    + intros Hkind.
      split; [now apply (IsEmptyGeometry_line_missing scale s s1)|].
      intros Harea.
      unfold IsEmptyGeometry, ParseAll. rewrite Hpp. cbn [negb].
      rewrite Hgeo. cbn [mbind result_bind].
      set (s2 := set_bPointsParsed true _).
      destruct (m_bTrianglesParsed s) eqn:Htp.
      * replace (m_bTrianglesParsed s2) with true by (cbn; congruence).
        cbn [negb mbind result_bind].
        replace (Header (base s2)) with (Header (base s))
          by (transitivity (Header (base s1)); [symmetry; exact Hhdr1|reflexivity]).
        rewrite Hkind. eexists.
        split; [cbn; rewrite Hpts; reflexivity|cbn; exact Hop1].
      * rewrite (ParseTriangles_no_area scale s2 s2).
        -- cbn [mbind result_bind negb].
           replace (m_bTrianglesParsed s2) with false by (cbn; congruence).
           cbn [negb mbind result_bind].
           replace (Header (base (set_bTrianglesParsed true s2))) with (Header (base s))
             by (transitivity (Header (base s1)); [symmetry; exact Hhdr1|reflexivity]).
           rewrite Hkind. eexists.
           split; [cbn; rewrite Hpts; reflexivity|cbn; exact Hop1].
        -- cbn. rewrite Hh2'. reflexivity.
        -- cbn. congruence.
        -- cbn. exact Harea.
  - intros Htp Harea Htrg Hind.
    pose proof (ParseTriangles_missing scale s s1 Hh2 Htp Harea Htrg Hind) as Htri.
    split.
    + eexists. split; [exact Htri|]. cbn. auto.
    + intros Hkind.
      split; [now apply (IsEmptyGeometry_area_missing scale s s1)|].
      intros Hline.
      unfold IsEmptyGeometry, ParseAll.
      destruct (m_bPointsParsed s) eqn:Hpp; cbn [negb mbind result_bind].
      * rewrite Htp. cbn [negb]. rewrite Htri. cbn [mbind result_bind].
        replace (Header (base _)) with (Header (base s))
          by (transitivity (Header (base s1)); [symmetry; exact Hhdr1|reflexivity]).
        rewrite Hkind. eexists.
        split; [cbn; rewrite Htrg; reflexivity|cbn; exact Hop1].
      * rewrite (ParseGeometry_no_line scale s s1 Hh2 Hpp Hline).
        cbn [mbind result_bind].
        set (s2 := set_bPointsParsed true s1).
        replace (m_bTrianglesParsed s2) with false by (cbn; congruence).
        cbn [negb].
        rewrite (ParseTriangles_missing scale s2 s2).
        -- cbn [mbind result_bind].
           replace (Header (base _)) with (Header (base s))
             by (transitivity (Header (base s1)); [symmetry; exact Hhdr1|reflexivity]).
           rewrite Hkind. eexists.
           split; [cbn; rewrite Htrg; reflexivity|cbn; exact Hop1].
        -- cbn. rewrite Hh2'. reflexivity.
        -- cbn. congruence.
        -- cbn. exact Harea.
        -- cbn. exact Htrg.
        -- cbn. exact Hind.
Qed.

End MissingGeometry.

Definition outer_line_missing : FeatureType (G := GridGeom) (DC := GridDecls) :=
  grid_reader_after_header2 65 [] [] 0 [kInvalidOffset; 500; 0; 0] [0; 0; 0; 0].

Lemma missing_outer_geometry_is_soft_witness :
  exists s'', IsEmptyGeometry (BM := true) 3 outer_line_missing = Ok (true, s'') /\
              opened s'' = [].
Proof.
  destruct (missing_outer_geometry_is_soft (BM := true) 3 outer_line_missing
              outer_line_missing eq_refl) as [Hline _].
  destruct Hline as [_ Hempty]; [reflexivity|reflexivity|reflexivity|reflexivity|].
  destruct Hempty as [_ Hreturns]; [reflexivity|].
  apply Hreturns; reflexivity.
Defined.

(** ** The stage machine *)

(** The ASSERT with which a stage refuses to run twice. *)
Definition is_stage_assert (e : error) : bool :=
  match e with
  | AssertFailed expr =>
      String.eqb expr "!m_bTypesParsed" ||
      String.eqb expr "!m_bCommonParsed" ||
      String.eqb expr "!m_bHeader2Parsed" ||
      String.eqb expr "!m_bPointsParsed" ||
      String.eqb expr "!m_bTrianglesParsed"
  | _ => false
  end.

(** A computation whose failures are never a stage ASSERT. *)
Definition data_fails {A} (c : result A) : Prop :=
  forall e, c = Fail e -> is_stage_assert e = false.

Lemma data_fails_Ok {A} (a : A) : data_fails (Ok a).
Proof. intros e He. discriminate. Qed.

Lemma data_fails_bind {A B} (c : result A) (k : A -> result B) :
  data_fails c -> (forall a, c = Ok a -> data_fails (k a)) -> data_fails (c ≫= k).
Proof.
  intros Hc Hk e. unfold mbind, result_bind. destruct c as [a|e0].
  - now apply Hk.
  - intros [= <-]. now apply Hc.
Qed.

Lemma data_fails_ASSERT {BM : BuildMode} c (expr : string) :
  is_stage_assert (AssertFailed expr) = false -> data_fails (ASSERT c expr).
Proof.
  intros Hexpr e. unfold ASSERT. destruct (DEBUG && negb c); [|discriminate].
  now intros [= <-].
Qed.

Lemma data_fails_decoded {A} (o : option A) : data_fails (decoded o).
Proof. intros e. destruct o; [discriminate|]. now intros [= <-]. Qed.

Lemma data_fails_ReadVarUint_loop src : forall shift acc,
  data_fails (ReadVarUint_loop src shift acc).
Proof.
  induction src as [|b rest IH]; intros shift acc; cbn [ReadVarUint_loop].
  - intros e [= <-]. reflexivity.
  - destruct (b <? 128); [apply data_fails_Ok|apply IH].
Qed.

Lemma data_fails_ReadVarUint32 src : data_fails (ReadVarUint32 src).
Proof.
  apply data_fails_bind; [apply data_fails_ReadVarUint_loop|].
  intros [v rest] _. apply data_fails_Ok.
Qed.

Lemma data_fails_ReadVarUint64 src : data_fails (ReadVarUint64 src).
Proof.
  apply data_fails_bind; [apply data_fails_ReadVarUint_loop|].
  intros [v rest] _. apply data_fails_Ok.
Qed.

Lemma data_fails_ReadVarInt32 src : data_fails (ReadVarInt32 src).
Proof.
  apply data_fails_bind; [apply data_fails_ReadVarUint_loop|].
  intros [v rest] _. apply data_fails_Ok.
Qed.

Lemma data_fails_ReadBytes n src : data_fails (ReadBytes n src).
Proof.
  unfold ReadBytes. destruct (n <=? length src)%nat; [apply data_fails_Ok|].
  intros e [= <-]. reflexivity.
Qed.

Lemma data_fails_if {A} (c : bool) (x y : result A) :
  data_fails x -> data_fails y -> data_fails (if c then x else y).
Proof. destruct c; auto. Qed.

Create HintDb fails discriminated.
#[local] Hint Resolve data_fails_Ok data_fails_decoded data_fails_ReadVarUint32
  data_fails_ReadVarUint64 data_fails_ReadVarInt32 data_fails_ReadBytes : fails.

(** Splits a goal [data_fails c] along the binds and branches of [c]. *)
Ltac fails_step :=
  match goal with
  | |- data_fails (Ok _) => apply data_fails_Ok
  | |- data_fails (Fail OutOfRange) => intros ? [= <-]; reflexivity
  | |- data_fails (ASSERT _ _) => apply data_fails_ASSERT; reflexivity
  | |- data_fails (_ ≫= _) => apply data_fails_bind; [|intros ? _]
  | |- data_fails (if _ then _ else _) => apply data_fails_if
  | |- data_fails (let '(_, _) := ?p in _) => destruct p
  | |- data_fails (match ?o with Some _ => _ | None => _ end) => destruct o
  | |- data_fails (match ?l with [] => _ | _ :: _ => _ end) => destruct l
  | |- data_fails _ => solve [auto with fails]
  end.

Section StageFailures.
Context {BM : BuildMode} {G : Geom} {DC : Decls}.

Lemma data_fails_ParseTypes_loop count : forall i types source,
  data_fails (ParseTypes_loop count i types source).
Proof.
  induction count as [|count IH]; intros i types source; cbn [ParseTypes_loop].
  - apply data_fails_Ok.
  - repeat fails_step; try apply IH.
Qed.

Lemma data_fails_ParseTypes (f : FeatureBase) :
  FeatureBase.m_bTypesParsed f = false -> data_fails (ParseTypes f).
Proof.
  intros Hflag. unfold ParseTypes. rewrite Hflag. cbn [negb]. rewrite ASSERT_true.
  repeat fails_step; try apply data_fails_ParseTypes_loop.
Qed.

Lemma data_fails_ParseCommon (f : FeatureBase) :
  FeatureBase.m_bCommonParsed f = false -> data_fails (ParseCommon f).
Proof.
  intros Hflag. unfold ParseCommon. rewrite Hflag. cbn [negb]. rewrite ASSERT_true.
  fails_step; [apply data_fails_Ok|].
  fails_step.
  { destruct (FeatureBase.m_bTypesParsed f) eqn:Ht; cbn [negb];
      [apply data_fails_Ok|now apply data_fails_ParseTypes]. }
  repeat fails_step.
Qed.

Lemma data_fails_BitSource_Read count (s : BitSource) : data_fails (BitSource_Read count s).
Proof. unfold BitSource_Read. repeat fails_step. Qed.

Lemma data_fails_ReadOffsets_loop n hdr : forall src mask index offsets,
  data_fails (ReadOffsets_loop n hdr src mask index offsets).
Proof.
  induction n as [|n IH]; intros src mask index offsets; cbn [ReadOffsets_loop].
  - apply data_fails_Ok.
  - repeat fails_step; try apply IH.
Qed.

Lemma data_fails_ReadOffsets hdr src mask offsets :
  data_fails (ReadOffsets hdr src mask offsets).
Proof. unfold ReadOffsets. repeat fails_step; try apply data_fails_ReadOffsets_loop. Qed.

Lemma data_fails_ReadSimpMask_loop count : forall i src simpMask,
  data_fails (ReadSimpMask_loop count i src simpMask).
Proof.
  induction count as [|count IH]; intros i src simpMask; cbn [ReadSimpMask_loop].
  - apply data_fails_Ok.
  - repeat fails_step; try apply IH.
Qed.

Lemma data_fails_Strip_loop n : forall i (points triangles : points_t),
  data_fails (Strip_loop n i points triangles).
Proof.
  induction n as [|n IH]; intros i points triangles; cbn [Strip_loop].
  - apply data_fails_Ok.
  - destruct (points !! (i - 2)%nat); [|repeat fails_step].
    destruct (points !! (i - 1)%nat); [|repeat fails_step].
    destruct (points !! i); [apply IH|repeat fails_step].
Qed.

#[local] Hint Resolve data_fails_BitSource_Read data_fails_ReadOffsets
  data_fails_ReadSimpMask_loop data_fails_Strip_loop : fails.

Lemma data_fails_ParseHeader2 (s : FeatureType) :
  m_bHeader2Parsed s = false -> data_fails (ParseHeader2 s).
Proof.
  intros Hflag. unfold ParseHeader2. rewrite Hflag. cbn [negb]. rewrite ASSERT_true.
  fails_step; [apply data_fails_Ok|].
  fails_step.
  { destruct (FeatureBase.m_bCommonParsed (base s)) eqn:Hc; cbn [negb];
      [apply data_fails_Ok|].
    unfold ParseBase. fails_step; [now apply data_fails_ParseCommon|apply data_fails_Ok]. }
  repeat fails_step.
Qed.

Lemma data_fails_offsets_while offsets n : data_fails (offsets_while offsets n).
Proof.
  induction n as [|k IH]; cbn [offsets_while]; [apply data_fails_Ok|].
  repeat fails_step; try exact IH.
Qed.

Lemma data_fails_offsets_for scale offsets scales : forall i,
  data_fails (offsets_for scale offsets i scales).
Proof.
  induction scales as [|s scales IH]; intros i; cbn [offsets_for];
    [apply data_fails_Ok|].
  repeat fails_step; try apply IH.
Qed.

Lemma data_fails_GetScaleIndex_offsets h scale offsets :
  data_fails (GetScaleIndex_offsets h scale offsets).
Proof.
  unfold GetScaleIndex_offsets.
  apply data_fails_if; [|apply data_fails_offsets_for].
  apply data_fails_bind; [apply data_fails_offsets_while|]. intros i _.
  apply data_fails_if; [apply data_fails_Ok|]. intros e [= <-]. reflexivity.
Qed.

#[local] Hint Resolve data_fails_GetScaleIndex_offsets : fails.

Lemma data_fails_with_header2 (s : FeatureType) :
  data_fails (if negb (m_bHeader2Parsed s) then ParseHeader2 s else Ok s).
Proof.
  destruct (m_bHeader2Parsed s) eqn:Hh; cbn [negb];
    [apply data_fails_Ok|now apply data_fails_ParseHeader2].
Qed.

Lemma data_fails_ParseGeometry scale (s : FeatureType) :
  m_bPointsParsed s = false -> data_fails (ParseGeometry scale s).
Proof.
  intros Hflag. unfold ParseGeometry. rewrite Hflag. cbn [negb]. rewrite ASSERT_true.
  fails_step; [apply data_fails_Ok|].
  fails_step; [apply data_fails_with_header2|].
  repeat fails_step.
Qed.

Lemma data_fails_ParseTriangles scale (s : FeatureType) :
  m_bTrianglesParsed s = false -> data_fails (ParseTriangles scale s).
Proof.
  intros Hflag. unfold ParseTriangles. rewrite Hflag. cbn [negb]. rewrite ASSERT_true.
  fails_step; [apply data_fails_Ok|].
  fails_step; [apply data_fails_with_header2|].
  repeat fails_step.
Qed.

(** [ParseAll] never trips the ASSERT of a stage: it calls a stage only
    when the stage has not run. *)
Lemma data_fails_ParseAll scale (s : FeatureType) : data_fails (ParseAll scale s).
Proof.
  unfold ParseAll.
  fails_step.
  { destruct (m_bPointsParsed s) eqn:Hp; cbn [negb]; [apply data_fails_Ok|].
    fails_step; [now apply data_fails_ParseGeometry|]. repeat fails_step. }
  fails_step; [|apply data_fails_Ok].
  match goal with |- context [m_bTrianglesParsed ?x] => rename x into s1 end.
  destruct (m_bTrianglesParsed s1) eqn:Ht; cbn [negb]; [apply data_fails_Ok|].
  fails_step; [now apply data_fails_ParseTriangles|]. repeat fails_step.
Qed.

End StageFailures.

Section StageMachine.
Context {BM : BuildMode} {G : Geom} {DC : Decls}.

(** Every stage up to header2 has run. *)
Definition header2_done (s : FeatureType) : Prop :=
  FeatureBase.m_bTypesParsed (base s) = true /\
  FeatureBase.m_bCommonParsed (base s) = true /\
  m_bHeader2Parsed s = true.

Lemma with_header2_done (s s1 : FeatureType) :
  stages_ok s ->
  (if negb (m_bHeader2Parsed s) then ParseHeader2 s else Ok s) = Ok s1 ->
  header2_done s1.
Proof.
  intros Hok. destruct (m_bHeader2Parsed s) eqn:Hh2; cbn [negb]; intros Hrun.
  - injection Hrun as <-. destruct Hok as (Htc & Hch & _).
    unfold header2_done. auto.
  - apply ParseHeader2_frame in Hrun as (Hh & Hc & Ht & _). unfold header2_done. auto.
Qed.

Lemma ParseGeometry_frame scale (s s' : FeatureType) z :
  ParseGeometry scale s = Ok (z, s') ->
  m_bPointsParsed s' = true /\
  m_bTrianglesParsed s' = m_bTrianglesParsed s /\
  m_bHeader2Parsed s' = true /\
  (stages_ok s -> header2_done s').
Proof.
  intros Hrun. unfold ParseGeometry in Hrun.
  bind_inv Hrun. bind_inv Hrun. rename a0 into s1.
  pose proof (with_header2_frame s s1 E0) as (Hh2 & _ & Htp & _).
  assert (Hdone : stages_ok s -> header2_done s1)
    by (intros Hok; exact (with_header2_done s s1 Hok E0)).
  rewrite <- Htp. clear E0 Htp E a.
  run_inv Hrun; injection Hrun as <- <-; cbn;
    (split; [reflexivity|]; split; [reflexivity|]; split; [assumption|]; exact Hdone).
Qed.

Lemma ParseTriangles_frame scale (s s' : FeatureType) z :
  ParseTriangles scale s = Ok (z, s') ->
  m_bTrianglesParsed s' = true /\
  m_bPointsParsed s' = m_bPointsParsed s /\
  m_bHeader2Parsed s' = true /\
  (stages_ok s -> header2_done s').
Proof.
  intros Hrun. unfold ParseTriangles in Hrun.
  bind_inv Hrun. bind_inv Hrun. rename a0 into s1.
  pose proof (with_header2_frame s s1 E0) as (Hh2 & Hpp & _ & _).
  assert (Hdone : stages_ok s -> header2_done s1)
    by (intros Hok; exact (with_header2_done s s1 Hok E0)).
  rewrite <- Hpp. clear E0 Hpp E a.
  run_inv Hrun; injection Hrun as <- <-; cbn;
    (split; [reflexivity|]; split; [reflexivity|]; split; [assumption|]; exact Hdone).
Qed.

Lemma ParseAll_parsed scale (s : FeatureType) :
  m_bPointsParsed s = true -> m_bTrianglesParsed s = true -> ParseAll scale s = Ok s.
Proof. intros Hp Ht. unfold ParseAll. rewrite Hp. cbn. rewrite Ht. reflexivity. Qed.

Lemma ParseAll_frame scale (s s' : FeatureType) :
  ParseAll scale s = Ok s' ->
  m_bPointsParsed s' = true /\ m_bTrianglesParsed s' = true /\
  (stages_ok s -> header2_done s').
Proof.
  intros Hrun. unfold ParseAll in Hrun.
  bind_inv Hrun. rename a into s1. rename E into E1.
  bind_inv Hrun. rename a into s2. rename E into E2.
  injection Hrun as <-.
  assert (H1 : m_bPointsParsed s1 = true /\
               m_bTrianglesParsed s1 = m_bTrianglesParsed s /\
               (stages_ok s -> stages_ok s1) /\
               (stages_ok s -> m_bTrianglesParsed s = true -> header2_done s1)).
  { destruct (m_bPointsParsed s) eqn:Hp; cbn [negb] in E1.
    - injection E1 as <-. split; [assumption|]. split; [reflexivity|].
      split; [auto|]. intros (Htc & Hch & _ & Hth) Ht. unfold header2_done. auto.
    - bind_inv E1. destruct a as [z s0]. injection E1 as <-.
      apply ParseGeometry_frame in E as (Hp' & Ht' & Hh' & Hdone).
      split; [assumption|]. split; [assumption|].
      split; [|intros Hok _; auto].
      intros Hok. destruct (Hdone Hok) as (Hty & Hc & Hh). unfold stages_ok. auto. }
  destruct H1 as (Hp1 & Ht1 & Hok1 & Hdone1).
  destruct (m_bTrianglesParsed s1) eqn:Ht; cbn [negb] in E2.
  - injection E2 as <-. split; [assumption|]. split; [assumption|].
    intros Hok. apply Hdone1; [assumption|congruence].
  - bind_inv E2. destruct a as [z s0]. injection E2 as <-.
    apply ParseTriangles_frame in E as (Ht' & Hp' & Hh' & Hdone).
    split; [congruence|]. split; [assumption|]. auto.
Qed.

(** C9 (as amended).  The stages form the chain types, common, header2,
    then points and triangles.  A stage that completes has run every
    prerequisite that was missing, so on a reader whose flags respect the
    chain all earlier stages are marked when it is done.  A stage is not
    idempotent: it ASSERTs that it has not run, so calling it again trips
    that ASSERT in a DEBUG build.  [ParseAll(scale)] is the idempotent
    entry: it calls a stage only when its flag is clear, so it never trips
    such an ASSERT, it leaves both the points-parsed and the
    triangles-parsed flag set, and a second call changes nothing. *)
Theorem parse_stage_machine (scale scale' : Z) (s : FeatureType) :
  stages_ok s ->
  (forall f', ParseTypes (base s) = Ok f' ->
     FeatureBase.m_bTypesParsed f' = true) /\
  (forall f', ParseCommon (base s) = Ok f' ->
     FeatureBase.m_bTypesParsed f' = true /\ FeatureBase.m_bCommonParsed f' = true) /\
  (forall s', ParseHeader2 s = Ok s' -> header2_done s') /\
  (forall z s', ParseGeometry scale s = Ok (z, s') ->
     header2_done s' /\ m_bPointsParsed s' = true /\
     ParseGeometry (BM := true) scale' s' = Fail (AssertFailed "!m_bPointsParsed")) /\
  (forall z s', ParseTriangles scale s = Ok (z, s') ->
     header2_done s' /\ m_bTrianglesParsed s' = true /\
     ParseTriangles (BM := true) scale' s' = Fail (AssertFailed "!m_bTrianglesParsed")) /\
  (FeatureBase.m_bTypesParsed (base s) = true ->
     ParseTypes (BM := true) (base s) = Fail (AssertFailed "!m_bTypesParsed")) /\
  (FeatureBase.m_bCommonParsed (base s) = true ->
     ParseCommon (BM := true) (base s) = Fail (AssertFailed "!m_bCommonParsed")) /\
  (m_bHeader2Parsed s = true ->
     ParseHeader2 (BM := true) s = Fail (AssertFailed "!m_bHeader2Parsed")) /\
  (forall s', ParseAll scale s = Ok s' ->
     header2_done s' /\ m_bPointsParsed s' = true /\ m_bTrianglesParsed s' = true /\
     ParseAll scale' s' = Ok s') /\
  (forall e, ParseAll scale s = Fail e -> is_stage_assert e = false).
Proof.
  intros Hok.
  split; [intros f' Hrun; apply ParseTypes_frame in Hrun; tauto|].
  split; [intros f' Hrun; apply ParseCommon_frame in Hrun; tauto|].
  split.
  { intros s' Hrun. apply ParseHeader2_frame in Hrun as (Hh & Hc & Ht & _).
    unfold header2_done. auto. }
  split.
  { intros z s' Hrun. apply ParseGeometry_frame in Hrun as (Hp & _ & _ & Hdone).
    split; [auto|]. split; [assumption|].
    unfold ParseGeometry. rewrite Hp. reflexivity. }
  split.
  { intros z s' Hrun. apply ParseTriangles_frame in Hrun as (Ht & _ & _ & Hdone).
    split; [auto|]. split; [assumption|].
    unfold ParseTriangles. rewrite Ht. reflexivity. }
  split; [intros Hflag; unfold ParseTypes; rewrite Hflag; reflexivity|].
  split; [intros Hflag; unfold ParseCommon; rewrite Hflag; reflexivity|].
  split; [intros Hflag; unfold ParseHeader2; rewrite Hflag; reflexivity|].
  split.
  { intros s' Hrun. apply ParseAll_frame in Hrun as (Hp & Ht & Hdone).
    split; [auto|]. split; [assumption|]. split; [assumption|].
    now apply ParseAll_parsed. }
  exact (data_fails_ParseAll scale s).
Qed.

End StageMachine.

Lemma parse_stage_machine_witness :
  exists s',
    ParseAll (BM := true) 12 (grid_reader inline_line_bytes) = Ok s' /\
    m_Points s' = [(0, 0); (1, 1); (2, 0)] /\
    m_bPointsParsed s' = true /\ m_bTrianglesParsed s' = true /\
    ParseAll (BM := true) 7 s' = Ok s'.
Proof.
  assert (Hok : stages_ok (grid_reader inline_line_bytes))
    by (repeat split; discriminate).
  destruct (parse_stage_machine (BM := true) 12 7 (grid_reader inline_line_bytes) Hok)
    as (_ & _ & _ & _ & _ & _ & _ & _ & Hall & _).
  let r := eval vm_compute in (ParseAll (BM := true) 12 (grid_reader inline_line_bytes)) in
  match r with
  | Ok ?s =>
      exists s;
      assert (Hrun : ParseAll (BM := true) 12 (grid_reader inline_line_bytes) = Ok s)
        by (vm_compute; reflexivity)
  end.
  destruct (Hall _ Hrun) as (_ & Hp & Ht & Hagain).
  split; [exact Hrun|]. split; [reflexivity|].
  split; [exact Hp|]. split; [exact Ht|exact Hagain].
Defined.

(** C9 (as stated) fails where it calls a stage idempotent.  After one
    [ParseGeometry] on the five-vertex inline line a second call trips the
    ASSERT in a DEBUG build; without the ASSERT it filters the already
    filtered list once more and drops a further vertex. *)
Lemma ParseGeometry_not_idempotent :
  exists s1,
    ParseGeometry (BM := true) 12 inline_line_5 = Ok (0, s1) /\
    m_Points s1 = [(0, 0); (2, 0); (3, 1); (4, 0)] /\
    ParseGeometry (BM := true) 12 s1 = Fail (AssertFailed "!m_bPointsParsed") /\
    exists s2,
      ParseGeometry (BM := false) 12 s1 = Ok (0, s2) /\
      m_Points s2 = [(0, 0); (3, 1); (4, 0)] /\
      s2 <> s1.
Proof.
  let r := eval vm_compute in (ParseGeometry (BM := true) 12 inline_line_5) in
  match r with
  | Ok (_, ?s) => exists s; split; [vm_compute; reflexivity|]
  end.
  split; [reflexivity|]. split; [reflexivity|].
  match goal with
  | |- exists s2, ParseGeometry ?scale ?s1 = _ /\ _ =>
      let r := eval vm_compute in (ParseGeometry (BM := false) scale s1) in
      match r with
      | Ok (_, ?s) => exists s; split; [vm_compute; reflexivity|]
      end
  end.
  split; [reflexivity|]. intros Heq.
  apply (f_equal (fun s => length (m_Points s))) in Heq. discriminate Heq.
Qed.

(** ** Varints *)

Lemma land_127 v : 0 <= v -> Z.land v 127 = v mod 128.
Proof. intros Hv. change 127 with (Z.ones 7). now rewrite Z.land_ones by lia. Qed.

Lemma continuation_byte v :
  0 <= v ->
  Z.lor (Z.land v 127) 128 = v mod 128 + 128 /\
  Z.land (Z.lor (Z.land v 127) 128) 127 = v mod 128.
Proof.
  intros Hv. rewrite land_127 by assumption.
  pose proof (Z.mod_pos_bound v 128 ltac:(lia)) as Hm.
  assert (Hlor : Z.lor (v mod 128) 128 = v mod 128 + 128).
  { change 128 with (Z.shiftl 1 7) at 2. rewrite lor_shiftl_add; [lia|lia|].
    change (2 ^ 7) with 128. lia. }
  split; [exact Hlor|].
  rewrite Hlor, land_127 by lia.
  rewrite <- Z.add_mod_idemp_r, Z.mod_same, Z.add_0_r, Z.mod_mod by lia. reflexivity.
Qed.

Lemma WriteVarUint_loop_S n v :
  WriteVarUint_loop (S n) v =
    if v <? 128 then [v]
    else Z.lor (Z.land v 127) 128 :: WriteVarUint_loop n (Z.shiftr v 7).
Proof. reflexivity. Qed.

Lemma ReadVarUint_loop_last v rest shift acc :
  0 <= v < 128 -> 0 <= shift ->
  ReadVarUint_loop ([v] ++ rest) shift acc = Ok (acc + v * 2 ^ shift, rest).
Proof.
  intros Hv Hshift. cbn [app ReadVarUint_loop].
  replace (v <? 128) with true by (symmetry; apply Z.ltb_lt; lia).
  rewrite land_127, Z.mod_small, Z.shiftl_mul_pow2 by lia. reflexivity.
Qed.

(** Reading back what [WriteVarUint_loop] wrote, whatever follows it. *)
Lemma ReadVarUint_loop_Write n : forall v rest shift acc,
  0 <= v < 2 ^ (7 * Z.of_nat (S n)) -> 0 <= shift ->
  ReadVarUint_loop (WriteVarUint_loop (S n) v ++ rest) shift acc =
    Ok (acc + v * 2 ^ shift, rest).
Proof.
  induction n as [|n IH]; intros v rest shift acc Hv Hshift.
  - change (2 ^ (7 * Z.of_nat 1)) with 128 in Hv.
    rewrite WriteVarUint_loop_S.
    replace (v <? 128) with true by (symmetry; apply Z.ltb_lt; lia).
    apply ReadVarUint_loop_last; assumption.
  - rewrite WriteVarUint_loop_S. destruct (Z.ltb_spec v 128) as [Hlt|Hge].
    + apply ReadVarUint_loop_last; [lia|assumption].
    + destruct (continuation_byte v ltac:(lia)) as [Hbyte Hlow].
      pose proof (Z.mod_pos_bound v 128 ltac:(lia)) as Hm.
      cbn [app]. cbn [ReadVarUint_loop].
      replace (Z.lor (Z.land v 127) 128 <? 128) with false
        by (symmetry; apply Z.ltb_ge; lia).
      rewrite Hlow, IH.
      * f_equal. f_equal. rewrite Z.shiftl_mul_pow2, Z.shiftr_div_pow2 by lia.
        rewrite Z.pow_add_r by lia. change (2 ^ 7) with 128.
        pose proof (Z.div_mod v 128 ltac:(lia)). nia.
      * rewrite Z.shiftr_div_pow2 by lia. change (2 ^ 7) with 128.
        split; [apply Z.div_pos; lia|].
        apply Z.div_lt_upper_bound; [lia|].
        replace (7 * Z.of_nat (S (S n))) with (7 + 7 * Z.of_nat (S n)) in Hv by lia.
        rewrite Z.pow_add_r in Hv by lia. change (2 ^ 7) with 128 in Hv. lia.
      * lia.
Qed.

Lemma u64_range v : 0 <= u64 v < 2 ^ 64.
Proof. unfold u64. apply Z.mod_pos_bound. reflexivity. Qed.

Lemma u32_range v : 0 <= u32 v < 2 ^ 32.
Proof. unfold u32. apply Z.mod_pos_bound. reflexivity. Qed.

Lemma ReadVarUint64_Write v rest :
  ReadVarUint64 (WriteVarUint (u64 v) ++ rest) = Ok (u64 v, rest).
Proof.
  unfold ReadVarUint64, WriteVarUint.
  pose proof (u64_range v) as Hr.
  rewrite ReadVarUint_loop_Write; [|split; [lia|]|lia].
  - cbn [mbind result_bind]. rewrite Z.pow_0_r, Z.mul_1_r, Z.add_0_l.
    unfold u64 at 1. rewrite Z.mod_small by exact Hr. reflexivity.
  - eapply Z.lt_trans; [apply Hr|]. reflexivity.
Qed.

Lemma ReadVarUint32_Write v rest :
  ReadVarUint32 (WriteVarUint (u32 v) ++ rest) = Ok (u32 v, rest).
Proof.
  unfold ReadVarUint32, WriteVarUint.
  pose proof (u32_range v) as Hr.
  rewrite ReadVarUint_loop_Write; [|split; [lia|]|lia].
  - cbn [mbind result_bind]. rewrite Z.pow_0_r, Z.mul_1_r, Z.add_0_l.
    unfold u32 at 1. rewrite Z.mod_small by exact Hr. reflexivity.
  - eapply Z.lt_trans; [apply Hr|]. reflexivity.
Qed.

(** ** The hole containment filter *)

Section Holes.
Context {BM : BuildMode} {G : Geom}.

(** The front vertex of the ring lies in the region of [rgn]. *)
Definition front_inside (rgn : points_t) (ring : points_t) : bool :=
  match ring with
  | front :: _ => Region_Contains rgn front
  | [] => false
  end.

Lemma AddHoles_loop_filter (rgn : points_t) (holes : list points_t) : forall acc,
  Forall (fun ring => ring <> []) holes ->
  AddHoles_loop rgn holes acc = Ok (acc ++ List.filter (front_inside rgn) holes).
Proof.
  induction holes as [|ring holes IH]; intros acc Hne; cbn [AddHoles_loop List.filter].
  - now rewrite app_nil_r.
  - apply Forall_cons in Hne as [Hring Hne].
    destruct ring as [|front ring]; [contradiction|].
    rewrite bool_decide_false by discriminate. cbn [negb]. rewrite ASSERT_true.
    cbn [mbind result_bind front_inside]. rewrite IH by assumption.
    destruct (Region_Contains rgn front); [|reflexivity].
    now rewrite <- app_assoc.
Qed.

(** C6.  [SetAreaAddHoles] on candidate rings with at least one vertex each
    marks the feature as area and retains, in order, exactly the rings whose
    front vertex the region of the outer geometry contains; the others are
    dropped without an error.  A subsequent [Serialize] writes, after the
    base block and the outer path, the number of retained rings as the hole
    count, followed by the retained rings. *)
Theorem SetAreaAddHoles_filter (holes : list points_t) (b : FeatureBuilder1) :
  Forall (fun ring => ring <> []) holes ->
  Z.of_nat (length holes) < 2 ^ 32 ->
  let retained := List.filter (front_inside (m_Geometry b)) holes in
  exists b',
    SetAreaAddHoles holes b = Ok b' /\
    b' = set_Holes retained (set_bArea true b) /\
    m_Holes b' = retained /\
    Serialize_data b' =
      SerializeBase b' (0, 0) ++ SaveOuterPath (m_Geometry b) 0 ++
      WriteVarUint (Z.of_nat (length retained)) ++
      concat (map (fun ring => SaveOuterPath ring 0) retained) /\
    (forall data, FeatureBuilder1_Serialize b' = Ok data -> data = Serialize_data b') /\
    (CheckValid b' = Ok true ->
     FeatureBuilder1_Serialize (BM := false) b' = Ok (Serialize_data b')).
Proof.
  intros Hne Hlen retained.
  exists (set_Holes retained (set_bArea true b)).
  split.
  { unfold SetAreaAddHoles. destruct holes as [|ring holes]; [reflexivity|].
    cbn [set_Holes set_bArea m_Geometry m_Holes].
    rewrite AddHoles_loop_filter by assumption. reflexivity. }
  split; [reflexivity|]. split; [reflexivity|].
  split.
  { unfold Serialize_data. cbn [set_Holes set_bArea m_bArea m_bLinear m_Geometry m_Holes].
    rewrite orb_true_r. do 3 f_equal.
    unfold u32. rewrite Z.mod_small; [reflexivity|].
    split; [lia|]. eapply Z.le_lt_trans; [|exact Hlen].
    apply Nat2Z.inj_le. unfold retained.
    clear. induction holes as [|ring holes IH]; [reflexivity|].
    cbn [List.filter]. destruct (front_inside (m_Geometry b) ring); simpl; lia. }
  split.
  - intros data Hrun. unfold FeatureBuilder1_Serialize in Hrun.
    bind_inv Hrun. bind_inv Hrun. bind_inv Hrun. now injection Hrun as <-.
  - intros Hvalid. unfold FeatureBuilder1_Serialize. rewrite Hvalid. reflexivity.
Qed.

End Holes.

Lemma SetAreaAddHoles_filter_witness :
  exists b',
    SetAreaAddHoles (BM := true) (G := GridGeom) [grid_hole_outside; grid_hole_inside]
      grid_area = Ok b' /\
    m_Holes b' = [grid_hole_inside] /\
    FeatureBuilder1_Serialize (BM := false) b' =
      Ok ([129; 7] ++ [5; 0; 0; 10; 0; 10; 10; 0; 10; 0; 0] ++ [1] ++
          [4; 2; 2; 4; 2; 4; 4; 2; 2]).
Proof.
  assert (Hne : Forall (fun ring : points_t (G := GridGeom) => ring <> [])
                  [grid_hole_outside; grid_hole_inside]).
  { repeat constructor; discriminate. }
  destruct (SetAreaAddHoles_filter (BM := true) (G := GridGeom)
              [grid_hole_outside; grid_hole_inside] grid_area Hne ltac:(simpl; lia))
    as (b' & Hset & Hb' & Hholes & _).
  exists b'. split; [exact Hset|]. split; [exact Hholes|].
  rewrite Hb'. vm_compute. reflexivity.
Defined.

(** ** The Stage-1 round trip *)

Section RoundTrip.
Context {G : Geom}.

(** A point feature that also went through [AddPoint]: one type, the
    point flag alone, one vertex left in the geometry. *)
Definition point_with_vertex (p : PointD) : FeatureBuilder1 :=
  SetCenter p (AddPoint p (AddTypes [1] FeatureBuilder1_ctor)).

Lemma FeatureBuilder1_eq_geometry_length (a fb : FeatureBuilder1) :
  length (m_Geometry a) <> length (m_Geometry fb) -> FeatureBuilder1_eq a fb = false.
Proof.
  intros Hlen.
  assert (Hgeo : is_equal_points (m_Geometry a) (m_Geometry fb) = false).
  { unfold is_equal_points. apply Nat.eqb_neq in Hlen. rewrite Hlen. reflexivity. }
  unfold FeatureBuilder1_eq. rewrite Hgeo. cbn [negb].
  repeat first
    [ reflexivity
    | match goal with
      | |- (if ?c then false else _) = false => destruct c
      end ].
Qed.

(** [Deserialize] of a base block with one type and a centre. *)
Lemma Deserialize_point_only {BM : BuildMode} (e : Z) :
  let center := PointU2PointD (DecodeDelta (u64 e) (Uint64ToPointU (u64 0))) in
  FeatureBuilder1_Deserialize ([33; 1] ++ WriteVarUint (u64 e) ++ []) FeatureBuilder1_ctor =
    Ok (SetCenter (fst center, snd center)
          (AddName [] (AddLayer 0 (AddTypes [1] FeatureBuilder1_ctor)))).
Proof.
  intros center.
  set (W := WriteVarUint (u64 e)).
  set (data := [33; 1] ++ W ++ []).
  set (f0 := FeatureBase_Deserialize data 0 0 FeatureBase_ctor).
  set (types1 := <[0%nat:=1]> (replicate m_maxTypesCount 0)).
  set (f1 := FeatureBase.mk _ data 0 0 types1 0 [] Point_ctor GetEmptyRect true false 2 0).
  assert (H1 : ParseTypes f0 = Ok f1).
  { unfold ParseTypes. change (FeatureBase.m_bTypesParsed f0) with false.
    cbn [negb]. rewrite ASSERT_true. cbn [mbind result_bind].
    change (ParseTypes_loop (GetTypesCount f0) 0 (FeatureBase.m_Types f0)
              (drop m_TypesOffset (DataPtr f0)))
      with (Ok (A := list Z * list Z) (types1, W ++ [])).
    cbn [mbind result_bind]. unfold f1. repeat f_equal.
    all: try (unfold CalcOffset; change (DataPtr f0) with (33 :: 1 :: W ++ []);
              simpl length; lia). }
  set (f2 := FeatureBase.mk _ data 0 0 types1 0 [] (fst center, snd center)
               (Rect_Add GetEmptyRect (fst center, snd center)) true true 2
               (length data)).
  assert (H2 : ParseCommon f0 = Ok f2).
  { unfold ParseCommon. change (FeatureBase.m_bCommonParsed f0) with false.
    change (FeatureBase.m_bTypesParsed f0) with false.
    cbn [negb]. rewrite ASSERT_true. cbn [mbind result_bind]. rewrite H1.
    cbn [mbind result_bind].
    change (Header f1) with 33.
    change (has_flag 33 HEADER_HAS_LAYER) with false.
    change (has_flag 33 HEADER_HAS_NAME) with false.
    change (has_flag 33 HEADER_HAS_POINT) with true.
    cbv iota. cbn [mbind result_bind].
    change (drop (FeatureBase.m_CommonOffset f1) (DataPtr f1)) with (W ++ []).
    unfold W at 1. rewrite ReadVarUint64_Write. cbn [mbind result_bind].
    unfold f2. repeat f_equal.
    all: try (unfold CalcOffset; simpl length; lia). }
  unfold FeatureBuilder1_Deserialize. fold f0.
  unfold InitFeatureBuilder, FeatureBase_ParseAll.
  change (FeatureBase.m_bCommonParsed f0) with false. cbn [negb].
  rewrite H2. cbn [mbind result_bind].
  change (Header f2) with 33.
  change (has_flag 33 HEADER_HAS_POINT) with true.
  change (has_flag 33 HEADER_IS_LINE) with false.
  change (has_flag 33 HEADER_IS_AREA) with false.
  cbv iota. cbn [mbind result_bind].
  change (GetTypesCount f2) with 1%nat.
  change (take 1 (FeatureBase.m_Types f2)) with [1].
  change (FeatureBase.m_Layer f2) with 0.
  change (FeatureBase.m_Name f2) with (@nil Z).
  change (FeatureBase.m_Center f2) with (fst center, snd center).
  set (fb := SetCenter _ _).
  change (m_bLinear fb || m_bArea fb) with false.
  cbv iota. cbn [mbind result_bind].
  change (m_bArea fb) with false.
  cbv iota. cbn [mbind result_bind].
  change (CheckValid fb) with (Ok (A := bool) true).
  reflexivity.
Qed.

(** C1: the code at the failing input.  The builder [point_with_vertex p]
    passes [CheckValid]; [Serialize] writes the base block only, since
    neither the line nor the area flag is set; [Deserialize] of these bytes
    succeeds with an empty geometry; [operator==] between the two is
    [false] in either order, whatever the coordinate codec; and in a DEBUG
    build the self-check of [Serialize] trips its ASSERT. *)
Theorem Serialize_roundtrip_loses_vertex (p : PointD) :
  let b := point_with_vertex p in
  CheckValid b = Ok true /\
  exists data fb,
    FeatureBuilder1_Serialize (BM := false) b = Ok data /\
    FeatureBuilder1_Deserialize (BM := false) data FeatureBuilder1_ctor = Ok fb /\
    m_Geometry b = [p] /\ m_Geometry fb = [] /\
    FeatureBuilder1_eq fb b = false /\
    FeatureBuilder1_eq b fb = false /\
    FeatureBuilder1_Serialize (BM := true) b = Fail (AssertFailed "fb == *this").
Proof.
  intros b. split; [reflexivity|].
  set (e := EncodeDelta (PointD2PointU (fst p) (snd p)) (0, 0)).
  assert (Hdata : Serialize_data b = [33; 1] ++ WriteVarUint (u64 e) ++ [])
    by reflexivity.
  set (center := PointU2PointD (DecodeDelta (u64 e) (Uint64ToPointU (u64 0)))).
  set (fb := SetCenter (fst center, snd center)
               (AddName [] (AddLayer 0 (AddTypes [1] FeatureBuilder1_ctor)))).
  assert (Hdes : forall BM : BuildMode,
            FeatureBuilder1_Deserialize (Serialize_data b) FeatureBuilder1_ctor = Ok fb).
  { intros BM. rewrite Hdata. apply Deserialize_point_only. }
  assert (Hne : FeatureBuilder1_eq fb b = false)
    by (apply FeatureBuilder1_eq_geometry_length; discriminate).
  exists (Serialize_data b), fb.
  split; [reflexivity|]. split; [apply Hdes|].
  split; [reflexivity|]. split; [reflexivity|]. split; [exact Hne|].
  split; [apply FeatureBuilder1_eq_geometry_length; discriminate|].
  unfold FeatureBuilder1_Serialize.
  change (CheckValid b) with (Ok (A := bool) true). cbn [mbind result_bind CHECK].
  change (DEBUG (BuildMode := true)) with true. cbv iota.
  rewrite (Hdes true). cbn [mbind result_bind]. rewrite Hne. reflexivity.
Qed.

End RoundTrip.

(** * Further properties of the codec *)

(** ** Scale resolution without offsets *)

Lemma GetScaleIndex_for_spec scale rest : forall pre,
  Forall (fun s => s < scale) pre ->
  let h := {| hdr_scales := pre ++ rest; hdr_base := 0 |} in
  let r := GetScaleIndex_for scale (length pre) rest in
  (exists i, first_admitting h scale i /\ r = Z.of_nat i) \/
  ((forall i, ~ admits h scale i) /\ r = -1).
Proof.
  induction rest as [|s rest IH]; intros pre Hpre; simpl.
  - right. split; [|reflexivity].
    intros i (s & Hs & Hle). simpl in Hs. rewrite app_nil_r in Hs.
    rewrite Forall_forall in Hpre.
    apply list_elem_of_lookup_2, Hpre in Hs. lia.
  - destruct (Z.leb_spec scale s) as [Hle|Hgt].
    + left. exists (length pre). split; [|reflexivity]. split.
      * exists s. simpl. split; [|assumption].
        rewrite lookup_app_r by lia. now rewrite Nat.sub_diag.
      * intros j Hj (s' & Hs' & Hle'). simpl in Hs'.
        rewrite lookup_app_l in Hs' by assumption.
        rewrite Forall_forall in Hpre.
        apply list_elem_of_lookup_2, Hpre in Hs'. lia.
    + specialize (IH (pre ++ [s])).
      rewrite <- app_assoc in IH. simpl in IH.
      replace (length (pre ++ [s])) with (S (length pre)) in IH
        by (rewrite length_app; simpl; lia).
      apply IH. apply Forall_app. split; [assumption|]. constructor; [lia|constructor].
Qed.

Lemma GetScaleIndex_cases (h : DataHeader) (scale : Z) :
  scale <> -1 ->
  (exists i, first_admitting h scale i /\ GetScaleIndex h scale = Z.of_nat i) \/
  ((forall i, ~ admits h scale i) /\ GetScaleIndex h scale = -1).
Proof.
  intros Hne. unfold GetScaleIndex.
  destruct (Z.eqb_spec scale (-1)) as [|_]; [contradiction|].
  destruct h as [scales b].
  exact (GetScaleIndex_for_spec scale scales [] (Forall_nil_2 _)).
Qed.

(** The one-argument [GetScaleIndex]: for scale -1 the last index of the
    header (which is -1 for a header without breakpoints); for any other
    scale the index of the first breakpoint that is not below the scale,
    and -1 when every breakpoint is below it. *)
Theorem GetScaleIndex_first_admitting (h : DataHeader) (scale : Z) :
  (scale = -1 /\ GetScaleIndex h scale = Z.of_nat (GetScalesCount h) - 1) \/
  (scale <> -1 /\
   exists i, first_admitting h scale i /\ (i < GetScalesCount h)%nat /\
             GetScaleIndex h scale = Z.of_nat i) \/
  (scale <> -1 /\ (forall i, ~ admits h scale i) /\ GetScaleIndex h scale = -1).
Proof.
  destruct (Z.eq_dec scale (-1)) as [->|Hne]; [left; split; reflexivity|].
  right. destruct (GetScaleIndex_cases h scale Hne) as [(i & Hi & Hr)|[Hnone Hr]].
  - left. split; [assumption|]. exists i. split; [assumption|]. split; [|assumption].
    destruct Hi as [(s & Hs & _) _]. now apply lookup_lt_Some in Hs.
  - right. auto.
Qed.

(** The scale index does not decrease with the scale: when the larger of
    two scales resolves to an index, the smaller one resolves to an index
    that is not above it, whatever the order of the breakpoints. *)
Theorem GetScaleIndex_monotone (h : DataHeader) (scale scale' : Z) :
  scale <> -1 -> scale' <> -1 -> scale <= scale' ->
  GetScaleIndex h scale' <> -1 ->
  0 <= GetScaleIndex h scale <= GetScaleIndex h scale'.
Proof.
  intros Hne Hne' Hle Hfound.
  destruct (GetScaleIndex_cases h scale' Hne') as [(i' & [Hadm' Hmin'] & Hr')|[_ Hr']];
    [|contradiction].
  assert (Hadm : admits h scale i').
  { destruct Hadm' as (s & Hs & Hs'). exists s. split; [assumption|lia]. }
  destruct (GetScaleIndex_cases h scale Hne) as [(i & [Hadmi Hmin] & Hr)|[Hnone _]].
  - rewrite Hr, Hr'. split; [lia|].
    destruct (le_lt_dec i i') as [Hii|Hii]; [lia|].
    exfalso. exact (Hmin i' Hii Hadm).
  - exfalso. exact (Hnone i' Hadm).
Qed.

Lemma GetScaleIndex_monotone_witness :
  0 <= GetScaleIndex header_4 7 <= GetScaleIndex header_4 16.
Proof.
  apply (GetScaleIndex_monotone header_4 7 16); [lia|lia|lia|vm_compute; discriminate].
Defined.

(** ** The inline filter at a scale above every breakpoint *)

Lemma fmap_nth_seq {A} (l : list A) (d : A) : forall i,
  (fun j => nth (j - i) l d) <$> seq i (length l) = l.
Proof.
  induction l as [|a l IH]; intros i; [reflexivity|].
  cbn [length seq]. rewrite fmap_cons, Nat.sub_diag. cbn [nth]. f_equal.
  rewrite <- (IH (S i)) at 2. apply fmap_agree. intros j Hj.
  apply elem_of_seq_iff in Hj. replace (j - i)%nat with (S (j - S i)) by lia.
  reflexivity.
Qed.

Lemma filter_all {A} (P : A -> Prop) `{forall x, Decision (P x)} (l : list A) :
  (forall x, x ∈ l -> P x) -> filter P l = l.
Proof.
  induction l as [|a l IH]; intros Hall; [reflexivity|].
  rewrite filter_cons_True by (apply Hall; left).
  f_equal. apply IH. intros x Hx. apply Hall. now right.
Qed.

Lemma simp_tag_range simpMask i : 0 <= simp_tag simpMask i <= 3.
Proof.
  unfold simp_tag. change 3 with (Z.ones 2). rewrite Z.land_ones by lia.
  pose proof (Z.mod_pos_bound (Z.shiftr simpMask (2 * (Z.of_nat i - 1))) (2 ^ 2)
                ltac:(lia)) as Hm.
  change (2 ^ 2) with 4 in *. rewrite Z.ones_equiv. change (Z.pred (2 ^ 2)) with 3. lia.
Qed.

Lemma kept_points_all {G : Geom} simpMask scaleIndex (pts : points_t) (d : PointD) :
  3 <= scaleIndex -> kept_points simpMask scaleIndex pts d = pts.
Proof.
  intros Hbig. unfold kept_points.
  rewrite filter_all.
  - transitivity ((fun j => nth (j - 0) pts d) <$> seq 0 (length pts));
      [|apply fmap_nth_seq].
    apply fmap_agree. intros j _. now rewrite Nat.sub_0_r.
  - intros j _. right; right. pose proof (simp_tag_range simpMask j). lia.
Qed.

Section InlineUnresolved.
Context {G : Geom} {DC : Decls}.

(** When no breakpoint of the header admits the scale, the scale index -1
    becomes 4294967295 in the unsigned [scaleIndex] of [ParseGeometry]: on an
    inline line a DEBUG build stops at [ASSERT_LESS(scaleIndex, count)], and
    a release build lets every vertex through, as no two-bit tag exceeds
    that index. *)
Theorem ParseGeometry_inline_unresolved_scale (scale : Z) (s : FeatureType)
    (front : PointD) (tail : points_t) :
  m_bPointsParsed s = false ->
  m_bHeader2Parsed s = true ->
  has_flag (Header (base s)) HEADER_IS_LINE = true ->
  m_Points s = front :: tail ->
  (1 <= length tail)%nat ->
  GetScaleIndex (m_header s) scale = -1 ->
  Z.of_nat (GetScalesCount (m_header s)) < 2 ^ 32 ->
  ParseGeometry (BM := true) scale s =
    Fail (AssertFailed "scaleIndex < m_header->GetScalesCount()") /\
  exists s',
    ParseGeometry (BM := false) scale s = Ok (0, s') /\
    m_Points s' = m_Points s /\
    m_bPointsParsed s' = true.
Proof.
  intros Hpp Hh2 Hline Hpts Hlen Hsi Hcount.
  assert (Hlt : (u32 (-1) <? Z.of_nat (GetScalesCount (m_header s))) = false).
  { apply Z.ltb_ge. change (u32 (-1)) with (2 ^ 32 - 1). lia. }
  split.
  - unfold ParseGeometry. rewrite Hpp, Hh2. cbn [negb].
    rewrite ASSERT_true. cbn [mbind result_bind]. rewrite Hline, Hpts, Hsi, Hlt.
    reflexivity.
  - unfold ParseGeometry. rewrite Hpp, Hh2. cbn [negb].
    rewrite !ASSERT_release. cbn [mbind result_bind]. rewrite Hline, Hpts, Hsi.
    rewrite ASSERT_release. cbn [mbind result_bind].
    eexists. split; [reflexivity|].
    cbn [m_Points set_bPointsParsed set_base set_Points m_bPointsParsed].
    split; [|reflexivity].
    rewrite ?Hpts, inline_filter_kept_points by assumption.
    apply kept_points_all. change (u32 (-1)) with (2 ^ 32 - 1). lia.
Qed.

End InlineUnresolved.

Lemma ParseGeometry_inline_unresolved_scale_witness :
  ParseGeometry (BM := true) 18 inline_line_5 =
    Fail (AssertFailed "scaleIndex < m_header->GetScalesCount()") /\
  exists s',
    ParseGeometry (BM := false) 18 inline_line_5 = Ok (0, s') /\
    m_Points s' = m_Points inline_line_5 /\
    m_bPointsParsed s' = true.
Proof.
  apply (ParseGeometry_inline_unresolved_scale 18 inline_line_5 (0, 0)
           [(1, 1); (2, 0); (3, 1); (4, 0)]);
    try reflexivity; simpl; lia.
Defined.

(** ** The validity check of a builder *)

Section Validity.
Context {G : Geom}.

(** The conditions [CheckValid] checks, in its order. *)
Definition valid_builder (b : FeatureBuilder1) : Prop :=
  (1 <= length (m_Types b) <= m_maxTypesCount)%nat /\
  -10 <= m_Layer b <= 10 /\
  (m_bPoint b = true \/ m_bLinear b = true \/ m_bArea b = true) /\
  (m_bLinear b = true -> (2 <= length (m_Geometry b))%nat) /\
  (m_bArea b = true -> (3 <= length (m_Geometry b))%nat) /\
  (m_Holes b <> [] -> m_bArea b = true) /\
  Forall (fun i : points_t => (3 <= length i)%nat) (m_Holes b).

Lemma CHECK_inv (c : bool) expr :
  (c = true /\ CHECK c expr = Ok tt) \/ (c = false /\ CHECK c expr = Fail (CheckFailed expr)).
Proof. destruct c; [left|right]; split; reflexivity. Qed.

Lemma CheckValid_valid (b : FeatureBuilder1) :
  valid_builder b -> CheckValid b = Ok true.
Proof.
  intros (Htypes & Hlayer & Hkind & Hline & Harea & Hholes & Hrings).
  unfold CheckValid.
  replace (negb (bool_decide (length (m_Types b) = 0%nat)) &&
           (length (m_Types b) <=? m_maxTypesCount)%nat) with true.
  2:{ symmetry. apply andb_true_iff. split.
      - apply negb_true_iff, bool_decide_eq_false. lia.
      - apply Nat.leb_le. lia. }
  replace ((-10 <=? m_Layer b) && (m_Layer b <=? 10)) with true
    by (symmetry; apply andb_true_iff; split; apply Z.leb_le; lia).
  replace (m_bPoint b || m_bLinear b || m_bArea b) with true
    by (destruct Hkind as [-> | [-> | ->]]; now rewrite ?orb_true_r).
  replace (negb (m_bLinear b) || (2 <=? length (m_Geometry b))%nat) with true.
  2:{ destruct (m_bLinear b); [|reflexivity]. symmetry. apply Nat.leb_le. auto. }
  replace (negb (m_bArea b) || (3 <=? length (m_Geometry b))%nat) with true.
  2:{ destruct (m_bArea b); [|reflexivity]. symmetry. apply Nat.leb_le. auto. }
  replace (bool_decide (length (m_Holes b) = 0%nat) || m_bArea b) with true.
  2:{ destruct (m_Holes b) as [|ring holes]; [reflexivity|].
      rewrite Hholes by discriminate. now rewrite orb_true_r. }
  match goal with
  | |- context [forallb ?f ?l] => replace (forallb f l) with true
  end.
  2:{ symmetry. apply forallb_forall. intros ring Hin.
      rewrite List.Forall_forall in Hrings. apply Nat.leb_le. now apply Hrings. }
  reflexivity.
Qed.

Lemma CheckValid_inv (b : FeatureBuilder1) (v : bool) :
  CheckValid b = Ok v -> valid_builder b /\ v = true.
Proof.
  unfold CheckValid. intros Hrun.
  repeat match type of Hrun with
  | context [CHECK ?c ?e] =>
      let Hc := fresh "Hc" in
      let He := fresh "He" in
      destruct (CHECK_inv c e) as [[Hc He]|[_ He]];
      rewrite He in Hrun; clear He;
      cbn [mbind result_bind] in Hrun; [|discriminate Hrun]
  end.
  injection Hrun as <-. split; [|reflexivity].
  apply andb_true_iff in Hc as [Hc Hc'].
  apply negb_true_iff, bool_decide_eq_false in Hc. apply Nat.leb_le in Hc'.
  apply andb_true_iff in Hc0 as [Hl Hl']. apply Z.leb_le in Hl, Hl'.
  split; [lia|]. split; [lia|].
  split; [destruct (m_bPoint b), (m_bLinear b), (m_bArea b); auto; discriminate|].
  split; [intros Hf; rewrite Hf in Hc2; now apply Nat.leb_le in Hc2|].
  split; [intros Hf; rewrite Hf in Hc3; now apply Nat.leb_le in Hc3|].
  split.
  - intros Hne. destruct (m_Holes b); [contradiction|]. exact Hc4.
  - apply List.Forall_forall. intros ring Hin.
    rewrite forallb_forall in Hc5. apply Nat.leb_le. now apply Hc5.
Qed.

Lemma CheckValid_true_or_abort_cases (b : FeatureBuilder1) :
  (valid_builder b /\ CheckValid b = Ok true) \/
  (~ valid_builder b /\ exists expr, CheckValid b = Fail (CheckFailed expr)).
Proof.
  destruct (CheckValid b) as [v|e] eqn:Hrun.
  - left. apply CheckValid_inv in Hrun as [Hvalid ->]. auto.
  - right. split.
    + intros Hvalid. apply CheckValid_valid in Hvalid. congruence.
    + revert Hrun. unfold CheckValid.
      repeat match goal with
      | |- context [CHECK ?c ?e] =>
          destruct (CHECK_inv c e) as [[_ ->]|[_ ->]];
          [cbn [mbind result_bind]
          |cbn [mbind result_bind]; intros [= <-]; eexists; reflexivity]
      end.
      discriminate.
Qed.

(** [CheckValid] has two outcomes only: it returns [true], exactly when the
    builder has 1 to [m_maxTypesCount] types, a layer within [-10, 10], at
    least one kind flag, two vertices for a line, three for an area, holes
    only on an area and three vertices in every hole; otherwise a CHECK
    aborts it, in every build.  It never returns [false]. *)
Theorem CheckValid_true_or_abort (b : FeatureBuilder1) :
  (valid_builder b /\ CheckValid b = Ok true) \/
  (~ valid_builder b /\ exists expr, CheckValid b = Fail (CheckFailed expr)).
Proof. exact (CheckValid_true_or_abort_cases b). Qed.

End Validity.

(** ** The header byte and the layer *)

Section HeaderByte.
Context {G : Geom}.

Lemma GetHeader_decode (b : FeatureBuilder1) :
  (length (m_Types b) <= 7)%nat ->
  0 <= GetHeader b < 256 /\
  Z.land (GetHeader b) 7 = Z.of_nat (length (m_Types b)) /\
  has_flag (GetHeader b) HEADER_HAS_NAME = negb (bool_decide (length (m_Name b) = 0%nat)) /\
  has_flag (GetHeader b) HEADER_HAS_LAYER = negb (m_Layer b =? 0) /\
  has_flag (GetHeader b) HEADER_HAS_POINT = m_bPoint b /\
  has_flag (GetHeader b) HEADER_IS_LINE = m_bLinear b /\
  has_flag (GetHeader b) HEADER_IS_AREA = m_bArea b.
Proof.
  intros Hlen. unfold GetHeader.
  generalize dependent (length (m_Types b)). intros n Hlen.
  destruct (negb (bool_decide (length (m_Name b) = 0%nat))),
    (negb (m_Layer b =? 0)), (m_bPoint b), (m_bLinear b), (m_bArea b);
    do 8 (destruct n as [|n];
          [vm_compute; repeat split; solve [reflexivity | intros [=]]|]);
    lia.
Qed.

(** The header byte of a builder with at most seven types holds the type
    count in its three low bits and one flag for each of: a non-empty name,
    a layer other than 0, the centre, the line kind, the area kind; none of
    them overlaps another. *)
Theorem GetHeader_fields (b : FeatureBuilder1) :
  (length (m_Types b) <= m_maxTypesCount)%nat ->
  0 <= GetHeader b < 256 /\
  Z.land (GetHeader b) 7 = Z.of_nat (length (m_Types b)) /\
  has_flag (GetHeader b) HEADER_HAS_NAME = negb (bool_decide (length (m_Name b) = 0%nat)) /\
  has_flag (GetHeader b) HEADER_HAS_LAYER = negb (m_Layer b =? 0) /\
  has_flag (GetHeader b) HEADER_HAS_POINT = m_bPoint b /\
  has_flag (GetHeader b) HEADER_IS_LINE = m_bLinear b /\
  has_flag (GetHeader b) HEADER_IS_AREA = m_bArea b.
Proof. exact (GetHeader_decode b). Qed.

(** With eight types the count spills into the name flag: the three low
    bits read 0 and [HEADER_HAS_NAME] is set whether or not the builder has
    a name, which is what the bound of [CheckValid] on the number of types
    excludes. *)
Theorem GetHeader_eight_types (b : FeatureBuilder1) :
  length (m_Types b) = 8%nat ->
  Z.land (GetHeader b) 7 = 0 /\
  has_flag (GetHeader b) HEADER_HAS_NAME = true.
Proof.
  intros Hlen. unfold GetHeader. rewrite Hlen.
  destruct (negb (bool_decide (length (m_Name b) = 0%nat))),
    (negb (m_Layer b =? 0)), (m_bPoint b), (m_bLinear b), (m_bArea b);
    split; reflexivity.
Qed.

(** [AddLayer] saturates: the stored layer is the argument clamped to
    [-10, 10], so the layer CHECK of [CheckValid] holds after it. *)
Theorem AddLayer_clamps (layer : Z) (b : FeatureBuilder1) :
  m_Layer (AddLayer layer b) = Z.max (-10) (Z.min 10 layer) /\
  (-10 <=? m_Layer (AddLayer layer b)) && (m_Layer (AddLayer layer b) <=? 10) = true.
Proof.
  unfold AddLayer. cbn [m_Layer]. cbv zeta. rewrite Z.gtb_ltb.
  change (Z.opp 10) with (-10).
  destruct (Z.ltb_spec layer (-10)), (Z.ltb_spec 10 layer);
    (split; [lia|apply andb_true_iff; split; apply Z.leb_le; lia]).
Qed.

End HeaderByte.

Lemma GetHeader_fields_witness :
  Z.land (GetHeader grid_line) 7 = 1 /\
  has_flag (GetHeader grid_line) HEADER_IS_LINE = true.
Proof.
  destruct (GetHeader_fields grid_line ltac:(vm_compute; lia))
    as (_ & Hcount & _ & _ & _ & Hline & _).
  split; [exact Hcount|exact Hline].
Defined.

Lemma GetHeader_eight_types_witness :
  has_flag (GetHeader (AddTypes [1; 2; 3; 4; 5; 6; 7; 8]
                         (FeatureBuilder1_ctor (G := GridGeom)))) HEADER_HAS_NAME = true.
Proof.
  exact (proj2 (GetHeader_eight_types
                  (AddTypes [1; 2; 3; 4; 5; 6; 7; 8] (FeatureBuilder1_ctor (G := GridGeom)))
                  eq_refl)).
Defined.

(** ** The base block: SerializeBase against ParseCommon *)

Lemma ReadVarUint_loop_WriteVarUint v rest :
  0 <= v < 2 ^ 64 ->
  ReadVarUint_loop (WriteVarUint v ++ rest) 0 0 = Ok (v, rest).
Proof.
  intros Hv. unfold WriteVarUint.
  rewrite ReadVarUint_loop_Write; [|split; [lia|]|lia].
  - now rewrite Z.pow_0_r, Z.mul_1_r, Z.add_0_l.
  - eapply Z.lt_trans; [apply Hv|]. reflexivity.
Qed.

Lemma ReadVarUint32_WriteVarUint v rest :
  0 <= v < 2 ^ 64 ->
  ReadVarUint32 (WriteVarUint v ++ rest) = Ok (u32 v, rest).
Proof.
  intros Hv. unfold ReadVarUint32. now rewrite ReadVarUint_loop_WriteVarUint.
Qed.

Lemma ReadVarUint32_Write_u64 v rest :
  ReadVarUint32 (WriteVarUint (u64 v) ++ rest) = Ok (u32 (u64 v), rest).
Proof. apply ReadVarUint32_WriteVarUint, u64_range. Qed.

Lemma ZigZag_roundtrip v :
  - 2 ^ 31 <= v < 2 ^ 31 ->
  0 <= ZigZagEncode v < 2 ^ 32 /\ ZigZagDecode (ZigZagEncode v) = v.
Proof.
  intros Hv. unfold ZigZagEncode, ZigZagDecode.
  destruct (Z.ltb_spec v 0) as [Hneg|Hpos].
  - split; [lia|].
    replace (- 2 * v - 1) with (1 + 2 * (- v - 1)) by lia.
    rewrite Z.odd_add_mul_2. cbn [Z.odd].
    replace (1 + 2 * (- v - 1) + 1) with ((- v) * 2) by lia.
    rewrite Z.div_mul by lia. lia.
  - split; [lia|].
    replace (2 * v) with (0 + 2 * v) at 1 by lia.
    rewrite Z.odd_add_mul_2. cbn [Z.odd].
    rewrite Z.mul_comm, Z.div_mul by lia. reflexivity.
Qed.

Lemma i32_small v : - 2 ^ 31 <= v < 2 ^ 31 -> i32 v = v.
Proof. intros Hv. unfold i32. rewrite Z.mod_small by lia. lia. Qed.

Lemma u32_small v : 0 <= v < 2 ^ 32 -> u32 v = v.
Proof. intros Hv. unfold u32. now apply Z.mod_small. Qed.

Lemma u64_small v : 0 <= v < 2 ^ 64 -> u64 v = v.
Proof. intros Hv. unfold u64. now apply Z.mod_small. Qed.

Lemma ReadVarInt32_WriteVarInt v rest :
  - 2 ^ 31 <= v < 2 ^ 31 ->
  ReadVarInt32 (WriteVarInt v ++ rest) = Ok (v, rest).
Proof.
  intros Hv. destruct (ZigZag_roundtrip v Hv) as [Hrange Hdec].
  unfold ReadVarInt32, WriteVarInt.
  rewrite ReadVarUint_loop_WriteVarUint by lia. cbn [mbind result_bind].
  rewrite u32_small, Hdec, i32_small by lia. reflexivity.
Qed.

(** The loop of [ParseTypes] over the types [SerializeBase] wrote. *)
Lemma ParseTypes_loop_Write (ts : list Z) : forall (i : nat) (arr rest : list Z),
  (i + length ts <= length arr)%nat ->
  ParseTypes_loop (length ts) i arr
    (concat (map (fun t => WriteVarUint (u32 t)) ts) ++ rest) =
  Ok (take i arr ++ map u32 ts ++ drop (i + length ts) arr, rest).
Proof.
  induction ts as [|t ts IH]; intros i arr rest Hlen.
  - cbn [length ParseTypes_loop map concat app]. rewrite Nat.add_0_r, take_drop.
    reflexivity.
  - cbn [length map concat] in *. cbn [ParseTypes_loop].
    rewrite <- app_assoc, ReadVarUint32_Write. cbn [mbind result_bind].
    rewrite bool_decide_true by lia.
    rewrite IH by (rewrite length_insert; lia).
    f_equal. f_equal.
    rewrite drop_insert_lt by lia.
    rewrite (take_S_r _ i (u32 t)) by (apply list_lookup_insert_eq; lia).
    rewrite take_insert_ge by lia.
    rewrite <- app_assoc. cbn [app].
    replace (S i + length ts)%nat with (i + S (length ts))%nat by lia. reflexivity.
Qed.

Section BaseBlock.
Context {BM : BuildMode} {G : Geom}.

(** The centre a reader with base [base] gets from the bytes a writer with
    base point [basePoint] stored for the centre of [b]. *)
Definition decoded_center (b : FeatureBuilder1) (basePoint : Z * Z) (base : Z) : PointD :=
  let center :=
    PointU2PointD
      (DecodeDelta
         (u64 (EncodeDelta (PointD2PointU (fst (m_Center b)) (snd (m_Center b))) basePoint))
         (Uint64ToPointU (u64 base))) in
  (fst center, snd center).

(** The bytes of the types in the base block. *)
Definition types_bytes (b : FeatureBuilder1) : list Z :=
  concat (map (fun t => WriteVarUint (u32 t)) (m_Types b)).

(** The object [ParseCommon] leaves when it runs over the base block of
    [b], stored behind [pre] in the buffer and followed by [rest]. *)
Definition parsed_base (b : FeatureBuilder1) (basePoint : Z * Z) (pre rest : list Z)
    (base : Z) (f : FeatureBase) : FeatureBase :=
  FeatureBase.mk _ (pre ++ SerializeBase b basePoint ++ rest) (length pre) base
    (map u32 (m_Types b) ++ drop (length (m_Types b)) (FeatureBase.m_Types f))
    (m_Layer b) (m_Name b)
    (if m_bPoint b then decoded_center b basePoint base else FeatureBase.m_Center f)
    (if m_bPoint b then Rect_Add GetEmptyRect (decoded_center b basePoint base)
     else GetEmptyRect)
    true true (1 + length (types_bytes b)) (length (SerializeBase b basePoint)).

Lemma ParseCommon_SerializeBase (b : FeatureBuilder1) (basePoint : Z * Z)
    (pre rest : list Z) (base : Z) (f : FeatureBase) :
  (length (m_Types b) <= m_maxTypesCount)%nat ->
  (length (m_Types b) <= length (FeatureBase.m_Types f))%nat ->
  - 2 ^ 31 <= m_Layer b < 2 ^ 31 ->
  Z.of_nat (length (m_Name b)) < 2 ^ 32 ->
  ParseCommon
    (FeatureBase_Deserialize (pre ++ SerializeBase b basePoint ++ rest) (length pre) base f) =
  Ok (parsed_base b basePoint pre rest base f).
Proof.
  intros Hcount Harr Hlayer Hname.
  destruct (GetHeader_decode b Hcount) as (Hh & Hc & Hfn & Hfl & Hfp & _).
  set (block := SerializeBase b basePoint).
  set (data := pre ++ block ++ rest).
  set (f0 := FeatureBase_Deserialize data (length pre) base f).
  set (tb := types_bytes b).
  set (lb := if negb (m_Layer b =? 0) then WriteVarInt (m_Layer b) else []).
  set (nb := if negb (bool_decide (length (m_Name b) = 0%nat))
             then WriteVarUint (u64 (Z.of_nat (length (m_Name b)) - 1)) ++ m_Name b
             else []).
  set (e := u64 (EncodeDelta (PointD2PointU (fst (m_Center b)) (snd (m_Center b)))
                   basePoint)).
  set (pb := if m_bPoint b then WriteVarUint e else []).
  set (R3 := pb ++ rest). set (R2 := nb ++ R3). set (R1 := lb ++ R2).
  assert (Hblock : block ++ rest = GetHeader b :: tb ++ R1).
  { unfold block, SerializeBase, R1, R2, R3. fold tb lb nb e pb.
    cbn [app]. now rewrite <- !app_assoc. }
  assert (Hlenblock : (length (GetHeader b :: tb ++ R1) - length rest = length block)%nat).
  { rewrite <- Hblock, length_app. lia. }
  assert (HD : DataPtr f0 = GetHeader b :: tb ++ R1).
  { unfold DataPtr, f0, FeatureBase_Deserialize, data.
    cbn [FeatureBase.m_Offset FeatureBase.m_Data].
    now rewrite drop_app_length. }
  set (types1 := map u32 (m_Types b) ++ drop (length (m_Types b)) (FeatureBase.m_Types f)).
  set (f1 := FeatureBase.mk _ data (length pre) base types1 0 [] (FeatureBase.m_Center f)
               GetEmptyRect true false (1 + length tb) 0).
  assert (HD1 : DataPtr f1 = GetHeader b :: tb ++ R1) by exact HD.
  assert (Hhdr : Header f1 = GetHeader b).
  { unfold Header. rewrite HD1. apply u8_small. exact Hh. }
  assert (H1 : ParseTypes f0 = Ok f1).
  { unfold ParseTypes. change (FeatureBase.m_bTypesParsed f0) with false.
    cbn [negb]. rewrite ASSERT_true. cbn [mbind result_bind].
    assert (Hgc : GetTypesCount f0 = length (m_Types b)).
    { unfold GetTypesCount, Header. rewrite HD, u8_small, Hc by exact Hh.
      apply Nat2Z.id. }
    rewrite Hgc, HD. unfold m_TypesOffset. cbn [drop]. rewrite drop_0.
    change (FeatureBase.m_Types f0) with (FeatureBase.m_Types f).
    unfold tb, types_bytes. rewrite ParseTypes_loop_Write by exact Harr.
    cbn [mbind result_bind take app Nat.add]. unfold f1. f_equal. f_equal.
    unfold CalcOffset. rewrite HD. fold tb. cbn [length]. rewrite length_app. lia. }
  unfold ParseCommon. change (FeatureBase.m_bCommonParsed f0) with false.
  change (FeatureBase.m_bTypesParsed f0) with false.
  cbn [negb]. rewrite ASSERT_true. cbn [mbind result_bind]. rewrite H1.
  cbn [mbind result_bind]. rewrite Hhdr, Hfl, Hfn, Hfp, HD1.
  change (FeatureBase.m_CommonOffset f1) with (length (GetHeader b :: tb)).
  change (GetHeader b :: tb ++ R1) with ((GetHeader b :: tb) ++ R1).
  rewrite drop_app_length.
  change (FeatureBase.m_Layer f1) with 0.
  change (FeatureBase.m_Name f1) with (@nil Z).
  change (FeatureBase.m_Center f1) with (FeatureBase.m_Center f).
  change (FeatureBase.m_LimitRect f1) with GetEmptyRect.
  change (FeatureBase.m_base f1) with base.
  assert (Hl : (if negb (m_Layer b =? 0) then ReadVarInt32 R1 else Ok (0, R1)) =
               Ok (m_Layer b, R2)).
  { unfold R1, lb. destruct (Z.eqb_spec (m_Layer b) 0) as [Hz|Hz]; cbn [negb app].
    - now rewrite Hz.
    - now apply ReadVarInt32_WriteVarInt. }
  rewrite Hl. cbn [mbind result_bind].
  assert (Hn : (if negb (bool_decide (length (m_Name b) = 0%nat))
                then '(n, source) ← ReadVarUint32 R2;
                     ReadBytes (Z.to_nat (u32 (n + 1))) source
                else Ok ([], R2)) = Ok (m_Name b, R3)).
  { unfold R2, nb. destruct (decide (length (m_Name b) = 0%nat)) as [Hz|Hz].
    - rewrite bool_decide_true by assumption. cbn [negb app].
      now destruct (m_Name b).
    - rewrite bool_decide_false by assumption. cbn [negb].
      rewrite <- app_assoc, ReadVarUint32_Write_u64. cbn [mbind result_bind].
      rewrite u64_small, (u32_small (Z.of_nat (length (m_Name b)) - 1)) by lia.
      replace (Z.of_nat (length (m_Name b)) - 1 + 1) with (Z.of_nat (length (m_Name b)))
        by lia.
      rewrite u32_small, Nat2Z.id by lia. unfold ReadBytes.
      replace (length (m_Name b) <=? length (m_Name b ++ R3))%nat with true
        by (symmetry; apply Nat.leb_le; rewrite length_app; lia).
      now rewrite take_app_length, drop_app_length. }
  rewrite Hn. cbn [mbind result_bind].
  unfold parsed_base. fold block data tb types1.
  destruct (m_bPoint b).
  - unfold R3, pb, e. rewrite ReadVarUint64_Write. cbn [mbind result_bind].
    fold e. unfold decoded_center. fold e. cbv zeta. f_equal. f_equal.
    unfold CalcOffset. rewrite HD1. exact Hlenblock.
  - cbn [mbind result_bind]. f_equal. f_equal.
    unfold CalcOffset. rewrite HD1. unfold R3, pb. cbn [app]. exact Hlenblock.
Qed.

End BaseBlock.

Lemma map_u32_id (ts : list Z) :
  Forall (fun t => 0 <= t < 2 ^ 32) ts -> map u32 ts = ts.
Proof.
  induction 1 as [|t ts Ht _ IH]; [reflexivity|].
  cbn [map]. now rewrite IH, u32_small.
Qed.

Section BaseBlockRoundTrip.
Context {BM : BuildMode} {G : Geom}.

(** What [SerializeBase] writes, [ParseCommon] reads back: for a builder
    with at most [m_maxTypesCount] 32-bit types, a 32-bit layer and a name
    shorter than 2^32 bytes, whose base block sits behind [pre] in a buffer
    and is followed by [rest], a reader deserialized at offset
    [length pre] parses the header byte of the builder, its types in
    order, its layer and its name, takes the centre through the delta
    decoder when the builder has one, and stops exactly at [rest]. *)
Theorem SerializeBase_ParseCommon_roundtrip (b : FeatureBuilder1) (basePoint : Z * Z)
    (pre rest : list Z) (base : Z) (f : FeatureBase) :
  (length (m_Types b) <= m_maxTypesCount)%nat ->
  (length (m_Types b) <= length (FeatureBase.m_Types f))%nat ->
  Forall (fun t => 0 <= t < 2 ^ 32) (m_Types b) ->
  - 2 ^ 31 <= m_Layer b < 2 ^ 31 ->
  Z.of_nat (length (m_Name b)) < 2 ^ 32 ->
  exists f',
    ParseCommon
      (FeatureBase_Deserialize (pre ++ SerializeBase b basePoint ++ rest)
         (length pre) base f) = Ok f' /\
    Header f' = GetHeader b /\
    take (GetTypesCount f') (FeatureBase.m_Types f') = m_Types b /\
    FeatureBase.m_Layer f' = m_Layer b /\
    FeatureBase.m_Name f' = m_Name b /\
    (m_bPoint b = true ->
     FeatureBase.m_Center f' = decoded_center b basePoint base /\
     FeatureBase.m_LimitRect f' = Rect_Add GetEmptyRect (decoded_center b basePoint base)) /\
    (m_bPoint b = false -> FeatureBase.m_LimitRect f' = GetEmptyRect) /\
    FeatureBase.m_bTypesParsed f' = true /\
    FeatureBase.m_bCommonParsed f' = true /\
    drop (FeatureBase.m_Header2Offset f') (DataPtr f') = rest.
Proof.
  intros Hcount Harr Hrange Hlayer Hname.
  exists (parsed_base b basePoint pre rest base f).
  split; [now apply ParseCommon_SerializeBase|].
  destruct (GetHeader_decode b Hcount) as (Hh & Hc & _).
  assert (HD : DataPtr (parsed_base b basePoint pre rest base f) =
               SerializeBase b basePoint ++ rest).
  { unfold DataPtr, parsed_base. cbn [FeatureBase.m_Offset FeatureBase.m_Data].
    apply drop_app_length. }
  assert (Hhdr : Header (parsed_base b basePoint pre rest base f) = GetHeader b).
  { unfold Header. rewrite HD. unfold SerializeBase. cbn [app]. now apply u8_small. }
  split; [exact Hhdr|]. split.
  { unfold GetTypesCount. rewrite Hhdr, Hc, Nat2Z.id.
    unfold parsed_base. cbn [FeatureBase.m_Types].
    rewrite map_u32_id by assumption. apply take_app_length. }
  split; [reflexivity|]. split; [reflexivity|].
  unfold parsed_base. cbn [FeatureBase.m_Center FeatureBase.m_LimitRect
    FeatureBase.m_bTypesParsed FeatureBase.m_bCommonParsed FeatureBase.m_Header2Offset].
  split; [intros ->; split; reflexivity|]. split; [now intros ->|].
  split; [reflexivity|]. split; [reflexivity|].
  fold (parsed_base b basePoint pre rest base f). rewrite HD. apply drop_app_length.
Qed.

End BaseBlockRoundTrip.

(** A builder with two types, a layer, a name and a centre on the grid. *)
Definition grid_named_point : FeatureBuilder1 (G := GridGeom) :=
  SetCenter (G := GridGeom) (3, 4)
    (AddName [72; 105] (AddLayer (-2) (AddTypes [3; 300] FeatureBuilder1_ctor))).

Lemma SerializeBase_ParseCommon_roundtrip_witness :
  exists f',
    ParseCommon (BM := true) (G := GridGeom)
      (FeatureBase_Deserialize ([9; 9] ++ SerializeBase grid_named_point (0, 0) ++ [77])
         2 0 FeatureBase_ctor) = Ok f' /\
    take (GetTypesCount f') (FeatureBase.m_Types f') = [3; 300] /\
    FeatureBase.m_Layer f' = -2 /\
    FeatureBase.m_Name f' = [72; 105] /\
    drop (FeatureBase.m_Header2Offset f') (DataPtr f') = [77].
Proof.
  destruct (SerializeBase_ParseCommon_roundtrip (BM := true) grid_named_point (0, 0)
              [9; 9] [77] 0 FeatureBase_ctor
              ltac:(vm_compute; lia) ltac:(vm_compute; lia)
              ltac:(repeat constructor; lia)
              ltac:(vm_compute; split; [intros [=]|reflexivity]) ltac:(reflexivity))
    as (f' & Hrun & _ & Htypes & Hlayer & Hname & _ & _ & _ & _ & Hrest).
  exists f'. repeat split; assumption.
Defined.

(** ** The Stage-1 round trip of a builder whose geometry matches its kind *)

Section Stage1RoundTrip.
Context {BM : BuildMode} {G : Geom}.

(** The outer-path codec at base 0 turns the path [g] into [g'], one
    vertex for each vertex, whatever follows the path in the buffer. *)
Definition path_decodes (g g' : points_t) : Prop :=
  length g' = length g /\
  forall rest, LoadOuterPath (SaveOuterPath g 0 ++ rest) 0 [] = Some (g', rest).

Lemma LoadHoles_loop_Save (holes holes' : list points_t) :
  Forall2 path_decodes holes holes' ->
  forall rest acc,
    LoadHoles_loop (length holes)
      (concat (map (fun i => SaveOuterPath i 0) holes) ++ rest) acc =
    Ok (acc ++ holes', rest).
Proof.
  induction 1 as [|h h' holes holes' [_ Hh] _ IH]; intros rest acc.
  - cbn [length LoadHoles_loop map concat app]. now rewrite app_nil_r.
  - cbn [length LoadHoles_loop map concat]. rewrite <- app_assoc, Hh.
    cbn [decoded mbind result_bind]. rewrite IH, <- app_assoc. reflexivity.
Qed.

Lemma AddLayer_in_range (layer : Z) (b : FeatureBuilder1) :
  -10 <= layer <= 10 -> m_Layer (AddLayer layer b) = layer.
Proof.
  intros Hl. unfold AddLayer. cbn [m_Layer]. cbv zeta. rewrite Z.gtb_ltb.
  change (Z.opp 10) with (-10).
  destruct (Z.ltb_spec layer (-10)), (Z.ltb_spec 10 layer); lia.
Qed.

Lemma Forall2_path_decodes_length (holes holes' : list points_t) :
  Forall2 path_decodes holes holes' ->
  Forall (fun i : points_t => (3 <= length i)%nat) holes ->
  Forall (fun i : points_t => (3 <= length i)%nat) holes'.
Proof.
  induction 1 as [|h h' holes holes' [Hlen _] _ IH]; intros Hall; [constructor|].
  apply Forall_cons in Hall as [Hh Hall]. constructor; [lia|auto].
Qed.

(** The builder [InitFeatureBuilder] makes of the parsed base block of [b]:
    the types, the layer and the name go into [fb], then the centre, the
    line flag and the area flag according to the header. *)
Definition init_builder (b : FeatureBuilder1) (center : PointD) (fb : FeatureBuilder1)
  : FeatureBuilder1 :=
  let fb := AddName (m_Name b) (AddLayer (m_Layer b) (AddTypes (m_Types b) fb)) in
  let fb := if m_bPoint b then SetCenter center fb else fb in
  let fb := if m_bLinear b then SetLinear fb else fb in
  if m_bArea b then set_Holes [] (set_bArea true fb) else fb.

Lemma InitFeatureBuilder_SerializeBase (b : FeatureBuilder1) (basePoint : Z * Z)
    (pre rest : list Z) (base : Z) (f : FeatureBase) (fb : FeatureBuilder1) :
  (length (m_Types b) <= m_maxTypesCount)%nat ->
  (length (m_Types b) <= length (FeatureBase.m_Types f))%nat ->
  Forall (fun t => 0 <= t < 2 ^ 32) (m_Types b) ->
  - 2 ^ 31 <= m_Layer b < 2 ^ 31 ->
  Z.of_nat (length (m_Name b)) < 2 ^ 32 ->
  InitFeatureBuilder
    (FeatureBase_Deserialize (pre ++ SerializeBase b basePoint ++ rest) (length pre) base f)
    fb =
  Ok (parsed_base b basePoint pre rest base f,
      init_builder b (decoded_center b basePoint base) fb).
Proof.
  intros Hcount Harr Hrange Hlayer Hname.
  unfold InitFeatureBuilder, FeatureBase_ParseAll.
  change (FeatureBase.m_bCommonParsed (FeatureBase_Deserialize _ _ _ _)) with false.
  cbn [negb]. rewrite ParseCommon_SerializeBase by assumption.
  cbn [mbind result_bind].
  set (f' := parsed_base b basePoint pre rest base f).
  destruct (GetHeader_decode b Hcount) as (Hh & Hc & _ & _ & Hfp & Hfl & Hfa).
  assert (Hhdr : Header f' = GetHeader b).
  { unfold Header, DataPtr, f', parsed_base.
    cbn [FeatureBase.m_Offset FeatureBase.m_Data]. rewrite drop_app_length.
    unfold SerializeBase. cbn [app]. now apply u8_small. }
  assert (Htypes : take (GetTypesCount f') (FeatureBase.m_Types f') = m_Types b).
  { unfold GetTypesCount. rewrite Hhdr, Hc, Nat2Z.id. unfold f', parsed_base.
    cbn [FeatureBase.m_Types]. rewrite map_u32_id by assumption. apply take_app_length. }
  rewrite Hhdr, Htypes, Hfp, Hfl, Hfa.
  change (FeatureBase.m_Layer f') with (m_Layer b).
  change (FeatureBase.m_Name f') with (m_Name b).
  unfold init_builder. cbv zeta.
  destruct (m_bPoint b) eqn:Hp.
  - change (FeatureBase.m_Center f') with
      (if m_bPoint b then decoded_center b basePoint base else FeatureBase.m_Center f).
    rewrite Hp. destruct (m_bArea b); reflexivity.
  - destruct (m_bArea b); reflexivity.
Qed.

Lemma init_builder_fields (b : FeatureBuilder1) (center : PointD) :
  -10 <= m_Layer b <= 10 ->
  let ib := init_builder b center FeatureBuilder1_ctor in
  m_Types ib = m_Types b /\ m_Layer ib = m_Layer b /\ m_Name ib = m_Name b /\
  m_bPoint ib = m_bPoint b /\ m_bLinear ib = m_bLinear b /\ m_bArea ib = m_bArea b /\
  (m_bPoint b = true -> m_Center ib = center) /\
  m_Geometry ib = [] /\ m_Holes ib = [].
Proof.
  intros Hlayer ib. unfold ib, init_builder. cbv zeta.
  destruct (m_bPoint b), (m_bLinear b), (m_bArea b);
    cbn [m_Types m_Layer m_Name m_bPoint m_bLinear m_bArea m_Center m_Geometry m_Holes
         set_Holes set_bArea SetLinear set_bLinear SetCenter AddName];
    rewrite AddLayer_in_range by assumption;
    repeat split; try reflexivity; discriminate.
Qed.

(** A valid builder comes back from its own bytes.  For a builder that
    passes [CheckValid], with 32-bit types, a name and a hole count below
    2^32, whose outer path and holes the path codec decodes (to [g'] and
    [holes']), [Deserialize] of what [Serialize] wrote succeeds with the
    same types, layer, name and kind flags, the centre through the delta
    decoder, the decoded holes, and the decoded geometry when the builder
    is a line or an area; for a builder that is neither, the geometry
    comes back empty. *)
Theorem Serialize_Deserialize_roundtrip (b : FeatureBuilder1) (g' : points_t)
    (holes' : list points_t) :
  valid_builder b ->
  Forall (fun t => 0 <= t < 2 ^ 32) (m_Types b) ->
  Z.of_nat (length (m_Name b)) < 2 ^ 32 ->
  Z.of_nat (length (m_Holes b)) < 2 ^ 32 ->
  (m_bLinear b || m_bArea b = true -> path_decodes (m_Geometry b) g') ->
  Forall2 path_decodes (m_Holes b) holes' ->
  exists fb,
    FeatureBuilder1_Deserialize (Serialize_data b) FeatureBuilder1_ctor = Ok fb /\
    m_Types fb = m_Types b /\ m_Layer fb = m_Layer b /\ m_Name fb = m_Name b /\
    m_bPoint fb = m_bPoint b /\ m_bLinear fb = m_bLinear b /\ m_bArea fb = m_bArea b /\
    (m_bPoint b = true -> m_Center fb = decoded_center b (0, 0) 0) /\
    m_Geometry fb = (if m_bLinear b || m_bArea b then g' else []) /\
    m_Holes fb = holes' /\
    CheckValid fb = Ok true.
Proof.
  intros Hvalid Hrange Hname Hcount Hgeo Hdec.
  pose proof Hvalid as (Htypes & Hlayer & Hkind & Hline & Harea & Hholes & Hrings).
  unfold FeatureBuilder1_Deserialize, Serialize_data.
  set (R := (if m_bLinear b || m_bArea b then SaveOuterPath (m_Geometry b) 0 else []) ++
            (if m_bArea b
             then WriteVarUint (u32 (Z.of_nat (length (m_Holes b)))) ++
                  concat (map (fun i => SaveOuterPath i 0) (m_Holes b))
             else [])).
  pose proof (InitFeatureBuilder_SerializeBase b (0, 0) [] R 0 FeatureBase_ctor
                FeatureBuilder1_ctor ltac:(lia) ltac:(exact (proj2 Htypes)) Hrange
                ltac:(lia) Hname) as HI.
  cbn [app length] in HI. rewrite HI. cbn [mbind result_bind].
  assert (Hsrc : drop (FeatureBase.m_Header2Offset (parsed_base b (0, 0) [] R 0 FeatureBase_ctor))
                   (DataPtr (parsed_base b (0, 0) [] R 0 FeatureBase_ctor)) = R).
  { unfold DataPtr, parsed_base.
    cbn [FeatureBase.m_Offset FeatureBase.m_Data FeatureBase.m_Header2Offset app drop].
    apply drop_app_length. }
  rewrite Hsrc. clear HI Hsrc.
  set (ib := init_builder b (decoded_center b (0, 0) 0) FeatureBuilder1_ctor).
  destruct (init_builder_fields b (decoded_center b (0, 0) 0) Hlayer)
    as (Hit & Hil & Hin & Hip & Hili & Hia & Hic & Hig & Hih).
  fold ib in Hit, Hil, Hin, Hip, Hili, Hia, Hic, Hig, Hih.
  rewrite Hili, Hia, Hig.
  assert (Hholes' : m_bArea b = false -> holes' = []).
  { intros Ha. destruct (m_Holes b) as [|h hs] eqn:Hh.
    - now inversion Hdec.
    - rewrite Hholes in Ha by discriminate. discriminate. }
  assert (Hrings' : Forall (fun i : points_t => (3 <= length i)%nat) holes')
    by (eapply Forall2_path_decodes_length; eassumption).
  assert (Hvalid' : forall fb : FeatureBuilder1,
            m_Types fb = m_Types b -> m_Layer fb = m_Layer b ->
            m_bPoint fb = m_bPoint b -> m_bLinear fb = m_bLinear b ->
            m_bArea fb = m_bArea b ->
            (m_bLinear b || m_bArea b = true -> length (m_Geometry fb) = length (m_Geometry b)) ->
            m_Holes fb = holes' ->
            valid_builder fb).
  { intros fb Ht Hl Hp Hli Ha Hg Hh. unfold valid_builder.
    rewrite Ht, Hl, Hp, Hli, Ha, Hh.
    split; [assumption|]. split; [assumption|]. split; [assumption|].
    split; [intros Hf; rewrite Hg by (now rewrite Hf); auto|].
    split; [intros Hf; rewrite Hg by (rewrite Hf; apply orb_true_r); auto|].
    split; [|assumption].
    intros Hne. destruct (m_bArea b); [reflexivity|].
    now rewrite Hholes' in Hne. }
  destruct (m_bLinear b || m_bArea b) eqn:Hla.
  - destruct (Hgeo eq_refl) as [Hglen Hgdec].
    unfold R at 1. rewrite Hgdec. cbn [decoded mbind result_bind].
    cbn [m_bArea set_LimitRect set_Geometry m_Holes]. rewrite Hia, Hih.
    destruct (m_bArea b) eqn:Ha.
    + rewrite ReadVarUint32_Write. cbn [mbind result_bind].
      rewrite u32_small, Nat2Z.id by lia.
      rewrite <- (app_nil_r (concat _)), (LoadHoles_loop_Save _ holes') by assumption.
      cbn [mbind result_bind app].
      match goal with
      | |- context [CheckValid ?fb] =>
          assert (Hv : CheckValid fb = Ok true)
            by (apply CheckValid_valid, Hvalid'; try assumption; reflexivity || auto)
      end.
      rewrite Hv. cbn [mbind result_bind CHECK]. eexists. split; [reflexivity|].
      cbn [m_Types m_Layer m_Name m_bPoint m_bLinear m_bArea m_Center m_Geometry m_Holes
           set_Holes set_LimitRect set_Geometry].
      repeat split; assumption.
    + cbn [mbind result_bind].
      match goal with
      | |- context [CheckValid ?fb] =>
          assert (Hv : CheckValid fb = Ok true)
            by (apply CheckValid_valid, Hvalid'; try assumption;
                [reflexivity || auto | cbn [m_Holes set_LimitRect set_Geometry];
                 rewrite Hih; symmetry; auto])
      end.
      rewrite Hv. cbn [mbind result_bind CHECK]. eexists. split; [reflexivity|].
      cbn [m_Types m_Layer m_Name m_bPoint m_bLinear m_bArea m_Center m_Geometry m_Holes
           set_Holes set_LimitRect set_Geometry].
      rewrite Hholes' by reflexivity. repeat split; assumption.
  - cbn [mbind result_bind]. apply orb_false_iff in Hla as [Hl Ha].
    rewrite Hia, Ha. cbn [mbind result_bind].
    assert (Hv : CheckValid ib = Ok true).
    { apply CheckValid_valid, Hvalid'; try assumption.
      - discriminate.
      - rewrite Hih. symmetry. auto. }
    rewrite Hv. cbn [mbind result_bind CHECK]. exists ib.
    split; [reflexivity|]. rewrite (Hholes' Ha). repeat split; solve [assumption | congruence].
Qed.

End Stage1RoundTrip.

(** The square with the inner ring as its hole. *)
Definition grid_area_with_hole : FeatureBuilder1 (G := GridGeom) :=
  set_Holes (G := GridGeom) [grid_hole_inside] (set_bArea true grid_area).

Lemma Serialize_Deserialize_roundtrip_witness :
  exists fb : FeatureBuilder1 (G := GridGeom),
    FeatureBuilder1_Deserialize (BM := true) (Serialize_data grid_area_with_hole)
      FeatureBuilder1_ctor = Ok fb /\
    m_Types fb = [7] /\
    m_Geometry fb = grid_square /\
    m_Holes fb = [grid_hole_inside].
Proof.
  assert (Hvalid : valid_builder grid_area_with_hole).
  { unfold valid_builder, m_maxTypesCount. simpl. repeat split; try lia; auto.
    repeat constructor; simpl; lia. }
  assert (Hgeo : path_decodes (G := GridGeom) grid_square grid_square)
    by (split; [reflexivity|intros rest; reflexivity]).
  assert (Hhole : path_decodes (G := GridGeom) grid_hole_inside grid_hole_inside)
    by (split; [reflexivity|intros rest; reflexivity]).
  destruct (Serialize_Deserialize_roundtrip (BM := true) (G := GridGeom)
              grid_area_with_hole grid_square [grid_hole_inside] Hvalid ltac:(repeat constructor; lia)
              ltac:(simpl; lia) ltac:(simpl; lia) (fun _ => Hgeo)
              ltac:(repeat constructor; apply Hhole))
    as (fb & Hrun & Ht & _ & _ & _ & _ & _ & _ & Hg & Hh & _).
  exists fb. repeat split; assumption.
Defined.

(** ** The feature base of a builder and its visibility in a scale range *)

Lemma CopyTypes_loop_spec (ts : list Z) : forall (i : nat) (arr : list Z),
  (i + length ts <= length arr)%nat ->
  CopyTypes_loop ts i arr = Ok (take i arr ++ ts ++ drop (i + length ts) arr).
Proof.
  induction ts as [|t ts IH]; intros i arr Hlen.
  - cbn [length CopyTypes_loop app]. now rewrite Nat.add_0_r, take_drop.
  - cbn [length] in Hlen. cbn [CopyTypes_loop length].
    rewrite bool_decide_true by lia.
    rewrite IH by (rewrite length_insert; lia).
    f_equal. rewrite drop_insert_lt by lia.
    rewrite (take_S_r _ i t) by (apply list_lookup_insert_eq; lia).
    rewrite take_insert_ge by lia. rewrite <- app_assoc. cbn [app].
    replace (S i + length ts)%nat with (i + S (length ts))%nat by lia. reflexivity.
Qed.

Section FeatureBaseOfBuilder.
Context {BM : BuildMode} {G : Geom}.

(** The object [GetFeatureBase] returns for a valid builder. *)
Definition base_of_builder (b : FeatureBuilder1) : FeatureBase :=
  FeatureBase.mk _ [GetHeader b] 0 0
    (m_Types b ++ drop (length (m_Types b)) (replicate m_maxTypesCount 0))
    (m_Layer b) (m_Name b) Point_ctor (m_LimitRect b) true true 0 0.

Lemma GetFeatureBase_valid (b : FeatureBuilder1) :
  valid_builder b -> GetFeatureBase b = Ok (base_of_builder b).
Proof.
  intros Hvalid. pose proof Hvalid as ([_ Hcount] & _).
  unfold GetFeatureBase. rewrite (CheckValid_valid b Hvalid).
  cbn [mbind result_bind CHECK]. unfold SetHeader.
  cbn [FeatureBase_ctor FeatureBase.m_Offset]. rewrite bool_decide_true by reflexivity.
  rewrite ASSERT_true. cbn [mbind result_bind FeatureBase.m_Types].
  rewrite CopyTypes_loop_spec by (unfold m_maxTypesCount in *; simpl; lia).
  reflexivity.
Qed.

(** [GetFeatureBase] aborts on a builder that fails [CheckValid].  For a
    valid builder it returns an object whose one-byte buffer is the header
    byte of the builder, whose type slots start with the builder's types,
    and which carries the builder's layer, name and limit rectangle; both
    parse flags are set, so that [ParseAll] leaves the object alone and
    never reads the buffer, while the centre of the builder is not copied:
    [m_Center] is what the constructor left. *)
Theorem GetFeatureBase_parsed (b : FeatureBuilder1) :
  (valid_builder b /\
   exists f,
     GetFeatureBase b = Ok f /\
     FeatureBase.m_Data f = [GetHeader b] /\
     Header f = GetHeader b /\
     take (GetTypesCount f) (FeatureBase.m_Types f) = m_Types b /\
     FeatureBase.m_Layer f = m_Layer b /\
     FeatureBase.m_Name f = m_Name b /\
     FeatureBase.m_LimitRect f = m_LimitRect b /\
     FeatureBase.m_Center f = FeatureBase.m_Center FeatureBase_ctor /\
     FeatureBase_ParseAll f = Ok f) \/
  (~ valid_builder b /\ exists expr, GetFeatureBase b = Fail (CheckFailed expr)).
Proof.
  destruct (CheckValid_true_or_abort_cases b) as [[Hvalid _]|[Hinvalid [expr Hfail]]].
  - left. split; [assumption|]. exists (base_of_builder b).
    split; [now apply GetFeatureBase_valid|].
    pose proof Hvalid as ([_ Hcount] & _).
    destruct (GetHeader_decode b Hcount) as (Hh & Hc & _).
    assert (Hhdr : Header (base_of_builder b) = GetHeader b) by (now apply u8_small).
    split; [reflexivity|]. split; [exact Hhdr|]. split.
    { unfold GetTypesCount. rewrite Hhdr, Hc, Nat2Z.id.
      unfold base_of_builder. cbn [FeatureBase.m_Types]. apply take_app_length. }
    repeat split; reflexivity.
  - right. split; [assumption|]. exists expr.
    unfold GetFeatureBase. rewrite Hfail. reflexivity.
Qed.

Variable IsDrawableForIndex : FeatureBase -> Z -> bool.



End FeatureBaseOfBuilder.

(** ** ReadOffsets: one slot for each bit of the mask *)

(** The number of bits of a mask, up to its highest set bit. *)
Definition bit_length (mask : Z) : nat :=
  if mask <=? 0 then 0%nat else Z.to_nat (Z.log2 mask + 1).

(** The number of set bits of [mask] below bit [i]. *)
Definition rank (mask : Z) (i : nat) : nat :=
  length (List.filter (fun j => Z.testbit mask (Z.of_nat j)) (seq 0 i)).

Lemma bit_length_step mask :
  0 < mask -> bit_length mask = S (bit_length (Z.shiftr mask 1)).
Proof.
  intros Hpos. unfold bit_length.
  destruct (Z.leb_spec mask 0) as [|_]; [lia|].
  rewrite Z.shiftr_div_pow2 by lia. change (2 ^ 1) with 2.
  destruct (Z.leb_spec (mask / 2) 0) as [Hz|Hnz].
  - assert (mask = 1) as -> by (pose proof (Z.div_mod mask 2 ltac:(lia));
      pose proof (Z.mod_pos_bound mask 2 ltac:(lia));
      assert (0 <= mask / 2) by (apply Z.div_pos; lia); lia).
    reflexivity.
  - replace (mask / 2) with (Z.shiftr mask 1)
      by (rewrite Z.shiftr_div_pow2 by lia; reflexivity).
    rewrite Z.log2_shiftr by lia.
    assert (1 <= Z.log2 mask).
    { apply Z.log2_le_pow2; [lia|]. change (2 ^ 1) with 2.
      pose proof (Z.div_mod mask 2 ltac:(lia)).
      pose proof (Z.mod_pos_bound mask 2 ltac:(lia)). lia. }
    rewrite Z.max_r by lia. lia.
Qed.

Lemma filter_seq_shift (f : nat -> bool) (n : nat) : forall start,
  length (List.filter f (seq (S start) n)) =
  length (List.filter (fun j => f (S j)) (seq start n)).
Proof.
  induction n as [|n IH]; intros start; [reflexivity|].
  cbn [seq List.filter]. destruct (f (S start)); cbn [length]; now rewrite IH.
Qed.

Lemma rank_step mask i :
  rank mask (S i) =
  ((if Z.testbit mask 0 then 1 else 0) + rank (Z.shiftr mask 1) i)%nat.
Proof.
  unfold rank. cbn [seq List.filter]. change (Z.of_nat 0) with 0.
  assert (Hshift : length (List.filter (fun j => Z.testbit mask (Z.of_nat j)) (seq 1 i)) =
                   length (List.filter (fun j => Z.testbit (Z.shiftr mask 1) (Z.of_nat j))
                             (seq 0 i))).
  { rewrite filter_seq_shift. f_equal. apply List.filter_ext. intros j.
    rewrite Z.shiftr_spec by lia. f_equal. lia. }
  destruct (Z.testbit mask 0); cbn [length]; rewrite Hshift; reflexivity.
Qed.

Lemma land_1_testbit mask : negb (Z.land mask 1 =? 0) = Z.testbit mask 0.
Proof.
  change 1 with (Z.ones 1). rewrite Z.land_ones by lia. change (2 ^ 1) with 2.
  rewrite Z.bit0_odd, Zmod_odd. now destruct (Z.odd mask).
Qed.

Lemma ASSERT_ok {BM : BuildMode} (c : bool) expr :
  (DEBUG = true -> c = true) -> ASSERT c expr = Ok tt.
Proof. unfold ASSERT. destruct DEBUG; [|reflexivity]. intros ->; reflexivity. Qed.

Lemma bit_length_0 : bit_length 0 = 0%nat.
Proof. reflexivity. Qed.

Lemma ReadOffsets_loop_spec {BM : BuildMode} (hdr : DataHeader) (rest : list Z) :
  forall (n : nat) (mask : Z) (vals : list Z) (index : nat) (offsets : list Z),
  0 <= mask < 2 ^ Z.of_nat n ->
  length vals = rank mask (bit_length mask) ->
  Forall (fun v => 0 <= v < 2 ^ 32) vals ->
  (index + bit_length mask <= length offsets)%nat ->
  (DEBUG = true -> (index + bit_length mask <= GetScalesCount hdr)%nat) ->
  exists offsets',
    ReadOffsets_loop n hdr (concat (map WriteVarUint vals) ++ rest) mask index offsets =
      Ok (rest, offsets') /\
    length offsets' = length offsets /\
    (forall j, (j < bit_length mask)%nat ->
       offsets' !! (index + j)%nat =
         Some (if Z.testbit mask (Z.of_nat j) then nth (rank mask j) vals 0
               else kInvalidOffset)) /\
    (forall i, (i < index \/ index + bit_length mask <= i)%nat ->
       offsets' !! i = offsets !! i).
Proof.
  assert (Hzero : forall n vals index offsets,
            length vals = rank 0 (bit_length 0) ->
            (n = O \/ (0 <? 0) = false) ->
            exists offsets',
              ReadOffsets_loop n hdr (concat (map WriteVarUint vals) ++ rest) 0 index offsets =
                Ok (rest, offsets') /\
              length offsets' = length offsets /\
              (forall j, (j < bit_length 0)%nat ->
                 offsets' !! (index + j)%nat =
                   Some (if Z.testbit 0 (Z.of_nat j) then nth (rank 0 j) vals 0
                         else kInvalidOffset)) /\
              (forall i, (i < index \/ index + bit_length 0 <= i)%nat ->
                 offsets' !! i = offsets !! i)).
  { intros n vals index offsets Hvals _.
    destruct vals; [|discriminate Hvals].
    exists offsets. split; [destruct n; reflexivity|]. split; [reflexivity|].
    split; [intros j Hj; rewrite bit_length_0 in Hj; lia|reflexivity]. }
  induction n as [|n IH]; intros mask vals index offsets Hmask Hvals Hrange Hlen Hdbg.
  - assert (mask = 0) as -> by (change (2 ^ Z.of_nat 0) with 1 in Hmask; lia).
    apply Hzero; auto.
  - destruct (Z.eq_dec mask 0) as [->|Hnz]; [apply Hzero; auto|].
    assert (Hpos : 0 < mask) by lia.
    pose proof (bit_length_step mask Hpos) as Hbl.
    set (mask' := Z.shiftr mask 1) in *.
    assert (Hmask' : 0 <= mask' < 2 ^ Z.of_nat n).
    { unfold mask'. rewrite Z.shiftr_div_pow2 by lia. change (2 ^ 1) with 2.
      split; [apply Z.div_pos; lia|].
      apply Z.div_lt_upper_bound; [lia|].
      replace (Z.of_nat (S n)) with (1 + Z.of_nat n) in Hmask by lia.
      rewrite Z.pow_add_r in Hmask by lia. change (2 ^ 1) with 2 in Hmask. lia. }
    rewrite Hbl in Hvals, Hlen, Hdbg. rewrite rank_step in Hvals. fold mask' in Hvals.
    cbn [ReadOffsets_loop].
    replace (0 <? mask) with true by (symmetry; apply Z.ltb_lt; lia).
    rewrite ASSERT_ok by (intros Hd; apply bool_decide_eq_true; specialize (Hdbg Hd); lia).
    cbn [mbind result_bind]. rewrite land_1_testbit.
    rewrite bool_decide_true by lia.
    assert (Hbits : forall j, Z.testbit mask (Z.of_nat (S j)) = Z.testbit mask' (Z.of_nat j)).
    { intros j. unfold mask'. rewrite Z.shiftr_spec by lia. f_equal. lia. }
    destruct (Z.testbit mask 0) eqn:Hb0.
    + destruct vals as [|v vals]; [discriminate Hvals|].
      apply Forall_cons in Hrange as [Hv Hrange].
      cbn [map concat]. rewrite <- app_assoc.
      rewrite ReadVarUint32_WriteVarUint by lia. rewrite u32_small by lia.
      cbn [mbind result_bind].
      destruct (IH mask' vals (S index) (<[index:=v]> offsets) Hmask'
                  ltac:(cbn [length] in Hvals; lia) Hrange
                  ltac:(rewrite length_insert; lia) ltac:(intros Hd; specialize (Hdbg Hd); lia))
        as (offsets' & Hrun & Hlen' & Hset & Hkeep).
      exists offsets'. split; [exact Hrun|].
      split; [now rewrite Hlen', length_insert|]. split.
      * intros [|j] Hj.
        -- rewrite Nat.add_0_r, Hkeep by lia. change (Z.of_nat 0) with 0. rewrite Hb0.
           rewrite list_lookup_insert_eq by lia. reflexivity.
        -- replace (index + S j)%nat with (S index + j)%nat by lia.
           rewrite Hset by lia. rewrite Hbits, rank_step, Hb0. reflexivity.
      * intros i Hi. rewrite Hkeep by lia. apply list_lookup_insert_ne. lia.
    + cbn [mbind result_bind].
      destruct (IH mask' vals (S index) (<[index:=kInvalidOffset]> offsets) Hmask'
                  ltac:(lia) Hrange
                  ltac:(rewrite length_insert; lia) ltac:(intros Hd; specialize (Hdbg Hd); lia))
        as (offsets' & Hrun & Hlen' & Hset & Hkeep).
      exists offsets'. split; [exact Hrun|].
      split; [now rewrite Hlen', length_insert|]. split.
      * intros [|j] Hj.
        -- rewrite Nat.add_0_r, Hkeep by lia. change (Z.of_nat 0) with 0. rewrite Hb0.
           rewrite list_lookup_insert_eq by lia. reflexivity.
        -- replace (index + S j)%nat with (S index + j)%nat by lia.
           rewrite Hset by lia. rewrite Hbits, rank_step, Hb0. reflexivity.
      * intros i Hi. rewrite Hkeep by lia. apply list_lookup_insert_ne. lia.
Qed.

Lemma ReadOffsets_run {BM : BuildMode} (hdr : DataHeader) (mask : Z) (vals rest : list Z)
    (offsets : list Z) :
  0 < mask < 256 ->
  length vals = rank mask (bit_length mask) ->
  Forall (fun v => 0 <= v < 2 ^ 32) vals ->
  (bit_length mask <= length offsets)%nat ->
  (DEBUG = true -> (bit_length mask <= GetScalesCount hdr)%nat) ->
  exists offsets',
    ReadOffsets hdr (concat (map WriteVarUint vals) ++ rest) mask offsets =
      Ok (rest, offsets') /\
    length offsets' = length offsets /\
    (forall j, (j < bit_length mask)%nat ->
       offsets' !! j =
         Some (if Z.testbit mask (Z.of_nat j) then nth (rank mask j) vals 0
               else kInvalidOffset)) /\
    (forall i, (bit_length mask <= i)%nat -> offsets' !! i = offsets !! i).
Proof.
  intros Hmask Hvals Hrange Hlen Hdbg.
  destruct (ReadOffsets_loop_spec hdr rest 8 mask vals 0 offsets)
    as (offsets' & Hrun & Hlen' & Hset & Hkeep); try assumption.
  { change (2 ^ Z.of_nat 8) with 256. lia. }
  exists offsets'. split.
  { unfold ReadOffsets. replace (0 <? mask) with true by (symmetry; apply Z.ltb_lt; lia).
    rewrite ASSERT_true. cbn [mbind result_bind]. rewrite u8_small by lia. exact Hrun. }
  split; [exact Hlen'|]. split.
  - intros j Hj. exact (Hset j Hj).
  - intros i Hi. apply Hkeep. right. exact Hi.
Qed.

(** The slots of the offsets array after [ReadOffsets]: going through the
    mask from bit 0 up to its highest set bit, slot [j] takes the next
    offset of the stream when bit [j] is set and [kInvalidOffset] when it
    is clear; exactly one offset is read for each set bit; and the slots
    from the bit length of the mask on keep what they held before. *)
Theorem ReadOffsets_slots {BM : BuildMode} (hdr : DataHeader) (mask : Z) (vals rest : list Z)
    (offsets : list Z) :
  0 < mask < 256 ->
  length vals = rank mask (bit_length mask) ->
  Forall (fun v => 0 <= v < 2 ^ 32) vals ->
  (bit_length mask <= length offsets)%nat ->
  (DEBUG = true -> (bit_length mask <= GetScalesCount hdr)%nat) ->
  exists offsets',
    ReadOffsets hdr (concat (map WriteVarUint vals) ++ rest) mask offsets =
      Ok (rest, offsets') /\
    length offsets' = length offsets /\
    (forall j, (j < bit_length mask)%nat ->
       offsets' !! j =
         Some (if Z.testbit mask (Z.of_nat j) then nth (rank mask j) vals 0
               else kInvalidOffset)) /\
    (forall i, (bit_length mask <= i)%nat -> offsets' !! i = offsets !! i).
Proof. apply ReadOffsets_run. Qed.

Lemma ReadOffsets_slots_witness :
  exists offsets',
    ReadOffsets (BM := true) header_4 (concat (map WriteVarUint [100; 300]) ++ [77]) 5
      [1; 2; 3; 9] = Ok ([77], offsets') /\
    offsets' !! 0%nat = Some 100 /\
    offsets' !! 1%nat = Some kInvalidOffset /\
    offsets' !! 2%nat = Some 300 /\
    offsets' !! 3%nat = Some 9.
Proof.
  destruct (ReadOffsets_slots (BM := true) header_4 5 [100; 300] [77] [1; 2; 3; 9]
              ltac:(lia) ltac:(reflexivity) ltac:(repeat constructor; lia)
              ltac:(vm_compute; lia) ltac:(intros _; vm_compute; lia))
    as (offsets' & Hrun & _ & Hset & Hkeep).
  exists offsets'. split; [exact Hrun|].
  split; [exact (Hset 0%nat ltac:(vm_compute; lia))|].
  split; [exact (Hset 1%nat ltac:(vm_compute; lia))|].
  split; [exact (Hset 2%nat ltac:(vm_compute; lia))|].
  exact (Hkeep 3%nat ltac:(vm_compute; lia)).
Defined.

(** ** The simplification mask bytes and the triangle strip *)

Lemma ReadSimpMask_loop_Write (rest : list Z) : forall (n : nat) (i v acc : Z),
  0 <= i -> i + Z.of_nat n <= 4 -> 0 <= v -> 0 <= acc < 2 ^ (8 * i) ->
  ReadSimpMask_loop n i (WriteSimpMask_loop n v ++ rest) acc =
    Ok (acc + (v mod 2 ^ (8 * Z.of_nat n)) * 2 ^ (8 * i), rest).
Proof.
  induction n as [|n IH]; intros i v acc Hi Hn Hv Hacc.
  - cbn [ReadSimpMask_loop WriteSimpMask_loop app].
    change (2 ^ (8 * Z.of_nat 0)) with 1. rewrite Z.mod_1_r. f_equal. f_equal. lia.
  - cbn [ReadSimpMask_loop WriteSimpMask_loop app].
    assert (Hbyte : 0 <= u8 v < 256) by (unfold u8; apply Z.mod_pos_bound; reflexivity).
    rewrite (u8_small (u8 v)) by exact Hbyte.
    rewrite (Z.shiftl_mul_pow2 i 3) by lia. change (2 ^ 3) with 8.
    rewrite Z.shiftl_mul_pow2 by lia. rewrite (Z.mul_comm i 8).
    assert (Hp : 0 < 2 ^ (8 * i)) by (apply Z.pow_pos_nonneg; lia).
    assert (Hstep : 2 ^ (8 * (i + 1)) = 256 * 2 ^ (8 * i)).
    { replace (8 * (i + 1)) with (8 + 8 * i) by lia. rewrite Z.pow_add_r by lia.
      reflexivity. }
    assert (Hle : 2 ^ (8 * (i + 1)) <= 2 ^ 32).
    { apply Z.pow_le_mono_r; lia. }
    assert (Hterm : 0 <= u8 v * 2 ^ (8 * i) < 2 ^ (8 * (i + 1)) - acc) by nia.
    rewrite (u32_small (u8 v * 2 ^ (8 * i))) by lia.
    rewrite u32_small by lia.
    rewrite IH; [|lia|lia| |lia].
    2:{ rewrite Z.shiftr_div_pow2 by lia. apply Z.div_pos; lia. }
    f_equal. f_equal.
    rewrite Z.shiftr_div_pow2 by lia. change (2 ^ 8) with 256.
    replace (8 * Z.of_nat (S n)) with (8 + 8 * Z.of_nat n) by lia.
    rewrite Z.pow_add_r by lia. change (2 ^ 8) with 256.
    rewrite Z.rem_mul_r by (try apply Z.pow_pos_nonneg; lia).
    rewrite Hstep. unfold u8. change (2 ^ 8) with 256. ring.
Qed.

(** The mask bytes [Serialize] writes for an inline line give the reader of
    [ParseHeader2] the mask back, up to the bits the bytes hold. *)
Lemma ReadSimpMask_loop_roundtrip (n : nat) (v : Z) (rest : list Z) :
  (n <= 4)%nat -> 0 <= v ->
  ReadSimpMask_loop n 0 (WriteSimpMask_loop n v ++ rest) 0 =
    Ok (v mod 2 ^ (8 * Z.of_nat n), rest).
Proof.
  intros Hn Hv. rewrite ReadSimpMask_loop_Write by (simpl; lia).
  f_equal. f_equal. change (2 ^ (8 * 0)) with 1. lia.
Qed.

Lemma simp_tag_mod (v : Z) (n i : nat) :
  (1 <= i)%nat -> (2 * i <= 8 * n)%nat ->
  simp_tag (v mod 2 ^ (8 * Z.of_nat n)) i = simp_tag v i.
Proof.
  intros Hi Hn. unfold simp_tag. apply Z.bits_inj'. intros k Hk.
  rewrite !Z.land_spec. change 3 with (Z.ones 2).
  destruct (Z.lt_ge_cases k 2) as [Hlt|Hge].
  - rewrite !Z.shiftr_spec by lia. rewrite Z.mod_pow2_bits_low by lia. reflexivity.
  - rewrite Z.ones_spec_high by lia. now rewrite !andb_false_r.
Qed.

Section Strip.
Context {G : Geom}.

(** The triangles of a strip: one for each vertex from the third on, made
    of that vertex and the two before it. *)
Definition strip_triangles (points : points_t) (d : PointD) (i n : nat) : points_t :=
  flat_map (fun k => [nth (k - 2) points d; nth (k - 1) points d; nth k points d]) (seq i n).

Lemma Strip_loop_spec (points : points_t) (d : PointD) :
  forall (n i : nat) (triangles : points_t),
  (2 <= i)%nat -> (i + n <= length points)%nat ->
  Strip_loop n i points triangles = Ok (triangles ++ strip_triangles points d i n).
Proof.
  induction n as [|n IH]; intros i triangles Hi Hlen.
  - cbn [Strip_loop strip_triangles seq flat_map]. now rewrite app_nil_r.
  - cbn [Strip_loop].
    assert (Hnth : forall k, (k < length points)%nat -> points !! k = Some (nth k points d)).
    { intros k Hk. destruct (nth_lookup_or_length points k d) as [Hs|Hl]; [exact Hs|lia]. }
    rewrite !Hnth by lia. rewrite IH by lia.
    unfold strip_triangles. cbn [seq flat_map]. now rewrite <- app_assoc.
Qed.

(** The strip loop of [ParseHeader2] on a strip of [n + 2] vertices yields
    [n] triangles, [3 * n] vertices, the [k]-th of them made of the
    vertices [k], [k + 1] and [k + 2] of the strip. *)
Theorem Strip_loop_triangles (points : points_t) (d : PointD) (n : nat) :
  (n + 2 <= length points)%nat ->
  exists triangles,
    Strip_loop n 2 points [] = Ok triangles /\
    length triangles = (3 * n)%nat /\
    forall k, (k < n)%nat ->
      take 3 (drop (3 * k) triangles) =
        [nth k points d; nth (k + 1) points d; nth (k + 2) points d].
Proof.
  intros Hlen. exists (strip_triangles points d 2 n).
  split; [rewrite (Strip_loop_spec points d) by lia; reflexivity|].
  assert (Hgen : forall m i,
            length (strip_triangles points d i m) = (3 * m)%nat /\
            forall k, (k < m)%nat ->
              take 3 (drop (3 * k) (strip_triangles points d i m)) =
                [nth (i + k - 2) points d; nth (i + k - 1) points d; nth (i + k) points d]).
  { induction m as [|m IH]; intros i.
    - split; [reflexivity|]. intros k Hk. lia.
    - destruct (IH (S i)) as [Hl Ht]. unfold strip_triangles in *.
      cbn [seq flat_map]. split; [cbn [app length]; rewrite Hl; lia|].
      intros [|k] Hk.
      + rewrite Nat.mul_0_r, Nat.add_0_r. reflexivity.
      + replace (3 * S k)%nat with (3 + 3 * k)%nat by lia.
        cbn [app]. change (drop (3 + 3 * k) (?a :: ?b :: ?c :: ?l)) with (drop (3 * k) l).
        rewrite Ht by lia.
        replace (S i + k - 2)%nat with (i + S k - 2)%nat by lia.
        replace (S i + k - 1)%nat with (i + S k - 1)%nat by lia.
        replace (S i + k)%nat with (i + S k)%nat by lia. reflexivity. }
  destruct (Hgen n 2%nat) as [Hl Ht]. split; [exact Hl|].
  intros k Hk. rewrite Ht by assumption.
  replace (2 + k - 2)%nat with k by lia.
  replace (2 + k - 1)%nat with (k + 1)%nat by lia.
  replace (2 + k)%nat with (k + 2)%nat by lia. reflexivity.
Qed.

End Strip.

Lemma Strip_loop_triangles_witness :
  exists triangles,
    Strip_loop (G := GridGeom) 2 2 [(0, 0); (1, 0); (1, 1); (2, 1)] [] = Ok triangles /\
    length triangles = 6%nat.
Proof.
  destruct (Strip_loop_triangles (G := GridGeom) [(0, 0); (1, 0); (1, 1); (2, 1)] (0, 0) 2
              ltac:(simpl; lia)) as (triangles & Hrun & Hlen & _).
  exists triangles. split; assumption.
Defined.

(** ** The layout of a Stage-2 record *)

(** Nibbles packed two to a byte, the first in the low half. *)
Fixpoint pack_nibbles (ns : list Z) : list Z :=
  match ns with
  | [] => []
  | [a] => [a]
  | a :: b :: ns' => (a + b * 2 ^ 4) :: pack_nibbles ns'
  end.

Section Stage2Layout.
Context {BM : BuildMode} {G : Geom}.
Import buffers_holder_t.

(** The nibbles of header2 for the line part and for the area part: the
    inline count, or 0 and then the mask of the scales with outer
    geometry; the area part counts the strip vertices less two. *)
Definition line_nibbles (b : FeatureBuilder1) (data : buffers_holder_t) : list Z :=
  if m_bLinear b then
    if (length (m_innerPts data) =? 0)%nat then [0; m_ptsMask data]
    else [Z.of_nat (length (m_innerPts data))]
  else [].

Definition area_nibbles (b : FeatureBuilder1) (data : buffers_holder_t) : list Z :=
  if m_bArea b then
    if (length (m_innerTrg data) =? 0)%nat then [0; m_trgMask data]
    else [Z.of_nat (length (m_innerTrg data)) - 2]
  else [].

(** The bytes behind header2: for a line the mask bytes and the inline
    path, or the offsets in ascending scale order; for an area the inline
    strip, or the offsets. *)
Definition line_payload (b : FeatureBuilder1) (data : buffers_holder_t) (base : Z) : list Z :=
  if m_bLinear b then
    if (length (m_innerPts data) =? 0)%nat then WriteVarUintArray (rev (m_ptsOffset data))
    else
      (if 2 <? Z.of_nat (length (m_innerPts data))
       then WriteSimpMask_loop
              (Z.to_nat (Z.quot (Z.of_nat (length (m_innerPts data)) - 2 + 3) 4))
              (m_ptsSimpMask data)
       else []) ++
      SaveInnerPath (m_innerPts data) base
  else [].

Definition area_payload (b : FeatureBuilder1) (data : buffers_holder_t) (base : Z) : list Z :=
  if m_bArea b then
    if (length (m_innerTrg data) =? 0)%nat then WriteVarUintArray (rev (m_trgOffset data))
    else SaveInnerTriangles (m_innerTrg data) base
  else [].

(** What the caller owes [Serialize]: at most 15 inline points, no inline
    strip or one of 3 to 17 vertices, and four-bit masks where a mask is
    written. *)
Definition stage2_writable (b : FeatureBuilder1) (data : buffers_holder_t) : Prop :=
  (length (m_innerPts data) <= 15)%nat /\
  (length (m_innerTrg data) = 0%nat \/ (3 <= length (m_innerTrg data) <= 17)%nat) /\
  (m_bLinear b = true -> length (m_innerPts data) = 0%nat -> 0 <= m_ptsMask data < 16) /\
  (m_bArea b = true -> length (m_innerTrg data) = 0%nat -> 0 <= m_trgMask data < 16).

Lemma BitSink_Write_nibble_0 (sink : list Z) (v : Z) :
  0 <= v < 16 ->
  BitSink_Write v 4 (BitSink.mk sink 0 0) = Ok (BitSink.mk sink 4 v).
Proof.
  intros Hv. rewrite BitSink_Write_fits.
  - cbn [BitSink.m_sink BitSink.m_pos BitSink.m_current]. f_equal. f_equal. lia.
  - split; simpl; lia.
  - split; simpl; lia.
  - simpl. lia.
Qed.

Lemma BitSink_Write_nibble_4 (sink : list Z) (a v : Z) :
  0 <= a < 16 -> 0 <= v < 16 ->
  BitSink_Write v 4 (BitSink.mk sink 4 a) = Ok (BitSink.mk sink 8 (a + v * 2 ^ 4)).
Proof.
  intros Ha Hv. rewrite BitSink_Write_fits.
  - reflexivity.
  - split; simpl; lia.
  - split; simpl; lia.
  - simpl. lia.
Qed.

Lemma BitSink_Write_nibble_8 (sink : list Z) (c v : Z) :
  0 <= c < 256 -> 0 <= v < 16 ->
  BitSink_Write v 4 (BitSink.mk sink 8 c) = Ok (BitSink.mk (sink ++ [c]) 4 v).
Proof.
  intros Hc Hv. rewrite BitSink_Write_crossing.
  - reflexivity.
  - split; simpl; lia.
  - split; simpl; lia.
  - simpl. lia.
Qed.

Lemma FeatureBuilder2_Serialize_layout_run (b : FeatureBuilder1) (data : buffers_holder_t)
    (base : Z) :
  stage2_writable b data ->
  exists data',
    FeatureBuilder2_Serialize b data base = Ok data' /\
    m_buffer data' =
      SerializeBase b (Uint64ToPointU (u64 base)) ++
      pack_nibbles (line_nibbles b data ++ area_nibbles b data) ++
      line_payload b data base ++ area_payload b data base.
Proof.
  intros (HnP & HnT & HmP & HmT).
  unfold FeatureBuilder2_Serialize, line_nibbles, area_nibbles, line_payload, area_payload.
  set (buffer0 := SerializeBase b (Uint64ToPointU (u64 base))).
  set (nP := length (m_innerPts data)) in *.
  set (nT := length (m_innerTrg data)) in *.
  rewrite (u8_small (Z.of_nat nP)), (u8_small (Z.of_nat nT)) by lia.
  unfold BitSink_ctor.
  assert (HP : (nP = 0%nat /\ (Z.of_nat nP =? 0) = true /\ (0 <? Z.of_nat nP) = false /\
                (nP =? 0)%nat = true) \/
               ((nP <> 0)%nat /\ (Z.of_nat nP =? 0) = false /\ (0 <? Z.of_nat nP) = true /\
                (nP =? 0)%nat = false)).
  { destruct (Nat.eq_dec nP 0%nat) as [Hz|Hz]; [left|right]; split; try assumption;
      (split; [|split]);
      first [apply Z.eqb_eq | apply Z.eqb_neq | apply Z.ltb_lt | apply Z.ltb_ge
            | apply Nat.eqb_eq | apply Nat.eqb_neq]; lia. }
  assert (HT : (nT = 0%nat /\ (0 <? Z.of_nat nT) = false /\ (Z.of_nat nT =? 0) = true /\
                (nT =? 0)%nat = true) \/
               ((3 <= nT <= 17)%nat /\ (0 <? Z.of_nat nT) = true /\
                (2 <? Z.of_nat nT) = true /\
                u8 (Z.of_nat nT - 2) = Z.of_nat nT - 2 /\
                (Z.of_nat nT - 2 =? 0) = false /\ (0 <? Z.of_nat nT - 2) = true /\
                (nT =? 0)%nat = false)).
  { destruct HnT as [Hz|Hz]; [left|right]; split; try assumption.
    - split; [|split];
        first [apply Z.eqb_eq | apply Z.ltb_ge | apply Nat.eqb_eq]; lia.
    - split; [apply Z.ltb_lt; lia|]. split; [apply Z.ltb_lt; lia|].
      split; [apply u8_small; lia|]. split; [apply Z.eqb_neq; lia|].
      split; [apply Z.ltb_lt; lia|apply Nat.eqb_neq; lia]. }
  destruct HP as [(HP0 & HPa & HPb & HPc)|(HPn & HPa & HPb & HPc)];
    destruct HT as [(HT0 & HTa & HTb & HTc)|(HTn & HTa & HTb & HTu & HTc & HTd & HTe)];
    rewrite ?HPa, ?HPb, ?HPc, ?HTa, ?HTb, ?HTc, ?HTe, ?ASSERT_true;
    cbn [mbind result_bind];
    rewrite ?HTu, ?HTc, ?HTd, ?HTb;
    destruct (m_bLinear b) eqn:Hl, (m_bArea b) eqn:Ha;
    cbn [mbind result_bind];
    try (pose proof (HmP eq_refl HP0));
    try (pose proof (HmT eq_refl HT0));
    try replace (Z.of_nat nP) with 0 by lia;
    try replace (Z.of_nat nT) with 0 by lia;
    repeat (first [ rewrite BitSink_Write_nibble_0 by lia
                  | rewrite BitSink_Write_nibble_4 by lia
                  | rewrite BitSink_Write_nibble_8 by lia ];
            cbn [mbind result_bind]);
    cbn [Z.eqb Z.ltb Z.compare mbind result_bind];
    unfold BitSink_Finish;
    cbn [BitSink.m_pos BitSink.m_sink BitSink.m_current Z.ltb Z.compare];
    (eexists; split; [reflexivity|]);
    cbn [m_buffer pack_nibbles app];
    rewrite <- ?app_assoc, ?app_nil_r; cbn [app]; reflexivity.
Qed.

End Stage2Layout.

(** The record [Serialize] leaves in the buffer is the base block, the
    nibbles of header2 packed two to a byte with the first in the low
    half, the line payload and the area payload, in this order. *)
Theorem FeatureBuilder2_Serialize_layout {BM : BuildMode} {G : Geom} (b : FeatureBuilder1)
    (data : buffers_holder_t) (base : Z) :
  stage2_writable b data ->
  exists data',
    FeatureBuilder2_Serialize b data base = Ok data' /\
    buffers_holder_t.m_buffer data' =
      SerializeBase b (Uint64ToPointU (u64 base)) ++
      pack_nibbles (line_nibbles b data ++ area_nibbles b data) ++
      line_payload b data base ++ area_payload b data base.
Proof. apply FeatureBuilder2_Serialize_layout_run. Qed.

Lemma FeatureBuilder2_Serialize_layout_witness :
  exists data',
    FeatureBuilder2_Serialize (BM := true) grid_line (grid_outer_buffers 5 [300; 100]) 0 =
      Ok data' /\
    buffers_holder_t.m_buffer data' = [65; 1] ++ [80] ++ [100; 172; 2].
Proof.
  destruct (FeatureBuilder2_Serialize_layout (BM := true) grid_line
              (grid_outer_buffers 5 [300; 100]) 0)
    as (data' & Hrun & Hbuf).
  - unfold stage2_writable. simpl. repeat split; try lia; auto.
  - exists data'. split; [exact Hrun|]. rewrite Hbuf. reflexivity.
Defined.

(** ** Reading a Stage-2 record back *)

Lemma BitSource_Read_nibble_lo {BM : BuildMode} (a b : Z) (next : list Z) :
  0 <= a < 16 -> 0 <= b < 16 ->
  BitSource_Read 4 (BitSource.mk ((a + b * 2 ^ 4) :: next) 0) =
    Ok (a, BitSource.mk ((a + b * 2 ^ 4) :: next) 4).
Proof.
  intros Ha Hb.
  destruct (BitSource_Read_value (a + b * 2 ^ 4) next 0 4 ltac:(lia) ltac:(lia) ltac:(lia))
    as [Hlt _].
  rewrite Hlt by lia. do 2 f_equal.
  apply (field_of_extract (a + b * 2 ^ 4) 0 4 0 a); try lia.
  rewrite Z.pow_0_r, Z.mul_1_r, Z.add_0_l.
  change (2 ^ (0 + 4)) with 16. change (2 ^ 4) with 16.
  rewrite Z.mod_add by lia. apply Z.mod_small. lia.
Qed.

Lemma BitSource_Read_nibble_hi {BM : BuildMode} (a b : Z) (next : list Z) :
  0 <= a < 16 -> 0 <= b < 16 ->
  BitSource_Read 4 (BitSource.mk ((a + b * 2 ^ 4) :: next) 4) =
    Ok (b, BitSource.mk next 0).
Proof.
  intros Ha Hb.
  destruct (BitSource_Read_value (a + b * 2 ^ 4) next 4 4 ltac:(lia) ltac:(lia) ltac:(lia))
    as [_ Heq].
  rewrite Heq by lia. do 2 f_equal.
  apply (field_of_extract (a + b * 2 ^ 4) 4 4 a b); try lia.
  change (2 ^ (4 + 4)) with 256. apply Z.mod_small. lia.
Qed.

Lemma BitSource_Read_nibble_single {BM : BuildMode} (a : Z) (next : list Z) :
  0 <= a < 16 ->
  BitSource_Read 4 (BitSource.mk (a :: next) 0) = Ok (a, BitSource.mk (a :: next) 4).
Proof.
  intros Ha. pose proof (BitSource_Read_nibble_lo a 0 next Ha ltac:(lia)) as Hr.
  now rewrite Z.mul_0_l, Z.add_0_r in Hr.
Qed.

Section Stage2Read.
Context {BM : BuildMode} {G : Geom} {DC : Decls}.

(** The number of mask bytes of an inline line of [nP] points. *)
Definition simp_count (nP : nat) : nat := Z.to_nat (Z.quot (Z.of_nat nP - 2 + 3) 4).

(** The slots of an offsets array after [mask] and [vals] were read into
    [old]. *)
Definition slots_filled (mask : Z) (vals old new : list Z) : Prop :=
  length new = length old /\
  (forall j, (j < bit_length mask)%nat ->
     new !! j = Some (if Z.testbit mask (Z.of_nat j) then nth (rank mask j) vals 0
                      else kInvalidOffset)) /\
  (forall i, (bit_length mask <= i)%nat -> new !! i = old !! i).

(** An outer geometry the reader can take in: a mask that is not 0, one
    32-bit offset for each set bit, room for the slots in the reader's array
    and, where ASSERT is compiled in, a scale for each slot; the array codec
    writes one varint for each offset. *)
Definition outer_readable (hdr : DataHeader) (mask : Z) (offs old : list Z) : Prop :=
  0 < mask /\
  length offs = rank mask (bit_length mask) /\
  Forall (fun v => 0 <= v < 2 ^ 32) offs /\
  (bit_length mask <= length old)%nat /\
  (DEBUG = true -> (bit_length mask <= GetScalesCount hdr)%nat) /\
  WriteVarUintArray offs = concat (map WriteVarUint offs).

Definition line_readable (b : FeatureBuilder1) (data : buffers_holder_t) (base : Z)
    (hdr : DataHeader) (old : list Z) (pts' : points_t) : Prop :=
  m_bLinear b = true ->
  let nP := length (buffers_holder_t.m_innerPts data) in
  (nP = 0%nat ->
   outer_readable hdr (buffers_holder_t.m_ptsMask data)
     (rev (buffers_holder_t.m_ptsOffset data)) old) /\
  (nP <> 0%nat ->
   (2 <= nP)%nat /\ (DEBUG = true -> (nP <= 14)%nat) /\
   0 <= buffers_holder_t.m_ptsSimpMask data /\
   forall R, LoadInnerPath (SaveInnerPath (buffers_holder_t.m_innerPts data) base ++ R)
               (Z.of_nat nP) base [] = Some (pts', R)).

Definition area_readable (b : FeatureBuilder1) (data : buffers_holder_t) (base : Z)
    (hdr : DataHeader) (old : list Z) (trg' : points_t) : Prop :=
  m_bArea b = true ->
  let nT := length (buffers_holder_t.m_innerTrg data) in
  (nT = 0%nat ->
   outer_readable hdr (buffers_holder_t.m_trgMask data)
     (rev (buffers_holder_t.m_trgOffset data)) old) /\
  (nT <> 0%nat ->
   length trg' = nT /\
   forall R, LoadInnerTriangles (SaveInnerTriangles (buffers_holder_t.m_innerTrg data) base ++ R)
               (Z.of_nat nT) base [] = Some (trg', R)).

(** The header2 stage once the common stage has run. *)
Lemma ParseHeader2_after_common (s : FeatureType) (f' : FeatureBase) :
  FeatureBase.m_bCommonParsed (base s) = false ->
  ParseCommon (base s) = Ok f' ->
  FeatureBase.m_bCommonParsed f' = true ->
  ParseHeader2 s = ParseHeader2 (set_base f' s).
Proof.
  intros Hno Hrun Hyes. unfold ParseHeader2, ParseBase.
  cbn [set_base m_bHeader2Parsed base]. rewrite Hno, Hyes, Hrun. reflexivity.
Qed.

(** What header2 leaves of the line part and of the area part. *)
Definition line_result (b : FeatureBuilder1) (data : buffers_holder_t) (bs : Z)
    (s s' : FeatureType) (pts' : points_t) : Prop :=
  let nP := length (buffers_holder_t.m_innerPts data) in
  (m_bLinear b = false ->
   m_Points s' = [] /\ m_ptsOffsets s' = m_ptsOffsets s /\ m_ptsSimpMask s' = 0) /\
  (m_bLinear b = true -> nP = 0%nat ->
   m_Points s' = [] /\
   slots_filled (buffers_holder_t.m_ptsMask data) (rev (buffers_holder_t.m_ptsOffset data))
     (m_ptsOffsets s) (m_ptsOffsets s')) /\
  (m_bLinear b = true -> nP <> 0%nat ->
   m_Points s' = pts' /\ m_ptsOffsets s' = m_ptsOffsets s /\
   m_ptsSimpMask s' =
     buffers_holder_t.m_ptsSimpMask data mod 2 ^ (8 * Z.of_nat (simp_count nP)) /\
   stat_Points s' = Z.of_nat (length (SaveInnerPath (buffers_holder_t.m_innerPts data) bs))).

Definition area_result (b : FeatureBuilder1) (data : buffers_holder_t) (bs : Z)
    (s s' : FeatureType) (trg' : points_t) (d : PointD) : Prop :=
  let nT := length (buffers_holder_t.m_innerTrg data) in
  (m_bArea b = false -> m_Triangles s' = [] /\ m_trgOffsets s' = m_trgOffsets s) /\
  (m_bArea b = true -> nT = 0%nat ->
   m_Triangles s' = [] /\
   slots_filled (buffers_holder_t.m_trgMask data) (rev (buffers_holder_t.m_trgOffset data))
     (m_trgOffsets s) (m_trgOffsets s')) /\
  (m_bArea b = true -> nT <> 0%nat ->
   m_Triangles s' = strip_triangles trg' d 2 (nT - 2) /\
   m_trgOffsets s' = m_trgOffsets s /\
   stat_Strips s' =
     Z.of_nat (length (SaveInnerTriangles (buffers_holder_t.m_innerTrg data) bs))).

Lemma simp_mask_bytes (nP : nat) (v : Z) :
  (if 2 <? Z.of_nat nP
   then WriteSimpMask_loop (Z.to_nat (Z.quot (Z.of_nat nP - 2 + 3) 4)) v else []) =
  WriteSimpMask_loop (simp_count nP) v.
Proof.
  destruct (Z.ltb_spec 2 (Z.of_nat nP)) as [|Hle]; [reflexivity|].
  unfold simp_count. rewrite Z.quot_div_nonneg by lia.
  rewrite Z.div_small by lia. reflexivity.
Qed.

Lemma simp_count_bounds (nP : nat) :
  ((nP <= 15)%nat -> (simp_count nP <= 4)%nat) /\
  ((nP <= 14)%nat -> Z.quot (Z.of_nat nP - 2 + 3) 4 < 4).
Proof.
  unfold simp_count. rewrite Z.quot_div_nonneg by lia. split; intros Hn.
  - assert ((Z.of_nat nP - 2 + 3) / 4 < 5) by (apply Z.div_lt_upper_bound; lia). lia.
  - apply Z.div_lt_upper_bound; lia.
Qed.

Lemma ParseHeader2_tail (b : FeatureBuilder1) (data : buffers_holder_t) (bs : Z)
    (rest : list Z) (s : FeatureType) (pts' trg' : points_t) (d : PointD) :
  (length (m_Types b) <= m_maxTypesCount)%nat ->
  stage2_writable b data ->
  line_readable b data bs (m_header s) (m_ptsOffsets s) pts' ->
  area_readable b data bs (m_header s) (m_trgOffsets s) trg' ->
  m_bHeader2Parsed s = false ->
  FeatureBase.m_bCommonParsed (base s) = true ->
  Header (base s) = GetHeader b ->
  FeatureBase.m_base (base s) = bs ->
  drop (FeatureBase.m_Header2Offset (base s)) (DataPtr (base s)) =
    pack_nibbles (line_nibbles b data ++ area_nibbles b data) ++
    line_payload b data bs ++ area_payload b data bs ++ rest ->
  m_Points s = [] -> m_Triangles s = [] -> m_ptsSimpMask s = 0 ->
  exists s',
    ParseHeader2 s = Ok s' /\
    base s' = base s /\
    m_bHeader2Parsed s' = true /\
    m_bPointsParsed s' = m_bPointsParsed s /\
    m_bTrianglesParsed s' = m_bTrianglesParsed s /\
    opened s' = opened s /\
    m_header s' = m_header s /\
    stat_Size s' = Z.of_nat (length (DataPtr (base s)) - length rest) /\
    line_result b data bs s s' pts' /\
    area_result b data bs s s' trg' d.
Proof.
  intros Hcount (HnP & HnT & HmP & HmT) Hline Harea Hh2 Hcp Hhdr Hbase Hsrc Hpts Htrg Hsm.
  destruct (GetHeader_decode b Hcount) as (_ & _ & _ & _ & _ & Hfl & Hfa).
  unfold ParseHeader2. rewrite Hh2, Hcp. cbn [negb]. rewrite ASSERT_true.
  cbn [mbind result_bind]. rewrite Hhdr, Hfl, Hfa, Hsrc.
  unfold line_readable in Hline. unfold area_readable in Harea.
  unfold line_result, area_result.
  unfold line_nibbles, area_nibbles, line_payload, area_payload.
  rewrite simp_mask_bytes.
  set (nP := length (buffers_holder_t.m_innerPts data)) in *.
  set (nT := length (buffers_holder_t.m_innerTrg data)) in *.
  destruct (simp_count_bounds nP) as [Hsc4 Hsc3].
  unfold BitSource_ctor.
  assert (HP : (nP = 0%nat /\ (nP =? 0)%nat = true) \/
               ((nP <> 0)%nat /\ (Z.of_nat nP =? 0) = false /\ (0 <? Z.of_nat nP) = true /\
                (nP =? 0)%nat = false)).
  { destruct (Nat.eq_dec nP 0%nat) as [Hz|Hz]; [left|right]; split; try assumption;
      [apply Nat.eqb_eq; lia|].
    split; [apply Z.eqb_neq; lia|]. split; [apply Z.ltb_lt; lia|apply Nat.eqb_neq; lia]. }
  assert (HT : (nT = 0%nat /\ (nT =? 0)%nat = true) \/
               ((3 <= nT <= 17)%nat /\
                u8 (Z.of_nat nT - 2 + 2) = Z.of_nat nT /\
                (Z.of_nat nT - 2 =? 0) = false /\ (0 <? Z.of_nat nT - 2) = true /\
                (nT =? 0)%nat = false)).
  { destruct HnT as [Hz|Hz]; [left|right]; split; try assumption.
    - apply Nat.eqb_eq; lia.
    - split; [rewrite u8_small; lia|]. split; [apply Z.eqb_neq; lia|].
      split; [apply Z.ltb_lt; lia|apply Nat.eqb_neq; lia]. }
  destruct HP as [(HP0 & HPc)|(HPn & HPa & HPb & HPc)];
    destruct HT as [(HT0 & HTc)|(HTn & HTu & HTa & HTb & HTc)];
    rewrite ?HPc, ?HTc;
    destruct (m_bLinear b) eqn:Hl, (m_bArea b) eqn:Ha;
    rewrite <- ?app_assoc;
    cbn [app pack_nibbles mbind result_bind];
    try (destruct (Hline eq_refl) as [HLo HLi]);
    try (destruct (Harea eq_refl) as [HAo HAi]);
    try (pose proof (HmP eq_refl HP0) as HmP');
    try (pose proof (HmT eq_refl HT0) as HmT');
    try (destruct (HLo HP0) as (HLm & HLlen & HLrng & HLold & HLdbg & HLwva); rewrite HLwva);
    try (destruct (HLi HPn) as (HL2 & HL14 & HLsm & HLdec));
    try (destruct (HAo HT0) as (HAm & HAlen & HArng & HAold & HAdbg & HAwva); rewrite HAwva);
    try (destruct (HAi ltac:(lia)) as (HAl & HAdec));
    repeat
      (first
         [ rewrite BitSource_Read_nibble_lo by lia
         | rewrite BitSource_Read_nibble_hi by lia
         | rewrite BitSource_Read_nibble_single by lia
         | rewrite ASSERT_true
         | rewrite ASSERT_ok by (intros Hd; apply Z.ltb_lt; first [lia | apply Hsc3; auto])
         | progress rewrite ?HPa, ?HPb, ?HTa, ?HTb, ?HTu, ?Hbase, ?Hpts, ?Htrg, ?Hsm
         | rewrite ReadSimpMask_loop_roundtrip by (first [lia | apply Hsc4; lia])
         | rewrite HLdec
         | rewrite HAdec
         | rewrite (Strip_loop_spec trg' d) by lia
         | match goal with
           | |- context [ReadOffsets ?h (concat (map WriteVarUint ?vals) ++ ?R) ?m ?o] =>
               let o' := fresh "offs" in
               let Hro := fresh "Hro" in
               let Hsf := fresh "Hsf" in
               destruct (ReadOffsets_run h m vals R o) as (o' & Hro & Hsf);
               [lia|assumption|assumption|assumption|assumption|];
               change (slots_filled m vals o o') in Hsf;
               rewrite Hro
           end
         | rewrite drop_0
         | progress unfold BitSource_RoundPtr
         | progress cbn [mbind result_bind decoded Z.eqb Z.ltb Z.compare fst snd drop app
                         BitSource.m_pos BitSource.m_ptr
                         set_base set_Points set_Triangles set_bHeader2Parsed
                         set_ptsSimpMask set_ptsOffsets set_trgOffsets
                         set_stat_Points set_stat_Strips set_stat_Size
                         base m_cont m_header m_Points m_Triangles m_bHeader2Parsed
                         m_bPointsParsed m_bTrianglesParsed m_ptsSimpMask m_ptsOffsets
                         m_trgOffsets stat_Points stat_Strips stat_Size opened] ]).
  all: eexists; (split; [reflexivity|]).
  all: cbn [set_base set_Points set_Triangles set_bHeader2Parsed
            set_ptsSimpMask set_ptsOffsets set_trgOffsets
            set_stat_Points set_stat_Strips set_stat_Size
            base m_cont m_header m_Points m_Triangles m_bHeader2Parsed
            m_bPointsParsed m_bTrianglesParsed m_ptsSimpMask m_ptsOffsets
            m_trgOffsets stat_Points stat_Strips stat_Size opened].
  all: repeat match goal with
              | H : slots_filled _ _ _ _ |- _ => destruct H as (? & ? & ?)
              end.
  all: repeat split; try reflexivity; try assumption; try (intros; discriminate);
       try (intros; exfalso; lia); intros.
  all: solve [auto | f_equal; lia | rewrite length_app; f_equal; lia].
Qed.

Lemma Stage2_run (b : FeatureBuilder1) (data : buffers_holder_t)
    (cont : FilesContainerR) (hdr : DataHeader) (pre rest : list Z) (s_old : FeatureType)
    (pts' trg' : points_t) (d : PointD) :
  (length (m_Types b) <= m_maxTypesCount)%nat ->
  (length (m_Types b) <= length (FeatureBase.m_Types (base s_old)))%nat ->
  Forall (fun t => 0 <= t < 2 ^ 32) (m_Types b) ->
  - 2 ^ 31 <= m_Layer b < 2 ^ 31 ->
  Z.of_nat (length (m_Name b)) < 2 ^ 32 ->
  stage2_writable b data ->
  line_readable b data (hdr_base hdr) hdr (m_ptsOffsets s_old) pts' ->
  area_readable b data (hdr_base hdr) hdr (m_trgOffsets s_old) trg' ->
  exists data' s',
    FeatureBuilder2_Serialize b data (hdr_base hdr) = Ok data' /\
    ParseHeader2
      (FeatureType_Deserialize
         (read_source_t.mk _ cont hdr (pre ++ buffers_holder_t.m_buffer data' ++ rest)
            (length pre)) s_old) = Ok s' /\
    Header (base s') = GetHeader b /\
    take (GetTypesCount (base s')) (FeatureBase.m_Types (base s')) = m_Types b /\
    FeatureBase.m_Layer (base s') = m_Layer b /\
    FeatureBase.m_Name (base s') = m_Name b /\
    m_bHeader2Parsed s' = true /\
    stat_Size s' = Z.of_nat (length (buffers_holder_t.m_buffer data')) /\
    line_result b data (hdr_base hdr) s_old s' pts' /\
    area_result b data (hdr_base hdr) s_old s' trg' d /\
    m_bPointsParsed s' = false /\ m_bTrianglesParsed s' = false /\
    opened s' = opened s_old /\ m_header s' = hdr.
Proof.
  intros Hcount Harr Hrange Hlayer Hname Hw Hline Harea.
  destruct (FeatureBuilder2_Serialize_layout_run b data (hdr_base hdr) Hw)
    as (data' & Hser & Hbuf).
  exists data'. rewrite Hbuf. clear Hbuf.
  set (bp := Uint64ToPointU (u64 (hdr_base hdr))).
  set (tail := pack_nibbles (line_nibbles b data ++ area_nibbles b data) ++
               line_payload b data (hdr_base hdr) ++ area_payload b data (hdr_base hdr)).
  assert (Hdata : pre ++ (SerializeBase b bp ++ tail) ++ rest =
                  pre ++ SerializeBase b bp ++ (tail ++ rest))
    by (now rewrite <- !app_assoc).
  rewrite Hdata.
  set (s0 := FeatureType_Deserialize _ s_old).
  set (f' := parsed_base b bp pre (tail ++ rest) (hdr_base hdr) (base s_old)).
  assert (HPC : ParseCommon (base s0) = Ok f').
  { unfold s0, FeatureType_Deserialize.
    cbn [base read_source_t.m_data read_source_t.m_offset read_source_t.m_header].
    now apply ParseCommon_SerializeBase. }
  rewrite (ParseHeader2_after_common s0 f' eq_refl HPC eq_refl).
  destruct (GetHeader_decode b Hcount) as (Hh & Hc & _).
  assert (HD : DataPtr f' = SerializeBase b bp ++ tail ++ rest).
  { unfold DataPtr, f', parsed_base. cbn [FeatureBase.m_Offset FeatureBase.m_Data].
    apply drop_app_length. }
  assert (Hhdr : Header f' = GetHeader b).
  { unfold Header. rewrite HD. unfold SerializeBase. cbn [app]. now apply u8_small. }
  assert (Hsrc : drop (FeatureBase.m_Header2Offset f') (DataPtr f') =
                 pack_nibbles (line_nibbles b data ++ area_nibbles b data) ++
                 line_payload b data (hdr_base hdr) ++
                 area_payload b data (hdr_base hdr) ++ rest).
  { rewrite HD. change (FeatureBase.m_Header2Offset f') with (length (SerializeBase b bp)).
    rewrite drop_app_length. unfold tail. now rewrite <- !app_assoc. }
  destruct (ParseHeader2_tail b data (hdr_base hdr) rest (set_base f' s0) pts' trg' d
              Hcount Hw Hline Harea eq_refl eq_refl Hhdr eq_refl Hsrc eq_refl eq_refl
              eq_refl)
    as (s' & Hrun & Hb & Hh2 & Hpp & Htp & Hop & Hhd & Hsize & Hlr & Har).
  exists s'. split; [exact Hser|]. split; [exact Hrun|].
  rewrite Hb. cbn [set_base base]. split; [exact Hhdr|]. split.
  { unfold GetTypesCount. rewrite Hhdr, Hc, Nat2Z.id. unfold f', parsed_base.
    cbn [FeatureBase.m_Types]. rewrite map_u32_id by assumption. apply take_app_length. }
  split; [reflexivity|]. split; [reflexivity|]. split; [exact Hh2|].
  split; [|split; [exact Hlr|split; [exact Har|auto]]].
  rewrite Hsize. cbn [set_base base]. rewrite HD, !length_app. f_equal. lia.
Qed.

(** A Stage-2 record read back.  For a builder with at most
    [m_maxTypesCount] 32-bit types, a 32-bit layer and a name below 2^32
    bytes, buffers the writer accepts and the reader can take in, and the
    base of the reader's header as the base of the writer: [Serialize]
    succeeds, and [ParseHeader2] on a reader deserialized over the record
    (behind [pre], followed by [rest]) succeeds in every build.  The reader
    then holds the header byte, the types, the layer and the name of the
    builder; for outer geometry one offset slot for each bit of the mask,
    in ascending scale order; for an inline line the decoded points and the
    simplification mask, up to the bits its bytes hold; for an inline strip
    the triangles of the decoded strip; and it has consumed the record and
    nothing more. *)
Theorem Stage2_roundtrip (b : FeatureBuilder1) (data : buffers_holder_t)
    (cont : FilesContainerR) (hdr : DataHeader) (pre rest : list Z) (s_old : FeatureType)
    (pts' trg' : points_t) (d : PointD) :
  (length (m_Types b) <= m_maxTypesCount)%nat ->
  (length (m_Types b) <= length (FeatureBase.m_Types (base s_old)))%nat ->
  Forall (fun t => 0 <= t < 2 ^ 32) (m_Types b) ->
  - 2 ^ 31 <= m_Layer b < 2 ^ 31 ->
  Z.of_nat (length (m_Name b)) < 2 ^ 32 ->
  stage2_writable b data ->
  line_readable b data (hdr_base hdr) hdr (m_ptsOffsets s_old) pts' ->
  area_readable b data (hdr_base hdr) hdr (m_trgOffsets s_old) trg' ->
  exists data' s',
    FeatureBuilder2_Serialize b data (hdr_base hdr) = Ok data' /\
    ParseHeader2
      (FeatureType_Deserialize
         (read_source_t.mk _ cont hdr (pre ++ buffers_holder_t.m_buffer data' ++ rest)
            (length pre)) s_old) = Ok s' /\
    Header (base s') = GetHeader b /\
    take (GetTypesCount (base s')) (FeatureBase.m_Types (base s')) = m_Types b /\
    FeatureBase.m_Layer (base s') = m_Layer b /\
    FeatureBase.m_Name (base s') = m_Name b /\
    m_bHeader2Parsed s' = true /\
    stat_Size s' = Z.of_nat (length (buffers_holder_t.m_buffer data')) /\
    line_result b data (hdr_base hdr) s_old s' pts' /\
    area_result b data (hdr_base hdr) s_old s' trg' d.
Proof.
  intros Hcount Harr Hrange Hlayer Hname Hw Hline Harea.
  destruct (Stage2_run b data cont hdr pre rest s_old pts' trg' d Hcount Harr Hrange
              Hlayer Hname Hw Hline Harea)
    as (data' & s' & Hser & Hrun & Hh & Ht & Hl & Hn & Hh2 & Hsz & Hlr & Har & _).
  exists data', s'. auto 10.
Qed.

End Stage2Read.

(** A feature that is both a line and an area, with three inline points
    and the triangles of scale index 1 stored outside. *)
Definition grid_line_area : FeatureBuilder1 (G := GridGeom) :=
  SetLinear (set_bArea true grid_area).

Definition grid_inline_buffers : buffers_holder_t (G := GridGeom) :=
  buffers_holder_t.mk GridGeom [] [(0, 0); (1, 1); (2, 0)] [] 0 2 1 [] [500].

Lemma Stage2_roundtrip_witness :
  exists (data' : buffers_holder_t (G := GridGeom))
         (s' : FeatureType (G := GridGeom) (DC := GridDecls)),
    FeatureBuilder2_Serialize (BM := true) grid_line_area grid_inline_buffers 0 = Ok data' /\
    ParseHeader2 (BM := true)
      (FeatureType_Deserialize
         (read_source_t.mk GridDecls (fun _ _ => None) header_4
            ([9] ++ buffers_holder_t.m_buffer data' ++ [77]) 1)
         (grid_reader [])) = Ok s' /\
    m_Points s' = [(0, 0); (1, 1); (2, 0)] /\
    m_trgOffsets s' !! 0%nat = Some kInvalidOffset /\
    m_trgOffsets s' !! 1%nat = Some 500.
Proof.
  assert (Hw : stage2_writable grid_line_area grid_inline_buffers).
  { unfold stage2_writable. simpl. repeat split; try lia; auto. }
  assert (Hline : line_readable (BM := true) grid_line_area grid_inline_buffers
                    (hdr_base header_4) header_4 (m_ptsOffsets (grid_reader []))
                    [(0, 0); (1, 1); (2, 0)]).
  { intros _. split; [discriminate|]. intros _. simpl.
    repeat split; lia. }
  assert (Harea : area_readable (BM := true) grid_line_area grid_inline_buffers
                    (hdr_base header_4) header_4 (m_trgOffsets (grid_reader [])) []).
  { intros _. split; [|intros Hne; exfalso; apply Hne; reflexivity]. intros _.
    unfold outer_readable. simpl.
    repeat split; try lia; try reflexivity.
    - repeat constructor; lia.
    - vm_compute. lia.
    - intros _. vm_compute. lia. }
  destruct (Stage2_roundtrip (BM := true) (G := GridGeom) (DC := GridDecls)
              grid_line_area grid_inline_buffers
              (fun _ _ => None) header_4 [9] [77] (grid_reader [])
              [(0, 0); (1, 1); (2, 0)] [] (0, 0)
              ltac:(vm_compute; lia) ltac:(vm_compute; lia)
              ltac:(repeat constructor; lia)
              ltac:(vm_compute; split; [intros [=]|reflexivity]) ltac:(reflexivity)
              Hw Hline Harea)
    as (data' & s' & Hser & Hrun & _ & _ & _ & _ & _ & _ & Hlr & Har).
  exists data', s'. split; [exact Hser|]. split; [exact Hrun|].
  destruct Hlr as (_ & _ & Hinline). destruct Har as (_ & Houter & _).
  destruct (Hinline eq_refl ltac:(discriminate)) as (Hpts & _).
  destruct (Houter eq_refl eq_refl) as (_ & _ & Hslots & _).
  split; [exact Hpts|].
  split; [exact (Hslots 0%nat ltac:(vm_compute; lia))
         |exact (Hslots 1%nat ltac:(vm_compute; lia))].
Defined.

(** ** The simplification mask through the record *)

Lemma simp_count_covers (nP i : nat) :
  (1 <= i <= nP - 2)%nat -> (2 * i <= 8 * simp_count nP)%nat.
Proof.
  intros Hi. unfold simp_count. rewrite Z.quot_div_nonneg by lia.
  pose proof (Z.mul_succ_div_gt (Z.of_nat nP - 2 + 3) 4 ltac:(lia)) as Hq.
  assert (0 <= (Z.of_nat nP - 2 + 3) / 4) by (apply Z.div_pos; lia).
  lia.
Qed.

(** The mask bytes of an inline line of 2 to 15 points give the reader a
    mask with the tag of every inner vertex as the writer had it. *)
Theorem SimpMask_bytes_roundtrip (nP : nat) (v : Z) (rest : list Z) :
  (2 <= nP <= 15)%nat -> 0 <= v ->
  exists v',
    ReadSimpMask_loop (Z.to_nat (Z.quot (Z.of_nat nP - 2 + 3) 4)) 0
      ((if 2 <? Z.of_nat nP
        then WriteSimpMask_loop (Z.to_nat (Z.quot (Z.of_nat nP - 2 + 3) 4)) v
        else []) ++ rest) 0 = Ok (v', rest) /\
    forall i, (1 <= i <= nP - 2)%nat -> simp_tag v' i = simp_tag v i.
Proof.
  intros HnP Hv. rewrite simp_mask_bytes. fold (simp_count nP).
  destruct (simp_count_bounds nP) as [Hc4 _].
  rewrite ReadSimpMask_loop_roundtrip by (try apply Hc4; lia).
  eexists. split; [reflexivity|].
  intros i Hi. apply simp_tag_mod; [lia|]. now apply simp_count_covers.
Qed.

Lemma SimpMask_bytes_roundtrip_witness :
  exists v',
    ReadSimpMask_loop 2 0 (WriteSimpMask_loop 2 27 ++ [5]) 0 = Ok (v', [5]) /\
    simp_tag v' 2 = simp_tag 27 2.
Proof.
  destruct (SimpMask_bytes_roundtrip 7 27 [5] ltac:(lia) ltac:(lia)) as (v' & Hrun & Htags).
  exists v'. split; [exact Hrun|]. apply Htags. lia.
Defined.

Lemma kept_points_tags {G : Geom} (m m' scaleIndex : Z) (pts : points_t) (d : PointD) :
  (forall i, (1 <= i <= length pts - 2)%nat -> simp_tag m i = simp_tag m' i) ->
  kept_points m scaleIndex pts d = kept_points m' scaleIndex pts d.
Proof.
  intros Htags. unfold kept_points. f_equal. apply filter_agree_nat.
  intros i Hi. apply elem_of_seq_iff in Hi. unfold kept.
  destruct (decide (i = 0%nat)) as [|Hn0]; [tauto|].
  destruct (decide (i = (length pts - 1)%nat)) as [|Hnl]; [tauto|].
  rewrite (Htags i) by lia. tauto.
Qed.

Section Stage2Filter.
Context {BM : BuildMode} {G : Geom} {DC : Decls}.

(** From the writer's mask to the reader's vertices.  An inline line of
    [N] points written by [Serialize] with the simplification mask [m],
    read back by [ParseHeader2] and filtered by [ParseGeometry] at a scale
    that resolves to the scale index [si], shows exactly the decoded
    vertices [i] with [i = 0], [i = N - 1] or tag [(m >> 2*(i-1)) & 3] at
    most [si]. *)
Theorem Stage2_inline_filter (b : FeatureBuilder1) (data : buffers_holder_t)
    (cont : FilesContainerR) (hdr : DataHeader) (pre rest : list Z) (s_old : FeatureType)
    (front : PointD) (tail trg' : points_t) (d : PointD) (scale : Z) :
  (length (m_Types b) <= m_maxTypesCount)%nat ->
  (length (m_Types b) <= length (FeatureBase.m_Types (base s_old)))%nat ->
  Forall (fun t => 0 <= t < 2 ^ 32) (m_Types b) ->
  - 2 ^ 31 <= m_Layer b < 2 ^ 31 ->
  Z.of_nat (length (m_Name b)) < 2 ^ 32 ->
  stage2_writable b data ->
  line_readable b data (hdr_base hdr) hdr (m_ptsOffsets s_old) (front :: tail) ->
  area_readable b data (hdr_base hdr) hdr (m_trgOffsets s_old) trg' ->
  m_bLinear b = true ->
  length (front :: tail) = length (buffers_holder_t.m_innerPts data) ->
  0 <= GetScaleIndex hdr scale < Z.of_nat (GetScalesCount hdr) ->
  GetScaleIndex hdr scale < 2 ^ 31 ->
  exists data' s' s'',
    FeatureBuilder2_Serialize b data (hdr_base hdr) = Ok data' /\
    ParseHeader2
      (FeatureType_Deserialize
         (read_source_t.mk _ cont hdr (pre ++ buffers_holder_t.m_buffer data' ++ rest)
            (length pre)) s_old) = Ok s' /\
    ParseGeometry scale s' = Ok (0, s'') /\
    m_Points s'' =
      kept_points (buffers_holder_t.m_ptsSimpMask data) (GetScaleIndex hdr scale)
        (front :: tail) front.
Proof.
  intros Hcount Harr Hrange Hlayer Hname Hw Hline Harea Hl Hlen Hsi Hint.
  destruct (Stage2_run b data cont hdr pre rest s_old (front :: tail) trg' d Hcount Harr
              Hrange Hlayer Hname Hw Hline Harea)
    as (data' & s' & Hser & Hrun & Hh & _ & _ & _ & Hh2 & _ & Hlr & _ & Hpp & _ & _ & Hhd).
  destruct Hlr as (_ & _ & Hinline).
  assert (HnP : length (buffers_holder_t.m_innerPts data) <> 0%nat)
    by (rewrite <- Hlen; discriminate).
  destruct (Hinline Hl HnP) as (Hpts & _ & Hmask & _).
  destruct (proj2 (Hline Hl) HnP) as (HnP2 & _ & Hm0 & _).
  destruct Hw as (HnP15 & _).
  assert (Hfl : has_flag (Header (base s')) HEADER_IS_LINE = true).
  { rewrite Hh. destruct (GetHeader_decode b Hcount) as (_ & _ & _ & _ & _ & Hfl & _).
    now rewrite Hfl. }
  rewrite <- Hhd in Hsi, Hint.
  destruct (ParseGeometry_inline_eval scale s' front tail Hpp Hh2 Hfl Hpts Hsi Hint)
    as (s'' & Hgeo & Hkept & _).
  exists data', s', s''. split; [exact Hser|]. split; [exact Hrun|]. split; [exact Hgeo|].
  rewrite Hkept, inline_filter_kept_points, Hhd by (cbn [length] in Hlen; lia).
  apply kept_points_tags. intros i Hi. rewrite Hmask.
  apply simp_tag_mod; [lia|]. apply simp_count_covers. rewrite <- Hlen. exact Hi.
Qed.

End Stage2Filter.

Lemma Stage2_inline_filter_witness :
  exists (data' : buffers_holder_t (G := GridGeom))
         (s' s'' : FeatureType (G := GridGeom) (DC := GridDecls)),
    FeatureBuilder2_Serialize (BM := true) grid_line_area grid_inline_buffers 0 = Ok data' /\
    ParseHeader2 (BM := true)
      (FeatureType_Deserialize
         (read_source_t.mk GridDecls (fun _ _ => None) header_4
            ([9] ++ buffers_holder_t.m_buffer data' ++ [77]) 1)
         (grid_reader [])) = Ok s' /\
    ParseGeometry (BM := true) 3 s' = Ok (0, s'') /\
    m_Points s'' = [(0, 0); (2, 0)].
Proof.
  assert (Hw : stage2_writable grid_line_area grid_inline_buffers).
  { unfold stage2_writable. simpl. repeat split; try lia; auto. }
  assert (Hline : line_readable (BM := true) grid_line_area grid_inline_buffers
                    (hdr_base header_4) header_4 (m_ptsOffsets (grid_reader []))
                    [(0, 0); (1, 1); (2, 0)]).
  { intros _. split; [discriminate|]. intros _. simpl. repeat split; lia. }
  assert (Harea : area_readable (BM := true) grid_line_area grid_inline_buffers
                    (hdr_base header_4) header_4 (m_trgOffsets (grid_reader [])) []).
  { intros _. split; [|intros Hne; exfalso; apply Hne; reflexivity]. intros _.
    unfold outer_readable. simpl.
    repeat split; try lia; try reflexivity.
    - repeat constructor; lia.
    - vm_compute. lia.
    - intros _. vm_compute. lia. }
  destruct (Stage2_inline_filter (BM := true) (G := GridGeom) (DC := GridDecls)
              grid_line_area grid_inline_buffers
              (fun _ _ => None) header_4 [9] [77] (grid_reader [])
              (0, 0) [(1, 1); (2, 0)] [] (0, 0) 3
              ltac:(vm_compute; lia) ltac:(vm_compute; lia)
              ltac:(repeat constructor; lia)
              ltac:(vm_compute; split; [intros [=]|reflexivity]) ltac:(reflexivity)
              Hw Hline Harea eq_refl eq_refl
              ltac:(vm_compute; split; [intros [=]|reflexivity]) ltac:(reflexivity))
    as (data' & s' & s'' & Hser & Hrun & Hgeo & Hpts).
  exists data', s', s''. repeat split; assumption.
Defined.

(** ** Offsets left over in a reader *)

Section StaleOffsets.
Context {BM : BuildMode}.

(** [ReadOffsets] writes the slots below the bit length of the mask and no
    other, and the search of [GetScaleIndex] for scale -1 starts at the last
    slot of the array: when a slot at or above the bit length of the mask
    held a valid offset before [ReadOffsets], the index returned for scale
    -1 is that of a slot the mask does not cover. *)
Theorem ReadOffsets_leaves_stale_slots (hdr : DataHeader) (mask : Z) (vals rest : list Z)
    (offsets : list Z) (i : nat) (o : Z) :
  0 < mask < 256 ->
  length vals = rank mask (bit_length mask) ->
  Forall (fun v => 0 <= v < 2 ^ 32) vals ->
  (bit_length mask <= length offsets)%nat ->
  (DEBUG = true -> (bit_length mask <= GetScalesCount hdr)%nat) ->
  (bit_length mask <= i)%nat -> offsets !! i = Some o -> o <> kInvalidOffset ->
  exists offsets' k,
    ReadOffsets hdr (concat (map WriteVarUint vals) ++ rest) mask offsets =
      Ok (rest, offsets') /\
    GetScaleIndex_offsets hdr (-1) offsets' = Ok (Z.of_nat k) /\
    (bit_length mask <= k)%nat /\
    offsets' !! k = offsets !! k.
Proof.
  intros Hmask Hvals Hrange Hlen Hdbg Hi Ho Hvalid.
  destruct (ReadOffsets_run hdr mask vals rest offsets Hmask Hvals Hrange Hlen Hdbg)
    as (offsets' & Hrun & Hlen' & _ & Hkeep).
  assert (Hvi : valid_at offsets' i).
  { exists o. split; [|assumption]. now rewrite Hkeep. }
  assert (Hin : (i < length offsets')%nat).
  { rewrite Hlen'. now apply lookup_lt_Some in Ho. }
  unfold GetScaleIndex_offsets. cbn [Z.eqb Pos.eqb].
  destruct (offsets_while_spec offsets' (length offsets') (le_n _))
    as [(k & Hk & Hvk & Hall & Hr)|(Hall & _)].
  - assert (Hik : (i <= k)%nat).
    { destruct (le_lt_dec i k) as [|Hlt]; [assumption|].
      exfalso. apply (Hall i); [lia|assumption]. }
    exists offsets', k. split; [exact Hrun|]. split.
    + rewrite Hr. cbn [mbind result_bind].
      destruct (Z.leb_spec 0 (Z.of_nat k)); [reflexivity|lia].
    + split; [lia|]. apply Hkeep. lia.
  - exfalso. exact (Hall i Hin Hvi).
Qed.

End StaleOffsets.

Lemma ReadOffsets_leaves_stale_slots_witness :
  exists offsets' k,
    ReadOffsets (BM := true) header_4 (concat (map WriteVarUint [100]) ++ [77]) 1
      [0; 0; 0; 900] = Ok ([77], offsets') /\
    GetScaleIndex_offsets header_4 (-1) offsets' = Ok (Z.of_nat k) /\
    (1 <= k)%nat.
Proof.
  destruct (ReadOffsets_leaves_stale_slots (BM := true) header_4 1 [100] [77] [0; 0; 0; 900]
              3 900 ltac:(lia) ltac:(reflexivity) ltac:(repeat constructor; lia)
              ltac:(vm_compute; lia) ltac:(intros _; vm_compute; lia)
              ltac:(vm_compute; lia) ltac:(reflexivity) ltac:(vm_compute; intros [=]))
    as (offsets' & k & Hrun & Hidx & Hk & _).
  exists offsets', k. repeat split; assumption.
Defined.

(** ** The limit rectangle and the geometry sizes of a reader *)

Section LimitRect.
Context {BM : BuildMode} {G : Geom} {DC : Decls}.
Variable zero_rect : RectD.

Lemma GetLimitRect_parsed (scale : Z) (s : FeatureType) :
  m_bPointsParsed s = true -> m_bTrianglesParsed s = true ->
  GetLimitRect zero_rect scale s =
    Ok (if bool_decide (length (m_Triangles s) = 0%nat) &&
           bool_decide (length (m_Points s) = 0%nat) &&
           (Z.land (Header (base s)) HEADER_HAS_POINT =? 0)
        then (zero_rect, set_base (set_LimitRect_base zero_rect (base s)) s)
        else (FeatureBase.m_LimitRect (base s), s)).
Proof.
  intros Hp Ht. unfold GetLimitRect. rewrite (ParseAll_parsed scale s Hp Ht).
  cbn [mbind result_bind].
  destruct (bool_decide (length (m_Triangles s) = 0%nat) &&
            bool_decide (length (m_Points s) = 0%nat) &&
            (Z.land (Header (base s)) HEADER_HAS_POINT =? 0)); reflexivity.
Qed.

(** [GetLimitRect] fixes its answer at the first call.  When a call at some
    scale returns, both geometry stages are marked as run and the rectangle
    returned is the one stored in the object, which is [RectD(0, 0, 0, 0)]
    when the object holds no point, no triangle and no centre; every later
    call, at whatever scale, returns the same rectangle and leaves the
    object as it is. *)
Theorem GetLimitRect_sticky (scale : Z) (s s' : FeatureType) (r : RectD) :
  GetLimitRect zero_rect scale s = Ok (r, s') ->
  m_bPointsParsed s' = true /\ m_bTrianglesParsed s' = true /\
  FeatureBase.m_LimitRect (base s') = r /\
  (m_Triangles s' = [] -> m_Points s' = [] ->
   has_flag (Header (base s')) HEADER_HAS_POINT = false -> r = zero_rect) /\
  forall scale', GetLimitRect zero_rect scale' s' = Ok (r, s').
Proof.
  unfold GetLimitRect at 1. intros Hrun. bind_inv Hrun. rename a into s1.
  destruct (ParseAll_frame scale s s1 E) as (Hp & Ht & _).
  cbv zeta in Hrun.
  destruct (bool_decide (length (m_Triangles s1) = 0%nat) &&
            bool_decide (length (m_Points s1) = 0%nat) &&
            (Z.land (Header (base s1)) HEADER_HAS_POINT =? 0)) eqn:Hc;
    injection Hrun as <- <-.
  - split; [exact Hp|]. split; [exact Ht|]. split; [reflexivity|].
    split; [reflexivity|]. intros scale'.
    rewrite GetLimitRect_parsed by assumption.
    cbn [set_base m_Triangles m_Points base].
    replace (Header (set_LimitRect_base zero_rect (base s1))) with (Header (base s1))
      by reflexivity.
    rewrite Hc. reflexivity.
  - split; [exact Hp|]. split; [exact Ht|]. split; [reflexivity|]. split.
    + intros Htrg Hpts Hflag. unfold has_flag in Hflag.
      apply negb_false_iff in Hflag. rewrite Htrg, Hpts, Hflag in Hc. discriminate Hc.
    + intros scale'. rewrite GetLimitRect_parsed by assumption. now rewrite Hc.
Qed.

(** [GetGeometrySize] on an inline line reports the bytes the inline path
    took in the record, as header2 measured them and whatever the scale,
    together with the number of vertices that survive the filter of the
    scale. *)
Theorem GetGeometrySize_inline (scale : Z) (s : FeatureType) (front : PointD)
    (tail : points_t) :
  m_bPointsParsed s = false ->
  m_bHeader2Parsed s = true ->
  has_flag (Header (base s)) HEADER_IS_LINE = true ->
  m_Points s = front :: tail ->
  (1 <= length tail)%nat ->
  0 <= GetScaleIndex (m_header s) scale < Z.of_nat (GetScalesCount (m_header s)) ->
  GetScaleIndex (m_header s) scale < 2 ^ 31 ->
  exists s',
    GetGeometrySize scale s =
      Ok (stat_Points s,
          length (kept_points (m_ptsSimpMask s) (GetScaleIndex (m_header s) scale)
                    (front :: tail) front),
          s') /\
    m_bPointsParsed s' = true.
Proof.
  intros Hpp Hh2 Hline Hpts Hlen Hsi Hint.
  assert (Hu : u32 (GetScaleIndex (m_header s) scale) = GetScaleIndex (m_header s) scale)
    by (apply u32_small; lia).
  unfold GetGeometrySize, ParseGeometry. rewrite Hpp, Hh2. cbn [negb].
  rewrite ASSERT_true. cbn [mbind result_bind]. rewrite Hline, Hpts, Hu.
  replace (GetScaleIndex (m_header s) scale <? Z.of_nat (GetScalesCount (m_header s)))
    with true by (symmetry; apply Z.ltb_lt; lia).
  rewrite ASSERT_true. cbn [mbind result_bind].
  cbn [m_Points set_bPointsParsed set_base set_Points stat_Points app length].
  cbn [Z.eqb negb andb]. rewrite bool_decide_false by discriminate. cbn [negb].
  rewrite <- (inline_filter_kept_points (m_ptsSimpMask s) _ front tail) by assumption.
  eexists. split; reflexivity.
Qed.

(** [GetGeometrySize] on a line whose outer geometry is missing at the
    scale reports no byte and no vertex, and obtains no reader from the
    container: the size recorded for inline points is used only when there
    are points. *)
Theorem GetGeometrySize_missing (scale : Z) (s : FeatureType) :
  m_bPointsParsed s = false ->
  m_bHeader2Parsed s = true ->
  has_flag (Header (base s)) HEADER_IS_LINE = true ->
  m_Points s = [] ->
  GetScaleIndex_offsets (m_header s) scale (m_ptsOffsets s) = Ok (-1) ->
  exists s',
    GetGeometrySize scale s = Ok (0, 0%nat, s') /\
    m_bPointsParsed s' = true /\ opened s' = opened s.
Proof.
  intros Hpp Hh2 Hline Hpts Hind.
  unfold GetGeometrySize.
  rewrite (ParseGeometry_missing scale s s) by (try rewrite Hh2; auto).
  cbn [mbind result_bind]. cbn [m_Points set_bPointsParsed set_base].
  rewrite Hpts. cbn. eexists. split; [reflexivity|]. split; reflexivity.
Qed.

End LimitRect.

Lemma GetLimitRect_sticky_witness :
  exists s' : FeatureType (G := GridGeom) (DC := GridDecls),
    GetLimitRect (BM := true) (G := GridGeom) (DC := GridDecls) (0, 0, 0, 0) 3
      outer_line_missing = Ok ((0, 0, 0, 0), s') /\
    GetLimitRect (BM := true) (G := GridGeom) (DC := GridDecls) (0, 0, 0, 0) 7 s' =
      Ok ((0, 0, 0, 0), s').
Proof.
  let r := eval vm_compute in
    (GetLimitRect (BM := true) (G := GridGeom) (DC := GridDecls) (0, 0, 0, 0) 3
       outer_line_missing) in
  match r with
  | Ok (_, ?s) =>
      exists s;
      assert (Hrun : GetLimitRect (BM := true) (G := GridGeom) (DC := GridDecls)
                       (0, 0, 0, 0) 3 outer_line_missing = Ok ((0, 0, 0, 0), s))
        by (vm_compute; reflexivity)
  end.
  split; [exact Hrun|].
  destruct (GetLimitRect_sticky (BM := true) (G := GridGeom) (DC := GridDecls)
              (0, 0, 0, 0) 3 _ _ _ Hrun)
    as (_ & _ & _ & _ & Hagain).
  apply Hagain.
Defined.

Lemma GetGeometrySize_inline_witness :
  exists s',
    GetGeometrySize (BM := true) 7 inline_line_5 = Ok (0, 3%nat, s') /\
    m_bPointsParsed s' = true.
Proof.
  destruct (GetGeometrySize_inline (BM := true) 7 inline_line_5 (0, 0)
              [(1, 1); (2, 0); (3, 1); (4, 0)]
              eq_refl eq_refl eq_refl eq_refl ltac:(simpl; lia)
              ltac:(vm_compute; split; [intros [=]|reflexivity]) ltac:(reflexivity))
    as (s' & Hrun & Hp).
  exists s'. split; [exact Hrun|exact Hp].
Defined.

Lemma GetGeometrySize_missing_witness :
  exists s',
    GetGeometrySize (BM := true) 3 outer_line_missing = Ok (0, 0%nat, s') /\
    opened s' = [].
Proof.
  destruct (GetGeometrySize_missing (BM := true) 3 outer_line_missing
              eq_refl eq_refl eq_refl eq_refl eq_refl) as (s' & Hrun & _ & Hop).
  exists s'. split; [exact Hrun|exact Hop].
Defined.

(** ** Inline strips and lines at the limits of header2 *)

Section ShortStrip.
Context {G : Geom}.
Import buffers_holder_t.

(** The buffers without their inline strip. *)
Definition without_strip (data : buffers_holder_t) : buffers_holder_t :=
  {| m_buffer := m_buffer data; m_innerPts := m_innerPts data; m_innerTrg := [];
     m_ptsMask := m_ptsMask data; m_trgMask := m_trgMask data;
     m_ptsSimpMask := m_ptsSimpMask data;
     m_ptsOffset := m_ptsOffset data; m_trgOffset := m_trgOffset data |}.

(** An inline strip of two vertices holds no triangle.  A DEBUG build stops
    [Serialize] on it at [ASSERT_GREATER(trgCount, 2)]; a release build
    carries on with [trgCount - 2 = 0], which is the mark of outer geometry:
    the record it writes is the one it writes for the same buffers without
    the strip, the area mask and offsets in place of the two vertices. *)
Theorem FeatureBuilder2_Serialize_short_strip (b : FeatureBuilder1)
    (data : buffers_holder_t) (base : Z) :
  length (m_innerTrg data) = 2%nat ->
  FeatureBuilder2_Serialize (BM := true) b data base =
    Fail (AssertFailed "trgCount > 2") /\
  exists data1 data0,
    FeatureBuilder2_Serialize (BM := false) b data base = Ok data1 /\
    FeatureBuilder2_Serialize (BM := false) b (without_strip data) base = Ok data0 /\
    m_buffer data1 = m_buffer data0.
Proof.
  intros Hlen. split.
  - unfold FeatureBuilder2_Serialize. rewrite Hlen. reflexivity.
  - unfold FeatureBuilder2_Serialize, BitSink_Write.
    cbn [without_strip m_innerPts m_innerTrg m_ptsMask m_trgMask m_ptsSimpMask
         m_ptsOffset m_trgOffset length].
    rewrite Hlen. rewrite !ASSERT_release.
    change (u8 (Z.of_nat 2)) with 2. change (u8 (Z.of_nat 0)) with 0.
    change (u8 (2 - 2)) with 0.
    cbn [Z.ltb Z.eqb Z.compare mbind result_bind].
    destruct (m_bLinear b); cbn [mbind result_bind];
      repeat match goal with
             | |- context [if ?c then _ else _] => destruct c; cbn [mbind result_bind]
             end;
      do 2 eexists; (split; [reflexivity|split; reflexivity]).
Qed.

End ShortStrip.

Lemma FeatureBuilder2_Serialize_short_strip_witness :
  FeatureBuilder2_Serialize (BM := true) (G := GridGeom) grid_line_area
    (buffers_holder_t.mk GridGeom [] [] [(0, 0); (1, 0)] 1 2 0 [300] [500]) 0 =
    Fail (AssertFailed "trgCount > 2").
Proof.
  exact (proj1 (FeatureBuilder2_Serialize_short_strip grid_line_area
                  (buffers_holder_t.mk GridGeom [] [] [(0, 0); (1, 0)] 1 2 0 [300] [500]) 0
                  eq_refl)).
Defined.

Section FifteenPoints.
Context {G : Geom} {DC : Decls}.

Lemma ParseHeader2_fifteen (b : FeatureBuilder1) (payload : list Z) (s : FeatureType) :
  (length (m_Types b) <= m_maxTypesCount)%nat ->
  m_bLinear b = true -> m_bArea b = false ->
  m_bHeader2Parsed s = false ->
  FeatureBase.m_bCommonParsed (base s) = true ->
  Header (base s) = GetHeader b ->
  drop (FeatureBase.m_Header2Offset (base s)) (DataPtr (base s)) = 15 :: payload ->
  ParseHeader2 (BM := true) s = Fail (AssertFailed "count < 4").
Proof.
  intros Hcount Hl Ha Hh2 Hcp Hhdr Hsrc.
  destruct (GetHeader_decode b Hcount) as (_ & _ & _ & _ & _ & Hfl & Hfa).
  unfold ParseHeader2. rewrite Hh2, Hcp. cbn [negb]. rewrite ASSERT_true.
  cbn [mbind result_bind]. rewrite Hhdr, Hfl, Hfa, Hl, Ha, Hsrc.
  unfold BitSource_ctor. rewrite BitSource_Read_nibble_single by lia.
  reflexivity.
Qed.

(** The reader's limit is one below the writer's.  [Serialize] takes an
    inline line of 15 points, the largest count four bits hold, in every
    build; [ParseHeader2] of a DEBUG build stops on the record at
    [ASSERT_LESS(count, 4)], since 15 points make four mask bytes, while a
    release build reads the 15 points back. *)
Theorem Stage2_fifteen_points (b : FeatureBuilder1) (data : buffers_holder_t)
    (cont : FilesContainerR) (hdr : DataHeader) (pre rest : list Z) (s_old : FeatureType)
    (pts' : points_t) :
  (length (m_Types b) <= m_maxTypesCount)%nat ->
  (length (m_Types b) <= length (FeatureBase.m_Types (base s_old)))%nat ->
  Forall (fun t => 0 <= t < 2 ^ 32) (m_Types b) ->
  - 2 ^ 31 <= m_Layer b < 2 ^ 31 ->
  Z.of_nat (length (m_Name b)) < 2 ^ 32 ->
  m_bLinear b = true -> m_bArea b = false ->
  length (buffers_holder_t.m_innerPts data) = 15%nat ->
  length (buffers_holder_t.m_innerTrg data) = 0%nat ->
  0 <= buffers_holder_t.m_ptsSimpMask data ->
  (forall R, LoadInnerPath
               (SaveInnerPath (buffers_holder_t.m_innerPts data) (hdr_base hdr) ++ R)
               15 (hdr_base hdr) [] = Some (pts', R)) ->
  exists data',
    FeatureBuilder2_Serialize (BM := true) b data (hdr_base hdr) = Ok data' /\
    FeatureBuilder2_Serialize (BM := false) b data (hdr_base hdr) = Ok data' /\
    ParseHeader2 (BM := true)
      (FeatureType_Deserialize
         (read_source_t.mk _ cont hdr (pre ++ buffers_holder_t.m_buffer data' ++ rest)
            (length pre)) s_old) = Fail (AssertFailed "count < 4") /\
    exists s',
      ParseHeader2 (BM := false)
        (FeatureType_Deserialize
           (read_source_t.mk _ cont hdr (pre ++ buffers_holder_t.m_buffer data' ++ rest)
              (length pre)) s_old) = Ok s' /\
      m_Points s' = pts'.
Proof.
  intros Hcount Harr Hrange Hlayer Hname Hl Ha HnP HnT Hm Hdec.
  assert (Hw : stage2_writable b data).
  { unfold stage2_writable. rewrite HnP, HnT. split; [lia|]. split; [now left|].
    split; [intros _ Hz; discriminate Hz|]. intros Hf. rewrite Ha in Hf. discriminate Hf. }
  assert (Hline : line_readable (BM := false) b data (hdr_base hdr) hdr
                    (m_ptsOffsets s_old) pts').
  { intros _. cbv zeta. rewrite HnP. split; [intros Hz; discriminate Hz|]. intros _.
    split; [lia|]. split; [intros Hd; discriminate Hd|]. split; [exact Hm|exact Hdec]. }
  assert (Harea : area_readable (BM := false) b data (hdr_base hdr) hdr
                    (m_trgOffsets s_old) []).
  { intros Hf. rewrite Ha in Hf. discriminate Hf. }
  destruct (Stage2_run (BM := false) b data cont hdr pre rest s_old pts' [] Point_ctor
              Hcount Harr Hrange Hlayer Hname Hw Hline Harea)
    as (data0 & s' & Hser0 & Hrun0 & _ & _ & _ & _ & _ & _ & Hlr & _).
  destruct (FeatureBuilder2_Serialize_layout_run (BM := true) b data (hdr_base hdr) Hw)
    as (data1 & Hser1 & Hbuf1).
  destruct (FeatureBuilder2_Serialize_layout_run (BM := false) b data (hdr_base hdr) Hw)
    as (data0' & Hser0' & Hbuf0).
  assert (data0' = data0) as -> by congruence.
  assert (Hsame : data1 = data0).
  { revert Hser1 Hser0. unfold FeatureBuilder2_Serialize, BitSink_Write.
    rewrite HnP, HnT, Hl, Ha. rewrite !ASSERT_release.
    change (u8 (Z.of_nat 15)) with 15. change (u8 (Z.of_nat 0)) with 0.
    change (Z.shiftr 15 4 =? 0) with true. rewrite !ASSERT_true.
    cbn [Z.ltb Z.eqb Z.compare mbind result_bind]. congruence. }
  subst data1. exists data0. split; [exact Hser1|]. split; [exact Hser0|]. split.
  - rewrite Hbuf0.
    set (bp := Uint64ToPointU (u64 (hdr_base hdr))).
    set (tail := pack_nibbles (line_nibbles b data ++ area_nibbles b data) ++
                 line_payload b data (hdr_base hdr) ++ area_payload b data (hdr_base hdr)).
    assert (Hdata : pre ++ (SerializeBase b bp ++ tail) ++ rest =
                    pre ++ SerializeBase b bp ++ (tail ++ rest))
      by (now rewrite <- !app_assoc).
    rewrite Hdata.
    set (s0 := FeatureType_Deserialize _ s_old).
    set (f' := parsed_base b bp pre (tail ++ rest) (hdr_base hdr) (base s_old)).
    assert (HPC : ParseCommon (BM := true) (base s0) = Ok f').
    { unfold s0, FeatureType_Deserialize.
      cbn [base read_source_t.m_data read_source_t.m_offset read_source_t.m_header].
      now apply ParseCommon_SerializeBase. }
    rewrite (ParseHeader2_after_common s0 f' eq_refl HPC eq_refl).
    destruct (GetHeader_decode b Hcount) as (Hh & _).
    assert (HD : DataPtr f' = SerializeBase b bp ++ tail ++ rest).
    { unfold DataPtr, f', parsed_base. cbn [FeatureBase.m_Offset FeatureBase.m_Data].
      apply drop_app_length. }
    apply (ParseHeader2_fifteen b
             (line_payload b data (hdr_base hdr) ++ area_payload b data (hdr_base hdr) ++ rest));
      try assumption; try reflexivity.
    + cbn [set_base base]. unfold Header. rewrite HD. unfold SerializeBase. cbn [app].
      now apply u8_small.
    + cbn [set_base base]. rewrite HD.
      change (FeatureBase.m_Header2Offset f') with (length (SerializeBase b bp)).
      rewrite drop_app_length. unfold tail, line_nibbles, area_nibbles.
      rewrite Hl, Ha, HnP. cbn [Nat.eqb app pack_nibbles]. now rewrite <- !app_assoc.
  - exists s'. split; [exact Hrun0|].
    destruct Hlr as (_ & _ & Hinline).
    destruct (Hinline Hl ltac:(rewrite HnP; discriminate)) as (Hpts & _). exact Hpts.
Qed.

End FifteenPoints.

(** Fifteen inline points of a line, with all mask bits zero. *)
Definition grid_fifteen_points : list (Z * Z) :=
  [(0, 0); (1, 1); (2, 0); (3, 1); (4, 0); (5, 1); (6, 0); (7, 1); (8, 0); (9, 1);
   (10, 0); (11, 1); (12, 0); (13, 1); (14, 0)].

Definition grid_fifteen_buffers : buffers_holder_t (G := GridGeom) :=
  buffers_holder_t.mk GridGeom [] grid_fifteen_points [] 0 0 0 [] [].

Lemma Stage2_fifteen_points_witness :
  exists data' : buffers_holder_t (G := GridGeom),
    FeatureBuilder2_Serialize (BM := true) grid_line grid_fifteen_buffers 0 = Ok data' /\
    FeatureBuilder2_Serialize (BM := false) grid_line grid_fifteen_buffers 0 = Ok data' /\
    ParseHeader2 (BM := true) (G := GridGeom) (DC := GridDecls)
      (FeatureType_Deserialize
         (read_source_t.mk GridDecls (fun _ _ => None) header_4
            ([9] ++ buffers_holder_t.m_buffer data' ++ [77]) 1)
         (grid_reader [])) = Fail (AssertFailed "count < 4") /\
    exists s' : FeatureType (G := GridGeom) (DC := GridDecls),
      ParseHeader2 (BM := false)
        (FeatureType_Deserialize
           (read_source_t.mk GridDecls (fun _ _ => None) header_4
              ([9] ++ buffers_holder_t.m_buffer data' ++ [77]) 1)
           (grid_reader [])) = Ok s' /\
      m_Points s' = grid_fifteen_points.
Proof.
  exact (Stage2_fifteen_points (G := GridGeom) (DC := GridDecls)
           grid_line grid_fifteen_buffers (fun _ _ => None) header_4 [9] [77]
           (grid_reader []) grid_fifteen_points
           ltac:(vm_compute; lia) ltac:(vm_compute; lia)
           ltac:(repeat constructor; lia)
           ltac:(vm_compute; split; [intros [=]|reflexivity]) ltac:(reflexivity)
           eq_refl eq_refl eq_refl eq_refl ltac:(vm_compute; intros [=])
           ltac:(intros R; reflexivity)).
Defined.

(** ** The size of an inline strip *)

Section TrianglesSize.
Context {BM : BuildMode} {G : Geom} {DC : Decls}.

(** [GetTrianglesSize] on an area whose triangles came inline reports the
    bytes the strip took in the record and the number of triangle vertices
    held, the same at every scale: unlike the points of an inline line the
    triangles are not filtered, the scale is not resolved and no reader is
    obtained from the container. *)
Theorem GetTrianglesSize_inline (scale : Z) (s : FeatureType) (t : PointD) (ts : points_t) :
  m_bTrianglesParsed s = false ->
  m_bHeader2Parsed s = true ->
  has_flag (Header (base s)) HEADER_IS_AREA = true ->
  m_Triangles s = t :: ts ->
  exists s',
    GetTrianglesSize scale s = Ok (stat_Strips s, S (length ts), s') /\
    m_Triangles s' = t :: ts /\ m_bTrianglesParsed s' = true /\
    opened s' = opened s /\ m_trgOffsets s' = m_trgOffsets s.
Proof.
  intros Htp Hh2 Harea Htrg.
  unfold GetTrianglesSize, ParseTriangles. rewrite Htp, Hh2. cbn [negb].
  rewrite ASSERT_true. cbn [mbind result_bind]. rewrite Harea, Htrg.
  cbn [mbind result_bind].
  cbn [m_Triangles set_bTrianglesParsed set_base stat_Strips opened m_trgOffsets].
  rewrite Htrg. cbn [Z.eqb andb length]. rewrite bool_decide_false by discriminate.
  cbn [negb]. eexists. split; [reflexivity|]. repeat split. exact Htrg.
Qed.

End TrianglesSize.

Lemma GetTrianglesSize_inline_witness :
  exists s',
    GetTrianglesSize (BM := true) 3
      (grid_reader_after_header2 129 [] [(0, 0); (4, 0); (0, 4)] 0 [] []) =
      Ok (0, 3%nat, s') /\
    m_Triangles s' = [(0, 0); (4, 0); (0, 4)] /\ m_bTrianglesParsed s' = true /\
    opened s' = [] /\ m_trgOffsets s' = [].
Proof.
  exact (GetTrianglesSize_inline (BM := true) (G := GridGeom) (DC := GridDecls) 3
           (grid_reader_after_header2 129 [] [(0, 0); (4, 0); (0, 4)] 0 [] [])
           (0, 0) [(4, 0); (0, 4)] eq_refl eq_refl eq_refl eq_refl).
Defined.
